(** * Cantera reaction model: a shallow embedding of [src/kinetics/Reaction.cpp]

    The development follows the C++ file function by function.  A
    [Composition] ([std::map<std::string, double>]) is a finite map from
    species names to binary64 values, iterated in the byte-wise order of its
    keys; a [double] is a primitive binary64 float; [size_t] is an integer
    modulo 2^64; exceptions are the [Throw] outcome of a small error monad,
    which also records the places where the language leaves the behaviour
    undefined; the governing mechanism ([Kinetics]) and its phases are
    records of the queries the file makes. *)

From Stdlib Require Import ZArith String Ascii Floats OrdersEx.
From stdpp Require Import gmap strings list fin_maps sorting.

Set Warnings "-inexact-float,-clear-no-such-hyp".
Local Open Scope string_scope.
Local Open Scope Z_scope.
Local Open Scope list_scope.

(** ** Doubles and [size_t] *)

Module Double.

(** [trunc] of <cmath>: rounds toward zero; zeros, infinities and NaN are
    returned unchanged, and so is every value whose binary exponent leaves
    no fractional bits. *)
Definition trunc (x : float) : float :=
  match Prim2SF x with
  | S754_finite s m e =>
      if 0 <=? e then x
      else
        let r := PrimFloat.of_uint63 (Uint63.of_Z (Z.shiftr (Z.pos m) (- e))) in
        if s then PrimFloat.opp r else r
  | _ => x
  end.

(** The test [trunc(x) == x] used throughout the file. *)
Definition is_integral (x : float) : bool := PrimFloat.eqb (trunc x) x.

(** The mathematical value of [x] with its fractional part discarded;
    [None] for infinities and NaN. *)
Definition to_Z (x : float) : option Z :=
  match Prim2SF x with
  | S754_zero _ => Some 0
  | S754_finite s m e =>
      let v := if 0 <=? e then Z.shiftl (Z.pos m) e else Z.shiftr (Z.pos m) (- e) in
      Some (if s then - v else v)
  | _ => None
  end.

Definition size_t_modulus : Z := 2 ^ 64.

(** [static_cast<size_t>(x)]: defined by the language only when the
    truncated value is representable; [None] stands for the undefined
    cases. *)
Definition to_size_t (x : float) : option Z :=
  match to_Z x with
  | Some v => if (0 <=? v) && (v <? size_t_modulus) then Some v else None
  | None => None
  end.

(** [x != y], [x > y], [x < y] and [fabs] on doubles. *)
Definition neqb (x y : float) : bool := negb (PrimFloat.eqb x y).
Definition gtb (x y : float) : bool := PrimFloat.ltb y x.
Definition fabs (x : float) : float := PrimFloat.abs x.

End Double.

(** Arithmetic on [size_t]: 64-bit, wrapping. *)
Definition npos : Z := Double.size_t_modulus - 1.
Definition size_add (a b : Z) : Z := (a + b) mod Double.size_t_modulus.
Definition size_sub (a b : Z) : Z := (a - b) mod Double.size_t_modulus.

(** ** Strings *)

(** [boost::algorithm::starts_with(s, p)] and [ends_with(s, p)]. *)
Definition starts_with (s p : string) : bool := String.prefix p s.

Definition ends_with (s p : string) : bool :=
  let n := String.length s in
  let k := String.length p in
  (k <=? n)%nat && String.eqb (String.substring (n - k) k s) p.

(** [std::string::substr(pos, count)] for [pos <= size()]: the characters
    [pos, pos + min(count, size() - pos)). *)
Definition substr (s : string) (pos count : Z) : string :=
  let size := Z.of_nat (String.length s) in
  String.substring (Z.to_nat pos) (Z.to_nat (Z.min count (size - pos))) s.

(** ** Outcomes of operations that may throw

    One constructor per [throw] of the file, with the data the message is
    built from; [UndefinedBehaviour] marks a dereference of [end()] or of a
    null pointer, and a conversion to [size_t] that the language leaves
    undefined. *)

Inductive CanteraError : Type :=
| NonReactantOrder (species : string)
| NegativeOrder (species : string)
| OrdersOnReversible
| RateCheckFailed (msg : string)
| UndeclaredSpecies (names : list string)
| UndeclaredOrderSpecies (names : list string) (at_orders_node : bool)
| UndeclaredThirdBodies (names : list string) (at_efficiencies_node : bool)
| Unbalanced (rows : list (string * float * float))
| SitesUnbalanced (reac_sites prod_sites : float)
| MultipleCollisionPartners
| MissingThirdBodyM
| FalloffNoThirdBody
| FalloffUnmatchedThirdBody (third_body : string)
| NotANumber (token : string)
| ParseError (token last_used : string)
| MissingKey (key : string)
| UndefinedBehaviour.

Inductive result (A : Type) : Type :=
| Ok (a : A)
| Throw (e : CanteraError).
Arguments Ok {A} a.
Arguments Throw {A} e.

#[global] Instance result_ret : MRet result := λ A a, Ok a.
#[global] Instance result_bind : MBind result := λ A B f r,
  match r with
  | Ok a => f a
  | Throw e => Throw e
  end.

(** A loop whose body may throw. *)
Fixpoint foldM {A B : Type} (f : B → A → result A) (l : list B) (a : A) : result A :=
  match l with
  | [] => Ok a
  | b :: l' => a' ← f b a; foldM f l' a'
  end.

(** ** Compositions *)

Module Composition.

(** The order of [std::map<std::string, ...>]: keys compared byte by byte. *)
Definition key_le {V : Type} (p q : string * V) : Prop :=
  Is_true (String.leb p.1 q.1).

#[global] Instance key_le_dec {V : Type} (p q : string * V) :
  Decision (key_le p q) := _.

(** The entries of a map in iteration order ([begin()] to [end()]). *)
Definition items {V : Type} (m : gmap string V) : list (string * V) :=
  merge_sort key_le (map_to_list m).

(** [m.count(k)] *)
Definition count {V : Type} (m : gmap string V) (k : string) : Z :=
  match m !! k with Some _ => 1 | None => 0 end.

(** [m[k]] read through [operator[]]: a missing key is value-initialised. *)
Definition at_default (m : gmap string float) (k : string) : float :=
  default 0%float (m !! k).

(** [m[k] += v] *)
Definition add (m : gmap string float) (k : string) (v : float) : gmap string float :=
  <[k := PrimFloat.add (at_default m k) v]> m.

(** [m.emplace(k, v)]: inserts only when the key is absent. *)
Definition emplace {V : Type} (m : gmap string V) (k : string) (v : V) : gmap string V :=
  match m !! k with
  | Some _ => m
  | None => <[k := v]> m
  end.

End Composition.

Abbreviation Composition := (gmap string float).

(** ** The collaborators of the file

    [cantera/base]: the string utilities and the unit classes the file calls.
    Their code is outside this file, so they are taken as an interface. *)

Class CanteraBase : Type := {
  (** [tokenizeString(in, v)]: the tokens of an equation. *)
  tokenizeString : string → list string;
  (** [fpValueCheck(s)]: the double a numeral denotes; [None] when it throws. *)
  fpValueCheck : string → option float;
  Units : Type;
  (** [Units(1.0, 0, 0, -1)] *)
  Units_per_second : Units;
  UnitStack : Type;
  (** [UnitStack({})] *)
  UnitStack_empty : UnitStack;
  (** [UnitStack(const Units&)] *)
  UnitStack_of : Units → UnitStack;
  (** [stack.join(exponent)] *)
  UnitStack_join : UnitStack → float → UnitStack;
  (** [stack.update(units, exponent)] *)
  UnitStack_update : UnitStack → Units → float → UnitStack
}.

(** The input node ([AnyMap]): the keys that the functions below read, and
    the names of the other keys that the node holds, such as the parameters
    of the rate. *)
Record AnyMap : Type := mkAnyMap {
  node_equation : option string;
  node_type : option string;
  node_orders : option (gmap string float);
  node_id : option string;
  node_duplicate : option bool;
  node_negative_orders : option bool;
  node_nonreactant_orders : option bool;
  node_default_efficiency : option float;
  node_efficiencies : option (gmap string float);
  node_other_keys : list string
}.

Definition AnyMap_new : AnyMap :=
  mkAnyMap None None None None None None None None None [].

(** [node.empty()]: the node holds no key at all. *)
Definition AnyMap_is_empty (n : AnyMap) : bool :=
  match n with
  | mkAnyMap None None None None None None None None None [] => true
  | _ => false
  end.

(** The rate object, seen through [check]: the message it throws, if any. *)
Record ReactionRate : Type := mkReactionRate {
  rate_type : string;
  rate_check : option string
}.

Record ThirdBody : Type := mkThirdBody {
  default_efficiency : float;
  efficiencies : gmap string float;
  specified_collision_partner : bool;
  mass_action : bool
}.

(** [ThirdBody::ThirdBody(double default_eff = 1.0)] *)
Definition ThirdBody_new (default_eff : float) : ThirdBody :=
  mkThirdBody default_eff ∅ false true.

(** The dynamic class of a reaction object: it selects the overrides of
    [setEquation] and [setParameters]. *)
Inductive ReactionClass : Type :=
| ElementaryClass
| ThreeBodyClass
| FalloffClass
| CustomFunc1Class.

#[global] Instance ReactionClass_eq_dec : EqDecision ReactionClass.
Proof. solve_decision. Defined.

Record Reaction : Type := mkReaction {
  class : ReactionClass;
  reactants : gmap string float;
  products : gmap string float;
  orders : gmap string float;
  id : string;
  reversible : bool;
  duplicate : bool;
  allow_nonreactant_orders : bool;
  allow_negative_orders : bool;
  input : AnyMap;
  m_valid : bool;
  m_rate : option ReactionRate;
  m_third_body : option ThirdBody
}.

(** [Reaction::Reaction()] *)
Definition Reaction_new : Reaction :=
  mkReaction ElementaryClass ∅ ∅ ∅ "" true false false false AnyMap_new true None None.

(** [Reaction::Reaction(reactants_, products_, rate_)] *)
Definition Reaction_of (reactants_ products_ : gmap string float)
    (rate_ : option ReactionRate) : Reaction :=
  mkReaction ElementaryClass reactants_ products_ ∅ "" true false false false
    AnyMap_new true rate_ None.

(** Assignments to single members. *)
Definition set_class (c : ReactionClass) (R : Reaction) : Reaction :=
  mkReaction c (reactants R) (products R) (orders R) (id R) (reversible R)
    (duplicate R) (allow_nonreactant_orders R) (allow_negative_orders R)
    (input R) (m_valid R) (m_rate R) (m_third_body R).
Definition set_reactants (v : gmap string float) (R : Reaction) : Reaction :=
  mkReaction (class R) v (products R) (orders R) (id R) (reversible R)
    (duplicate R) (allow_nonreactant_orders R) (allow_negative_orders R)
    (input R) (m_valid R) (m_rate R) (m_third_body R).
Definition set_products (v : gmap string float) (R : Reaction) : Reaction :=
  mkReaction (class R) (reactants R) v (orders R) (id R) (reversible R)
    (duplicate R) (allow_nonreactant_orders R) (allow_negative_orders R)
    (input R) (m_valid R) (m_rate R) (m_third_body R).
Definition set_orders (v : gmap string float) (R : Reaction) : Reaction :=
  mkReaction (class R) (reactants R) (products R) v (id R) (reversible R)
    (duplicate R) (allow_nonreactant_orders R) (allow_negative_orders R)
    (input R) (m_valid R) (m_rate R) (m_third_body R).
Definition set_reversible (v : bool) (R : Reaction) : Reaction :=
  mkReaction (class R) (reactants R) (products R) (orders R) (id R) v
    (duplicate R) (allow_nonreactant_orders R) (allow_negative_orders R)
    (input R) (m_valid R) (m_rate R) (m_third_body R).
Definition set_input (v : AnyMap) (R : Reaction) : Reaction :=
  mkReaction (class R) (reactants R) (products R) (orders R) (id R) (reversible R)
    (duplicate R) (allow_nonreactant_orders R) (allow_negative_orders R)
    v (m_valid R) (m_rate R) (m_third_body R).
Definition set_flags (id_ : string) (duplicate_ negative_ nonreactant_ : bool)
    (R : Reaction) : Reaction :=
  mkReaction (class R) (reactants R) (products R) (orders R) id_ (reversible R)
    duplicate_ nonreactant_ negative_
    (input R) (m_valid R) (m_rate R) (m_third_body R).
Definition set_third_body (v : option ThirdBody) (R : Reaction) : Reaction :=
  mkReaction (class R) (reactants R) (products R) (orders R) (id R) (reversible R)
    (duplicate R) (allow_nonreactant_orders R) (allow_negative_orders R)
    (input R) (m_valid R) (m_rate R) v.

(** [Reaction::setValid] and [Reaction::valid] (declared in the header). *)
Definition setValid (valid : bool) (R : Reaction) : Reaction :=
  mkReaction (class R) (reactants R) (products R) (orders R) (id R) (reversible R)
    (duplicate R) (allow_nonreactant_orders R) (allow_negative_orders R)
    (input R) valid (m_rate R) (m_third_body R).
Definition valid (R : Reaction) : bool := m_valid R.

Section Mechanism.
Context `{!CanteraBase}.

(** A phase ([ThermoPhase], and [SurfPhase] for [site_size]).  The queries
    are total, as in the interface the specification lists; an unknown
    species has index [npos]. *)
Record ThermoPhase : Type := mkThermoPhase {
  nDim : Z;
  nElements : nat;
  elementName : nat → string;
  speciesIndex : string → Z;
  nAtoms : Z → nat → float;
  site_size : Z → float;
  standardConcentrationUnits : Units
}.

(** The governing mechanism ([Kinetics]). *)
Record Kinetics : Type := mkKinetics {
  kineticsSpeciesIndex : string → Z;
  speciesPhase : string → ThermoPhase;
  thermo : Z → ThermoPhase;
  reactionPhaseIndex : Z;
  surfacePhaseIndex : Z;
  skipUndeclaredSpecies : bool;
  skipUndeclaredThirdBodies : bool
}.

End Mechanism.

(** ** [Reaction::check] *)

(** A range-based [for] whose body either throws or continues. *)
Definition for_each {B : Type} (f : B → result unit) (l : list B) : result unit :=
  foldM (λ b _, f b) l ().

Definition check_nonreactant_orders (R : Reaction) : result unit :=
  if negb (allow_nonreactant_orders R) then
    for_each (λ order : string * float,
      if bool_decide (reactants R !! order.1 = None)
      then Throw (NonReactantOrder order.1)
      else Ok ()) (Composition.items (orders R))
  else Ok ().

Definition check_negative_orders (R : Reaction) : result unit :=
  if negb (allow_negative_orders R) then
    for_each (λ order : string * float,
      if PrimFloat.ltb order.2 0
      then Throw (NegativeOrder order.1)
      else Ok ()) (Composition.items (orders R))
  else Ok ().

Definition check_reversible_orders (R : Reaction) : result unit :=
  if reversible R && negb (bool_decide (orders R = ∅))
  then Throw OrdersOnReversible
  else Ok ().

(** The three order tests of [Reaction::check], in the order of the code. *)
Definition check_orders (R : Reaction) : result unit :=
  _ ← check_nonreactant_orders R;
  _ ← check_negative_orders R;
  check_reversible_orders R.

(** [m_rate->check(equation(), input)]; a null [m_rate] is dereferenced. *)
Definition check_rate (R : Reaction) : result unit :=
  match m_rate R with
  | None => Throw UndefinedBehaviour
  | Some rate =>
      match rate_check rate with
      | Some msg => Throw (RateCheckFailed msg)
      | None => Ok ()
      end
  end.

Definition check (R : Reaction) : result unit :=
  _ ← check_orders R;
  check_rate R.

Section Checks.
Context `{!CanteraBase}.

(** ** [updateUndeclared], [Reaction::undeclaredThirdBodies] *)

Definition updateUndeclared (undeclared : list string) (comp : gmap string float)
    (kin : Kinetics) : list string :=
  fold_left (λ undeclared (sp : string * float),
    if kineticsSpeciesIndex kin sp.1 =? npos
    then undeclared ++ [sp.1]
    else undeclared) (Composition.items comp) undeclared.

Definition undeclaredThirdBodies (R : Reaction) (kin : Kinetics) : list string * bool :=
  match m_third_body R with
  | Some tb =>
      (updateUndeclared [] (efficiencies tb) kin, specified_collision_partner tb)
  | None => ([], false)
  end.

(** ** [Reaction::checkBalance] *)

(** The inner loop over the elements of the phase of a product species. *)
Definition balance_product (ph : ThermoPhase) (k : Z) (stoich : float)
    (bal : gmap string float * gmap string float)
    : gmap string float * gmap string float :=
  fold_left (λ '(balr, balp) m,
    (<[elementName ph m := 0%float]> balr,
     Composition.add balp (elementName ph m) (PrimFloat.mul stoich (nAtoms ph k m))))
    (seq 0 (nElements ph)) bal.

(** The inner loop over the elements of the phase of a reactant species. *)
Definition balance_reactant (ph : ThermoPhase) (k : Z) (stoich : float)
    (balr : gmap string float) : gmap string float :=
  fold_left (λ balr m,
    Composition.add balr (elementName ph m) (PrimFloat.mul stoich (nAtoms ph k m)))
    (seq 0 (nElements ph)) balr.

(** [balr] and [balp] after the two loops over products and reactants. *)
Definition element_totals (R : Reaction) (kin : Kinetics)
    : gmap string float * gmap string float :=
  let '(balr, balp) :=
    fold_left (λ bal (sp : string * float),
      let ph := speciesPhase kin sp.1 in
      balance_product ph (speciesIndex ph sp.1) sp.2 bal)
      (Composition.items (products R)) (∅, ∅) in
  let balr :=
    fold_left (λ balr (sp : string * float),
      let ph := speciesPhase kin sp.1 in
      balance_reactant ph (speciesIndex ph sp.1) sp.2 balr)
      (Composition.items (reactants R)) balr in
  (balr, balp).

(** The test applied to one element:
    [elemsum > 0.0 && elemdiff / elemsum > 1e-4]. *)
Definition element_unbalanced (balr balp : gmap string float) (elem : string) : bool :=
  let elemsum := PrimFloat.add (Composition.at_default balr elem)
                               (Composition.at_default balp elem) in
  let elemdiff := Double.fabs (PrimFloat.sub (Composition.at_default balp elem)
                                             (Composition.at_default balr elem)) in
  Double.gtb elemsum 0 && Double.gtb (PrimFloat.div elemdiff elemsum) 1e-4.

(** The rows appended to [msg], one per offending element. *)
Definition unbalanced_rows (balr balp : gmap string float)
    : list (string * float * float) :=
  fold_left (λ msg (el : string * float),
    if element_unbalanced balr balp el.1
    then msg ++ [(el.1, Composition.at_default balr el.1,
                        Composition.at_default balp el.1)]
    else msg) (Composition.items balr) [].

(** [reac_sites] and [prod_sites]: the occupancy of the species that the
    surface phase knows. *)
Definition site_total (surf : ThermoPhase) (comp : gmap string float) : float :=
  fold_left (λ sites (sp : string * float),
    let k := speciesIndex surf sp.1 in
    if negb (k =? npos)
    then PrimFloat.add sites (PrimFloat.mul sp.2 (site_size surf k))
    else sites) (Composition.items comp) 0%float.

Definition sites_unbalanced (reac_sites prod_sites : float) : bool :=
  Double.gtb (Double.fabs (PrimFloat.sub reac_sites prod_sites))
             (PrimFloat.mul 1e-5 (PrimFloat.add reac_sites prod_sites)).

Definition checkBalance (R : Reaction) (kin : Kinetics) : result unit :=
  let '(balr, balp) := element_totals R kin in
  let msg := unbalanced_rows balr balp in
  (* [ok] is false exactly when a row was appended *)
  if negb (bool_decide (msg = [])) then Throw (Unbalanced msg)
  else if nDim (thermo kin (reactionPhaseIndex kin)) =? 3 then Ok ()
  else
    let surf := thermo kin (surfacePhaseIndex kin) in
    let reac_sites := site_total surf (reactants R) in
    let prod_sites := site_total surf (products R) in
    if sites_unbalanced reac_sites prod_sites
    then Throw (SitesUnbalanced reac_sites prod_sites)
    else Ok ().

(** ** [Reaction::checkSpecies] *)

Definition checkSpecies (R : Reaction) (kin : Kinetics) : result bool :=
  let undeclared := updateUndeclared [] (reactants R) kin in
  let undeclared := updateUndeclared undeclared (products R) kin in
  if negb (bool_decide (undeclared = [])) then
    if skipUndeclaredSpecies kin then Ok false
    else Throw (UndeclaredSpecies undeclared)
  else
  let undeclared := updateUndeclared [] (orders R) kin in
  if negb (bool_decide (undeclared = [])) then
    if skipUndeclaredSpecies kin then Ok false
    else Throw (UndeclaredOrderSpecies undeclared
                  (bool_decide (is_Some (node_orders (input R)))))
  else
  let third := undeclaredThirdBodies R kin in
  let undeclared := third.1 in
  let specified_collision_partner_ := third.2 in
  if negb (bool_decide (undeclared = []))
     && negb (skipUndeclaredThirdBodies kin) then
    Throw (UndeclaredThirdBodies undeclared
             (bool_decide (is_Some (node_efficiencies (input R)))))
  else if negb (bool_decide (undeclared = []))
          && skipUndeclaredSpecies kin && specified_collision_partner_ then
    Ok false
  else
    _ ← checkBalance R kin;
    Ok true.

(** ** [Reaction::calculateRateCoeffUnits] *)

Definition calculateRateCoeffUnits (R : Reaction) (kin : Kinetics) : UnitStack :=
  if negb (valid R) then UnitStack_empty
  else
    let rxn_phase := thermo kin (reactionPhaseIndex kin) in
    let rate_units := UnitStack_of (standardConcentrationUnits rxn_phase) in
    let rate_units := UnitStack_join rate_units 1 in
    let rate_units := UnitStack_update rate_units Units_per_second 1 in
    let rate_units :=
      fold_left (λ rate_units (order : string * float),
        let phase := speciesPhase kin order.1 in
        UnitStack_update rate_units (standardConcentrationUnits phase)
          (PrimFloat.opp order.2)) (Composition.items (orders R)) rate_units in
    let rate_units :=
      fold_left (λ rate_units (stoich : string * float),
        if String.eqb stoich.1 "M" || starts_with stoich.1 "(+" then rate_units
        else if bool_decide (orders R !! stoich.1 = None) then
          let phase := speciesPhase kin stoich.1 in
          UnitStack_update rate_units (standardConcentrationUnits phase)
            (PrimFloat.opp stoich.2)
        else rate_units) (Composition.items (reactants R)) rate_units in
    if bool_decide (is_Some (m_third_body R))
    then UnitStack_join rate_units (-1)
    else rate_units.

End Checks.

(** ** [parseReactionEquation] *)

Section Parser.
Context `{!CanteraBase}.

(** [tokens[i]] *)
Definition token_at (tokens : list string) (i : Z) : string :=
  default "" (tokens !! Z.to_nat i).

(** The test that completes a species term at token [i]. *)
Definition completes_term (tok : string) : bool :=
  String.eqb tok "+" || starts_with tok "(+" ||
  String.eqb tok "<=>" || String.eqb tok "=" || String.eqb tok "=>".

(** The local variables of the loop: the reaction being filled, [last_used]
    and the flag [reactants]. *)
Record ParseState : Type := mkParseState {
  ps_R : Reaction;
  ps_last_used : Z;
  ps_reactants : bool
}.

(** The species name and coefficient of the term that ends at token [i]. *)
Definition term_at (tokens : list string) (last_used i : Z) : result (string * float) :=
  let species := token_at tokens (i - 1) in
  if (if last_used =? npos then false
      else String.eqb (token_at tokens last_used) "(+") then
    (* Falloff third body with space, such as "(+ M)" *)
    Ok (String.append "(+" species, (-1)%float)
  else if (last_used =? size_sub i 1) && starts_with species "(+"
          && ends_with species ")" then
    (* Falloff 3rd body written without space, such as "(+M)" *)
    Ok (species, (-1)%float)
  else if last_used =? size_sub i 2 then
    (* Species with no stoich. coefficient *)
    Ok (species, 1%float)
  else if last_used =? size_sub i 3 then
    (* Stoich. coefficient and species *)
    match fpValueCheck (token_at tokens (i - 2)) with
    | Some stoich => Ok (species, stoich)
    | None => Throw (NotANumber (token_at tokens (i - 2)))
    end
  else
    Throw (ParseError (token_at tokens i)
             (if last_used =? npos then "n/a" else token_at tokens last_used)).

(** [!kin || (kin->kineticsSpeciesIndex(species) == npos && stoich != -1
             && species != "M")] *)
Definition term_invalidates (kin : option Kinetics) (species : string)
    (stoich : float) : bool :=
  match kin with
  | None => true
  | Some kin =>
      (kineticsSpeciesIndex kin species =? npos)
      && Double.neqb stoich (-1) && negb (String.eqb species "M")
  end.

(** The effect of a term on the reaction: the validity flag, then
    [R.reactants[species] += stoich] or [R.products[species] += stoich]. *)
Definition add_term (kin : option Kinetics) (species : string) (stoich : float)
    (on_reactants : bool) (R : Reaction) : Reaction :=
  let R := if term_invalidates kin species stoich then setValid false R else R in
  if on_reactants
  then set_reactants (Composition.add (reactants R) species stoich) R
  else set_products (Composition.add (products R) species stoich) R.

(** The first half of the loop body: record the term ending at token [i]. *)
Definition record_term (tokens : list string) (kin : option Kinetics) (i : Z)
    (st : ParseState) : result ParseState :=
  '(species, stoich) ← term_at tokens (ps_last_used st) i;
  Ok (mkParseState (add_term kin species stoich (ps_reactants st) (ps_R st))
        i (ps_reactants st)).

(** The second half: tokens after a separator belong to the products. *)
Definition switch_side (tok : string) (st : ParseState) : ParseState :=
  if String.eqb tok "<=>" || String.eqb tok "=" then
    mkParseState (set_reversible true (ps_R st)) (ps_last_used st) false
  else if String.eqb tok "=>" then
    mkParseState (set_reversible false (ps_R st)) (ps_last_used st) false
  else st.

(** One iteration of the loop over [i]. *)
Definition parse_iteration (tokens : list string) (kin : option Kinetics)
    (i : nat) (st : ParseState) : result ParseState :=
  let tok := token_at tokens (Z.of_nat i) in
  st ← (if completes_term tok then record_term tokens kin (Z.of_nat i) st else Ok st);
  Ok (switch_side tok st).

(** The loop [for (size_t i = 1; i < tokens.size(); i++)] over a token
    vector that already ends with the appended "+". *)
Definition parse_tokens (R : Reaction) (tokens : list string)
    (kin : option Kinetics) : result Reaction :=
  st ← foldM (parse_iteration tokens kin) (seq 1 (length tokens - 1))
         (mkParseState R npos true);
  Ok (ps_R st).

Definition parseReactionEquation (R : Reaction) (equation : string)
    (kin : option Kinetics) : result Reaction :=
  parse_tokens R (tokenizeString equation ++ ["+"]) kin.

(** [Reaction::setEquation] *)
Definition Reaction_setEquation (R : Reaction) (equation : string)
    (kin : option Kinetics) : result Reaction :=
  parseReactionEquation R equation kin.

(** ** [ThirdBody::setEfficiencies] *)

Definition setEfficiencies (tb : ThirdBody) (node : AnyMap) : ThirdBody :=
  mkThirdBody
    (default 1%float (node_default_efficiency node))
    (match node_efficiencies node with
     | Some eff => eff
     | None => efficiencies tb
     end)
    (specified_collision_partner tb) (mass_action tb).

(** ** [ThreeBodyReaction] *)

(** [ThreeBodyReaction::ThreeBodyReaction()], without the rate. *)
Definition ThreeBodyReaction_new : Reaction :=
  set_third_body (Some (ThirdBody_new 1)) (set_class ThreeBodyClass Reaction_new).

(** The loop that marks every reactant found among the products. *)
Definition detect_partners (R : Reaction) (eff : gmap string float) : gmap string float :=
  fold_left (λ eff (reac : string * float),
    if negb (Composition.count (products R) reac.1 =? 0)
    then <[reac.1 := 1%float]> eff
    else eff) (Composition.items (reactants R)) eff.

(** The adjustment of one side: [find], then decrement or erase.  When the
    species is absent, [find] returns [end()], which the code dereferences. *)
Definition adjust_coefficient (comp : gmap string float) (sp : string)
    : result (gmap string float) :=
  match comp !! sp with
  | None => Throw UndefinedBehaviour
  | Some c =>
      if Double.neqb (Double.trunc c) 1
      then Ok (<[sp := PrimFloat.sub c 1]> comp)
      else Ok (delete sp comp)
  end.

(** [ThreeBodyReaction::detectEfficiencies]: the returned flag and the
    reaction after the call.  [efficiencies.begin()] is the first entry in
    key order; the size tests are read off the same list. *)
Definition detectEfficiencies (R : Reaction) : result (bool * Reaction) :=
  match m_third_body R with
  | None => Throw UndefinedBehaviour
  | Some tb =>
      let eff := detect_partners R (efficiencies tb) in
      match Composition.items eff with
      | [] => Ok (false, R)
      | [sp] =>
          let tb := mkThirdBody 0 eff true (mass_action tb) in
          reac ← adjust_coefficient (reactants R) sp.1;
          prod ← adjust_coefficient (products R) sp.1;
          Ok (true, set_third_body (Some tb) (set_products prod (set_reactants reac R)))
      | _ => Throw MultipleCollisionPartners
      end
  end.

Definition ThreeBodyReaction_setEquation (R : Reaction) (equation : string)
    (kin : option Kinetics) : result Reaction :=
  R ← Reaction_setEquation R equation kin;
  if negb (Composition.count (reactants R) "M" =? 1)
     || negb (Composition.count (products R) "M" =? 1) then
    '(found, R) ← detectEfficiencies R;
    if negb found then Throw MissingThirdBodyM else Ok R
  else
    Ok (set_products (delete "M" (products R))
          (set_reactants (delete "M" (reactants R)) R)).

(** ** [FalloffReaction] *)

(** [FalloffReaction::FalloffReaction()], without the rate. *)
Definition FalloffReaction_new : Reaction :=
  set_third_body (Some (mkThirdBody 1 ∅ false false))
    (set_class FalloffClass Reaction_new).

(** The search loop: the first reactant, in key order, with coefficient -1
    and a name that starts with "(+". *)
Definition find_falloff_term (R : Reaction) : option (string * float) :=
  List.find (λ reactant : string * float,
    PrimFloat.eqb reactant.2 (-1) && starts_with reactant.1 "(+")
    (Composition.items (reactants R)).

(** [third_body_str.substr(2, third_body_str.size() - 3)] *)
Definition interior_name (third_body_str : string) : string :=
  substr third_body_str 2 (size_sub (Z.of_nat (String.length third_body_str)) 3).

Definition FalloffReaction_setEquation (R : Reaction) (equation : string)
    (kin : option Kinetics) : result Reaction :=
  R ← Reaction_setEquation R equation kin;
  let '(third_body_str, third_body) :=
    match find_falloff_term R with
    | Some reactant => (reactant.1, interior_name reactant.1)
    | None => ("", "")
    end in
  if String.eqb third_body_str "" then Throw FalloffNoThirdBody
  else if Composition.count (products R) third_body_str =? 0 then
    Throw (FalloffUnmatchedThirdBody third_body)
  else
    let R := set_reactants (delete third_body_str (reactants R)) R in
    let R := set_products (delete third_body_str (products R)) R in
    match m_third_body R with
    | None => Throw UndefinedBehaviour
    | Some tb =>
        if String.eqb third_body "M" then
          Ok (set_third_body
                (Some (mkThirdBody (default_efficiency tb) (efficiencies tb)
                         false (mass_action tb))) R)
        else
          Ok (set_third_body
                (Some (mkThirdBody 0
                         (Composition.emplace (efficiencies tb) third_body 1%float)
                         true (mass_action tb))) R)
    end.

(** ** Virtual dispatch of [setEquation], and [setParameters] *)

Definition setEquation (R : Reaction) (equation : string)
    (kin : option Kinetics) : result Reaction :=
  match class R with
  | ThreeBodyClass => ThreeBodyReaction_setEquation R equation kin
  | FalloffClass => FalloffReaction_setEquation R equation kin
  | _ => Reaction_setEquation R equation kin
  end.

(** The loop over [node["orders"]]. *)
Definition set_node_orders (R : Reaction) (node_orders : gmap string float)
    (kin : Kinetics) : Reaction :=
  fold_left (λ R (order : string * float),
    let R := set_orders (<[order.1 := order.2]> (orders R)) R in
    if kineticsSpeciesIndex kin order.1 =? npos then setValid false R else R)
    (Composition.items node_orders) R.

Definition Reaction_setParameters (R : Reaction) (node : AnyMap)
    (kin : Kinetics) : result Reaction :=
  if AnyMap_is_empty node then Ok R
  else
    let R := set_input node R in
    equation ← match node_equation node with
               | Some e => Ok e
               | None => Throw (MissingKey "equation")
               end;
    R ← setEquation R equation (Some kin);
    let R := match node_orders node with
             | Some os => set_node_orders R os kin
             | None => R
             end in
    Ok (set_flags (default "" (node_id node))
          (default false (node_duplicate node))
          (default false (node_negative_orders node))
          (default false (node_nonreactant_orders node)) R).

(** The tail shared by [ThreeBodyReaction::setParameters] and
    [FalloffReaction::setParameters]. *)
Definition set_node_efficiencies (R : Reaction) (node : AnyMap) : result Reaction :=
  match m_third_body R with
  | None => Throw UndefinedBehaviour
  | Some tb =>
      if negb (specified_collision_partner tb)
      then Ok (set_third_body (Some (setEfficiencies tb node)) R)
      else Ok R
  end.

Definition ThreeBodyReaction_setParameters (R : Reaction) (node : AnyMap)
    (kin : Kinetics) : result Reaction :=
  if AnyMap_is_empty node then Ok R
  else
    R ← Reaction_setParameters R node kin;
    set_node_efficiencies R node.

Definition FalloffReaction_setParameters (R : Reaction) (node : AnyMap)
    (kin : Kinetics) : result Reaction :=
  if AnyMap_is_empty node then Ok R
  else
    R ← Reaction_setParameters R node kin;
    set_node_efficiencies R node.

Definition setParameters (R : Reaction) (node : AnyMap) (kin : Kinetics)
    : result Reaction :=
  match class R with
  | ThreeBodyClass => ThreeBodyReaction_setParameters R node kin
  | FalloffClass => FalloffReaction_setParameters R node kin
  | _ => Reaction_setParameters R node kin
  end.

End Parser.

(** ** [isThreeBody] *)

(** The first loop: the number of reactants that are also products, with
    integer coefficients on both sides.  The counter is bounded by
    [reactants.size()] and cannot wrap. *)
Definition count_candidates (R : Reaction) : nat :=
  fold_left (λ found (reac : string * float),
    match products R !! reac.1 with
    | Some prod =>
        if Double.is_integral reac.2 && Double.is_integral prod
        then S found else found
    | None => found
    end) (Composition.items (reactants R)) 0%nat.

(** The second and third loops: [Ok None] is the early [return false],
    [Ok (Some n)] the count at the end of the loop; a conversion that the
    language leaves undefined ends the evaluation. *)
Fixpoint count_species (side : list (string * float)) (n : Z) : result (option Z) :=
  match side with
  | [] => Ok (Some n)
  | sp :: side' =>
      if Double.neqb (Double.trunc sp.2) sp.2 then Ok None
      else
        match Double.to_size_t sp.2 with
        | Some k => count_species side' (size_add n k)
        | None => Throw UndefinedBehaviour
        end
  end.

Definition isThreeBody (R : Reaction) : result bool :=
  if negb (count_candidates R =? 1)%nat then Ok false
  else
    nreac ← count_species (Composition.items (reactants R)) 0;
    match nreac with
    | None => Ok false
    | Some nreac =>
        nprod ← count_species (Composition.items (products R)) 0;
        match nprod with
        | None => Ok false
        | Some nprod => Ok ((nreac =? 3) || (nprod =? 3))
        end
    end.

(** ** [ThirdBody::efficiency] *)

(** Modelled from the spec: [getValue] is defined in [base/utilities.h],
    which is not part of the sources at hand; the specification has the
    efficiencies map species to collision efficiencies that override the
    default.  [getValue(m, k, default_val)] is the value mapped to [k], or
    [default_val] when the map has no entry for [k]. *)
Definition getValue (m : gmap string float) (k : string) (default_val : float)
    : float :=
  default default_val (m !! k).

Definition efficiency (tb : ThirdBody) (k : string) : float :=
  getValue (efficiencies tb) k (default_efficiency tb).

(** ** [newReaction]: the type handed to the factory *)

Section Classification.
Context `{!CanteraBase}.

(** The local variable [type] of [newReaction(rxn_node, kin)] when the
    factory is consulted: the type given by the node, or the one inferred
    from the equation on a three-dimensional reaction phase.
    [rxn_node["equation"]] on a node without that key throws. *)
Definition newReaction_type (rxn_node : AnyMap) (kin : Kinetics) : result string :=
  let nDim := nDim (thermo kin (reactionPhaseIndex kin)) in
  match node_type rxn_node with
  | Some ty => Ok ty
  | None =>
      if nDim =? 3 then
        (* Reaction type is not specified *)
        equation ← match node_equation rxn_node with
                   | Some e => Ok e
                   | None => Throw (MissingKey "equation")
                   end;
        testReaction ← parseReactionEquation Reaction_new equation (Some kin);
        three_body ← isThreeBody testReaction;
        Ok (if (three_body : bool) then "three-body" else "elementary")
      else Ok "elementary"
  end.

End Classification.

(** ** [Reaction::usesElectrochemistry] *)

(** The queries the function makes on charges: [Kinetics::nPhases],
    [Kinetics::speciesPhaseIndex] and, for the phase with a given index,
    [ThermoPhase::charge]. *)
Record PhaseCharges : Type := mkPhaseCharges {
  nPhases : Z;
  speciesPhaseIndex : Z → Z;
  charge : Z → Z → float
}.

(** [e_counter[i] += x] and [e_counter[i] -= x], with [op] the addition or
    the subtraction; [operator[]] does not check the index [i], a
    [size_t]. *)
Definition update_counter (op : float → float → float) (e_counter : list float)
    (i : Z) (x : float) : result (list float) :=
  if i <? Z.of_nat (length e_counter) then
    Ok (alter (λ e, op e x) (Z.to_nat i) e_counter)
  else Throw UndefinedBehaviour.

Section Electrochemistry.
Context `{!CanteraBase}.

(** One of the two loops over a side of the reaction. *)
Definition count_electrons (op : float → float → float) (kin : Kinetics)
    (ch : PhaseCharges) (comp : gmap string float) (e_counter : list float)
    : result (list float) :=
  foldM (λ (sp : string * float) e_counter,
    let kkin := kineticsSpeciesIndex kin sp.1 in
    let i := speciesPhaseIndex ch kkin in
    let kphase := speciesIndex (thermo kin i) sp.1 in
    update_counter op e_counter i (PrimFloat.mul sp.2 (charge ch i kphase)))
    (Composition.items comp) e_counter.

Definition usesElectrochemistry (R : Reaction) (kin : Kinetics) (ch : PhaseCharges)
    : result bool :=
  let e_counter := replicate (Z.to_nat (nPhases ch)) 0%float in
  (* Find the number of electrons in the products for each phase *)
  e_counter ← count_electrons PrimFloat.add kin ch (products R) e_counter;
  (* Subtract the number of electrons in the reactants for each phase *)
  e_counter ← count_electrons PrimFloat.sub kin ch (reactants R) e_counter;
  (* If the electrons change phases then the reaction is electrochemical *)
  Ok (existsb (λ delta_e, Double.gtb (Double.fabs delta_e) 1e-4) e_counter).

End Electrochemistry.

(** ** [Reaction::equation] and the strings of the two sides *)

Section Rendering.

(** The text that [operator<<] writes for a double. *)
Variable show_double : float → string.

(** One pass of the loop of [Reaction::reactantString]: [at_begin] is
    [iter == begin()]. *)
Definition write_term (result : string) (at_begin : bool) (iter : string * float)
    : string :=
  let result := if negb at_begin then String.append result " + " else result in
  let result :=
    if Double.neqb iter.2 1
    then String.append (String.append result (show_double iter.2)) " "
    else result in
  String.append result iter.1.

Definition write_composition (comp : gmap string float) : string :=
  match Composition.items comp with
  | [] => ""
  | first :: rest =>
      fold_left (λ result iter, write_term result false iter) rest
        (write_term "" true first)
  end.

(** [Reaction::reactantString], [Reaction::productString] *)
Definition Reaction_reactantString (R : Reaction) : string :=
  write_composition (reactants R).
Definition Reaction_productString (R : Reaction) : string :=
  write_composition (products R).

(** [m_third_body->efficiencies.begin()->first] *)
Definition first_efficiency (tb : ThirdBody) : result string :=
  match Composition.items (efficiencies tb) with
  | [] => Throw UndefinedBehaviour
  | sp :: _ => Ok sp.1
  end.

(** [ThreeBodyReaction::reactantString] and [productString], on the string
    [base] that the function of the base class returns. *)
Definition ThreeBodyReaction_sideString (R : Reaction) (base : string)
    : result string :=
  match m_third_body R with
  | None => Throw UndefinedBehaviour
  | Some tb =>
      if specified_collision_partner tb then
        name ← first_efficiency tb;
        Ok (String.append (String.append base " + ") name)
      else Ok (String.append base " + M")
  end.

(** [FalloffReaction::reactantString] and [productString]. *)
Definition FalloffReaction_sideString (R : Reaction) (base : string)
    : result string :=
  match m_third_body R with
  | None => Throw UndefinedBehaviour
  | Some tb =>
      if specified_collision_partner tb then
        name ← first_efficiency tb;
        Ok (String.append (String.append (String.append base " (+") name) ")")
      else Ok (String.append base " (+M)")
  end.

(** [reactantString] and [productString] as [Reaction::equation] calls
    them: the override of the dynamic class, as for [setEquation]. *)
Definition sideString (R : Reaction) (base : string) : result string :=
  match class R with
  | ThreeBodyClass => ThreeBodyReaction_sideString R base
  | FalloffClass => FalloffReaction_sideString R base
  | _ => Ok base
  end.

Definition reactantString (R : Reaction) : result string :=
  sideString R (Reaction_reactantString R).
Definition productString (R : Reaction) : result string :=
  sideString R (Reaction_productString R).

(** [Reaction::equation] *)
Definition Reaction_equation (R : Reaction) : result string :=
  r ← reactantString R;
  p ← productString R;
  if reversible R
  then Ok (String.append (String.append r " <=> ") p)
  else Ok (String.append (String.append r " => ") p).

End Rendering.

(** ** A concrete instance of the collaborators

    Used to run the functions above on concrete equations and mechanisms. *)

Module Model.

(** [ba::is_space] in the classic locale. *)
Definition is_space (c : ascii) : bool :=
  let n := N_of_ascii c in
  (n =? 32)%N || ((9 <=? n)%N && (n <=? 13)%N).

(** Modelled from the spec: [tokenizeString] is defined in
    [base/stringUtils.cpp], which is not part of the sources at hand; the
    specification has the equation split into whitespace-delimited tokens.
    [cur] is the token being read. *)
Fixpoint split_tokens (s cur : string) : list string :=
  match s with
  | EmptyString => if String.eqb cur "" then [] else [cur]
  | String c s' =>
      if is_space c
      then (if String.eqb cur "" then split_tokens s' ""
            else cur :: split_tokens s' "")
      else split_tokens s' (String.append cur (String c EmptyString))
  end.

Definition tokenize (s : string) : list string := split_tokens s "".

Definition digit_of (c : ascii) : option Z :=
  let n := Z.of_N (N_of_ascii c) in
  if (48 <=? n) && (n <=? 57) then Some (n - 48) else None.

(** The digits of [s] read as a decimal number, with the count of digits
    after the point: [acc] is the number so far, [frac] the count ([None]
    before the point). *)
Fixpoint read_decimal (s : string) (acc : Z) (frac : option Z) : option (Z * Z) :=
  match s with
  | EmptyString => Some (acc, default 0 frac)
  | String c s' =>
      if Ascii.eqb c "."%char then
        match frac with
        | None => read_decimal s' acc (Some 0)
        | Some _ => None
        end
      else
        match digit_of c with
        | Some d => read_decimal s' (10 * acc + d) (Z.succ <$> frac)
        | None => None
        end
  end.

(** Modelled from the spec: [fpValueCheck] is defined in
    [base/stringUtils.cpp]; the specification has it parse a numeral and
    fail on anything else.  This instance reads unsigned decimal numerals
    without exponent, for which one correctly rounded division of two
    exactly represented integers gives the nearest double; numerals beyond
    that range are outside the instance. *)
Definition parse_double (s : string) : option float :=
  match s with
  | EmptyString => None
  | _ =>
      match read_decimal s 0 None with
      | Some (n, k) =>
          if (n <? 2 ^ 53) && (k <=? 22)
          then Some (PrimFloat.div (PrimFloat.of_uint63 (Uint63.of_Z n))
                                   (PrimFloat.of_uint63 (Uint63.of_Z (10 ^ k))))
          else None
      | None => None
      end
  end.

(** Modelled from the spec: [Units] and [UnitStack] are declared in
    [base/Units.h], which is not part of the sources at hand; the
    specification describes a layered stack of units with their exponents.
    Here a unit is its printed name and a stack the list of its layers;
    [join] adds to the exponent of the first layer, [update] to the
    exponent of the layer of the given unit, or appends a new layer. *)
Definition stack_join (st : list (string * float)) (exponent : float)
    : list (string * float) :=
  match st with
  | [] => []
  | (u, e) :: st' => (u, PrimFloat.add e exponent) :: st'
  end.

Fixpoint stack_update (st : list (string * float)) (u : string) (exponent : float)
    : list (string * float) :=
  match st with
  | [] => [(u, exponent)]
  | (u', e) :: st' =>
      if String.eqb u' u then (u', PrimFloat.add e exponent) :: st'
      else (u', e) :: stack_update st' u exponent
  end.

#[local] Instance base : CanteraBase := {|
  tokenizeString := tokenize;
  fpValueCheck := parse_double;
  Units := string;
  Units_per_second := "1/s";
  UnitStack := list (string * float);
  UnitStack_empty := [];
  UnitStack_of := λ u, [(u, 0%float)];
  UnitStack_join := stack_join;
  UnitStack_update := stack_update
|}.

(** A gas phase over the elements H, O and Ar. *)
Definition gas_species : list (string * (Z * list float)) :=
  [ ("H",   (0, [1; 0; 0]%float));
    ("H2",  (1, [2; 0; 0]%float));
    ("O2",  (2, [0; 2; 0]%float));
    ("HO2", (3, [1; 2; 0]%float));
    ("H2O", (4, [2; 1; 0]%float));
    ("AR",  (5, [0; 0; 1]%float)) ].

Definition gas_index (name : string) : Z :=
  match List.find (λ sp : string * (Z * list float), String.eqb sp.1 name) gas_species with
  | Some sp => sp.2.1
  | None => npos
  end.

Definition gas_atoms (k : Z) (m : nat) : float :=
  match List.find (λ sp : string * (Z * list float), sp.2.1 =? k) gas_species with
  | Some sp => default 0%float (sp.2.2 !! m)
  | None => 0%float
  end.

Definition gas : ThermoPhase :=
  mkThermoPhase 3 3 (λ m, default "" (["H"; "O"; "Ar"] !! m))
    gas_index gas_atoms (λ _, 0%float) "kmol/m^3".

(** A mechanism with the single phase [gas]; the two policies are given. *)
Definition gas_kinetics (skip_species skip_third_bodies : bool) : Kinetics :=
  mkKinetics gas_index (λ _, gas) (λ _, gas) 0 npos skip_species skip_third_bodies.







End Model.

(** * The vocabulary of the statements *)

(** ** Reaction orders, species and sides *)

(** An order is given for a species that is not a reactant. *)
Definition has_nonreactant_order (R : Reaction) : Prop :=
  ∃ k v, orders R !! k = Some v ∧ reactants R !! k = None.

(** An order is negative ([order < 0.0]). *)
Definition has_negative_order (R : Reaction) : Prop :=
  ∃ k v, orders R !! k = Some v ∧ PrimFloat.ltb v 0 = true.

Definition orders_invalid (R : Reaction) : Prop :=
  (allow_nonreactant_orders R = false ∧ has_nonreactant_order R)
  ∨ (allow_negative_orders R = false ∧ has_negative_order R)
  ∨ (reversible R = true ∧ orders R ≠ ∅).

(** The errors raised by the order tests. *)
Definition is_order_error (e : CanteraError) : Prop :=
  match e with
  | NonReactantOrder _ | NegativeOrder _ | OrdersOnReversible => True
  | _ => False
  end.

(** The generic symbol and the falloff brackets, which are no true reactants. *)
Definition is_pseudo_species (name : string) : bool :=
  String.eqb name "M" || starts_with name "(+".


(** A species that appears among the reactants and among the products. *)
Definition on_both_sides (R : Reaction) (k : string) : Prop :=
  is_Some (reactants R !! k) ∧ is_Some (products R !! k).

#[global] Instance on_both_sides_dec (R : Reaction) (k : string) :
  Decision (on_both_sides R k).
Proof. unfold on_both_sides. apply _. Defined.

(** When a collision partner is specified, it is the single entry of the
    efficiency map, with efficiency 1.0, and the default efficiency is 0. *)
Definition partner_invariant (tb : ThirdBody) : Prop :=
  specified_collision_partner tb = true →
  (∃ k, efficiencies tb = {[k := 1%float]}) ∧ default_efficiency tb = 0%float.

Definition third_body_invariant (R : Reaction) : Prop :=
  ∀ tb, m_third_body R = Some tb → partner_invariant tb.

(** The efficiency map of the reaction's third body is empty. *)
Definition no_efficiencies (R : Reaction) : Prop :=
  ∀ tb, m_third_body R = Some tb → efficiencies tb = ∅.

(** A reactant that is also a product, with integer coefficients on both
    sides: the candidates counted by the first loop. *)
Definition candidate (R : Reaction) (k : string) : Prop :=
  ∃ r p, reactants R !! k = Some r ∧ products R !! k = Some p
         ∧ Double.is_integral r = true ∧ Double.is_integral p = true.

Definition exactly_one (P : string → Prop) : Prop :=
  ∃ k, P k ∧ ∀ k', P k' → k' = k.

(** Every coefficient of the side is an integer. *)
Definition all_integral (comp : gmap string float) : Prop :=
  ∀ k c, comp !! k = Some c → Double.is_integral c = true.

(** The sum of the coefficients of a side, as integers. *)
Definition stoich_count (comp : gmap string float) : Z :=
  foldr (λ (sp : string * float) acc, default 0 (Double.to_Z sp.2) + acc) 0
    (Composition.items comp).

(** The conversions to [size_t] made by [isThreeBody] are defined: every
    integer coefficient lies in [0, 2^64). *)
Definition counts_representable (R : Reaction) : Prop :=
  ∀ k c, reactants R !! k = Some c ∨ products R !! k = Some c →
         Double.is_integral c = true → is_Some (Double.to_size_t c).

Definition is_candidate (R : Reaction) (reac : string * float) : bool :=
  match products R !! reac.1 with
  | Some prod => Double.is_integral reac.2 && Double.is_integral prod
  | None => false
  end.

Section Vocabulary.
Context `{!CanteraBase}.




(** The description of the specification, for comparison with the code: one
    factor per explicit order, the standard-concentration unit of the
    species' phase with the order negated ... *)
Definition order_factors (R : Reaction) (kin : Kinetics) : list (Units * float) :=
  List.map (λ order : string * float,
    (standardConcentrationUnits (speciesPhase kin order.1), PrimFloat.opp order.2))
    (Composition.items (orders R)).

(** ... and one factor per reactant that is neither a pseudo-species nor
    covered by an explicit order, with its coefficient negated. *)
Definition reactant_factors (R : Reaction) (kin : Kinetics) : list (Units * float) :=
  List.map (λ stoich : string * float,
    (standardConcentrationUnits (speciesPhase kin stoich.1), PrimFloat.opp stoich.2))
    (List.filter (λ stoich : string * float,
       negb (is_pseudo_species stoich.1)
       && bool_decide (orders R !! stoich.1 = None))
       (Composition.items (reactants R))).

Definition divide_out (st : UnitStack) (factors : list (Units * float)) : UnitStack :=
  fold_left (λ st (f : Units * float), UnitStack_update st f.1 f.2) factors st.

Definition rate_units_spec (R : Reaction) (kin : Kinetics) : UnitStack :=
  if valid R then
    let rxn_phase := thermo kin (reactionPhaseIndex kin) in
    let per_second :=
      UnitStack_update
        (UnitStack_join (UnitStack_of (standardConcentrationUnits rxn_phase)) 1)
        Units_per_second 1 in
    let divided :=
      divide_out per_second (order_factors R kin ++ reactant_factors R kin) in
    match m_third_body R with
    | Some _ => UnitStack_join divided (-1)
    | None => divided
    end
  else UnitStack_empty.

End Vocabulary.

(** ** Members of a reaction, tokens and collision partners *)

(** [R'] has the class, the orders, the identifier, the flags, the input
    node and the rate of [R]. *)
Definition keeps_members (R R' : Reaction) : Prop :=
  class R' = class R ∧ orders R' = orders R ∧ id R' = id R
  ∧ duplicate R' = duplicate R
  ∧ allow_nonreactant_orders R' = allow_nonreactant_orders R
  ∧ allow_negative_orders R' = allow_negative_orders R
  ∧ input R' = input R ∧ m_rate R' = m_rate R.

(** The tokens that separate the reactants from the products. *)
Definition is_separator (tok : string) : bool :=
  String.eqb tok "<=>" || String.eqb tok "=" || String.eqb tok "=>".

(** No species, two distinct species, or the species [sp] alone appears on
    both sides. *)
Definition no_shared_species (R : Reaction) : Prop :=
  ∀ k, ¬ on_both_sides R k.

Definition two_shared_species (R : Reaction) : Prop :=
  ∃ k1 k2, k1 ≠ k2 ∧ on_both_sides R k1 ∧ on_both_sides R k2.

Definition only_shared_species (R : Reaction) (sp : string) : Prop :=
  ∀ k, on_both_sides R k ↔ k = sp.

(** A third body that is either the generic one, without efficiencies and
    with default efficiency 1, or a specified partner. *)
Definition generic_or_partner (tb : ThirdBody) : Prop :=
  if specified_collision_partner tb
  then ∃ sp, efficiencies tb = {[sp := 1%float]} ∧ default_efficiency tb = 0%float
  else efficiencies tb = ∅ ∧ default_efficiency tb = 1%float.

(** The order and the efficiency that a node gives for a species. *)
Definition node_order (node : AnyMap) (k : string) : option float :=
  os ← node_orders node; os !! k.

Definition node_efficiency (node : AnyMap) (k : string) : option float :=
  eff ← node_efficiencies node; eff !! k.

(** A value that is neither an infinity nor NaN. *)
Definition finite (x : float) : bool :=
  match Prim2SF x with
  | S754_zero _ | S754_finite _ _ _ => true
  | _ => false
  end.

(** ** Well-formed equations

    A term is a species name, alone or after a numeral; a side is a list of
    terms separated by "+", optionally closed by a falloff bracket, written
    in one token ("(+M)") or in two ("(+" and "M)"); an equation is two
    sides around a separator. *)

Inductive Term : Type :=
| Species (name : string)
| Scaled (numeral name : string).

Definition term_tokens (t : Term) : list string :=
  match t with
  | Species name => [name]
  | Scaled numeral name => [numeral; name]
  end.

Definition term_name (t : Term) : string :=
  match t with Species name | Scaled _ name => name end.

Definition is_species (t : Term) : bool :=
  match t with Species _ => true | Scaled _ _ => false end.

Inductive Bracket : Type :=
| Joined (name : string)
| Spaced (rest : string).

Definition bracket_tokens (b : Bracket) : list string :=
  match b with
  | Joined name => [name]
  | Spaced rest => ["(+"; rest]
  end.

(** The species name under which the parser records the bracket. *)
Definition bracket_name (b : Bracket) : string :=
  match b with
  | Joined name => name
  | Spaced rest => String.append "(+" rest
  end.

Definition bracket_ok (b : Bracket) : bool :=
  match b with
  | Joined name => starts_with name "(+" && ends_with name ")"
  | Spaced rest => negb (completes_term rest)
  end.

(** A side: the terms that are followed by "+", the last term, and the
    bracket. *)
Record Side : Type := mkSide {
  leading : list Term;
  final : Term;
  bracket : option Bracket
}.

Definition leading_tokens (ts : list Term) : list string :=
  flat_map (λ t, term_tokens t ++ ["+"]) ts.

Definition side_tokens (s : Side) : list string :=
  leading_tokens (leading s)
  ++ term_tokens (final s)
  ++ from_option bracket_tokens [] (bracket s).

Definition equation_tokens (l : Side) (sep : string) (r : Side) : list string :=
  side_tokens l ++ sep :: side_tokens r.

Definition side_terms (s : Side) : list Term := leading s ++ [final s].

Definition side_names (s : Side) : list string := term_name <$> side_terms s.

(** A side of species with coefficient one and without bracket. *)
Definition plain (s : Side) : bool :=
  forallb is_species (side_terms s) && bool_decide (bracket s = None).

(** The names of [l] that are also names of [r]. *)
Definition shared_names (l r : Side) : list string :=
  List.filter (λ name, bool_decide (name ∈ side_names r)) (side_names l).

(** The composition of a side of distinct species with coefficient one,
    with the species [sp] taken out. *)
Definition units_without (names : list string) (sp : string) (k : string)
    : option float :=
  if decide (k ∈ names ∧ k ≠ sp) then Some 1%float else None.

(** The tokens of an equation up to a term under consideration: a
    completed left side with its separator, if any, and the terms of the
    current side that are followed by "+". *)
Definition prefix_tokens (before : option (Side * string)) (ts : list Term)
    : list string :=
  match before with
  | Some (l, sep) => side_tokens l ++ [sep]
  | None => []
  end ++ leading_tokens ts.

(** [comp[name] += stoich] for the entries of a list, in order. *)
Definition add_all (entries : list (string * float)) (comp : gmap string float)
    : gmap string float :=
  fold_left (λ comp (e : string * float), Composition.add comp e.1 e.2) entries comp.

(** The tokens [toks] stand in [T] from index [p] on. *)
Definition occurs_at (T : list string) (p : nat) (toks : list string) : Prop :=
  ∀ j tok, toks !! j = Some tok → T !! (p + j)%nat = Some tok.

(** The token before index [p], if there is one, is not "(+". *)
Definition prev_ok (T : list string) (p : nat) : Prop :=
  match p with
  | O => True
  | S q => T !! q ≠ Some "(+"
  end.

Section EquationVocabulary.
Context `{!CanteraBase}.

(** The coefficient of a term: 1.0, or the value of the numeral. *)
Definition term_stoich (t : Term) : float :=
  match t with
  | Species _ => 1%float
  | Scaled numeral _ => default 0%float (fpValueCheck numeral)
  end.

(** The tokens of the term complete no term themselves, and the numeral
    denotes a number. *)
Definition term_ok (t : Term) : bool :=
  match t with
  | Species name => negb (completes_term name)
  | Scaled numeral name =>
      negb (completes_term numeral) && negb (completes_term name)
      && bool_decide (is_Some (fpValueCheck numeral))
  end.

Definition side_ok (s : Side) : bool :=
  forallb term_ok (leading s) && term_ok (final s)
  && from_option bracket_ok true (bracket s).

Definition prefix_ok (before : option (Side * string)) (ts : list Term) : bool :=
  match before with
  | Some (l, sep) => side_ok l && is_separator sep
  | None => true
  end && forallb term_ok ts.

(** The species and coefficients that a side contributes, in the order of
    the equation; the bracket counts with coefficient -1. *)
Definition term_entry (t : Term) : string * float := (term_name t, term_stoich t).

Definition term_entries (s : Side) : list (string * float) :=
  List.map term_entry (side_terms s).

Definition side_entries (s : Side) : list (string * float) :=
  term_entries s
  ++ from_option (λ b, [(bracket_name b, (-1)%float)]) [] (bracket s).

(** No entry marks the reaction invalid. *)
Definition entries_declared (kin : option Kinetics) (entries : list (string * float))
    : bool :=
  forallb (λ e : string * float, negb (term_invalidates kin e.1 e.2)) entries.

(** The terms of a side recorded one after the other. *)
Definition add_entries (kin : option Kinetics) (side : bool)
    (entries : list (string * float)) (R : Reaction) : Reaction :=
  fold_left (λ R (e : string * float), add_term kin e.1 e.2 side R) entries R.

(** The error raised for the tokens [seg] found between two tokens that
    complete a term, if any: [c] is the completing token and [prev] the
    text of the last token used. *)
Definition term_error (seg : list string) (c prev : string) : option CanteraError :=
  match seg with
  | [_] => None
  | [numeral; _] =>
      match fpValueCheck numeral with
      | Some _ => None
      | None => Some (NotANumber numeral)
      end
  | _ => Some (ParseError c prev)
  end.

(** Every species of the composition is declared in the mechanism. *)
Definition all_declared (kin : Kinetics) (comp : gmap string float) : Prop :=
  ∀ k, is_Some (comp !! k) → kineticsSpeciesIndex kin k ≠ npos.

(** Every species of the composition has a finite coefficient, a phase
    among the phases of the mechanism, and no charge. *)
Definition neutral_side (kin : Kinetics) (ch : PhaseCharges)
    (comp : gmap string float) : Prop :=
  ∀ k c, comp !! k = Some c →
    let i := speciesPhaseIndex ch (kineticsSpeciesIndex kin k) in
    finite c = true ∧ 0 ≤ i < nPhases ch
    ∧ PrimFloat.eqb (charge ch i (speciesIndex (thermo kin i) k)) 0 = true.

End EquationVocabulary.

(** ** The words of a written equation *)

(** The term written for an entry of a composition: the coefficient is
    written unless it is 1. *)
Definition entry_term (show_double : float → string) (e : string * float) : Term :=
  if Double.neqb e.2 1 then Scaled (show_double e.2) e.1 else Species e.1.

(** The words written for the entries of a composition. *)
Fixpoint entries_words (show_double : float → string)
    (entries : list (string * float)) : list string :=
  match entries with
  | [] => []
  | [e] => term_tokens (entry_term show_double e)
  | e :: rest =>
      term_tokens (entry_term show_double e) ++ "+" :: entries_words show_double rest
  end.

(** Any value but the negative zero. *)
Definition not_negative_zero (x : float) : Prop := Prim2SF x ≠ S754_zero true.

(** The terms of a non-empty list of entries: those followed by "+", and
    the last. *)
Fixpoint split_last (show : float → string) (e : string * float)
    (rest : list (string * float)) : list Term * Term :=
  match rest with
  | [] => ([], entry_term show e)
  | e' :: rest' =>
      let '(ts, t) := split_last show e' rest' in (entry_term show e :: ts, t)
  end.

(** The arrow written for the reaction. *)
Definition arrow (R : Reaction) : string :=
  if reversible R then "<=>" else "=>".

(** The words of the equation of a reaction without third body. *)
Definition equation_words (show_double : float → string) (R : Reaction)
    : list string :=
  entries_words show_double (Composition.items (reactants R))
  ++ arrow R :: entries_words show_double (Composition.items (products R)).

(** [name] is what the equation writes for the third body: the first
    species of the efficiencies for a specified partner, and "M"
    otherwise. *)
Definition names_partner (tb : ThirdBody) (name : string) : Prop :=
  if specified_collision_partner tb
  then ∃ c rest, Composition.items (efficiencies tb) = (name, c) :: rest
  else name = "M".

(** The words written for the partner after the terms of a side. *)
Definition partner_words (c : ReactionClass) (name : string) : list string :=
  match c with
  | ThreeBodyClass => ["+"; name]
  | FalloffClass => [String.append "(+" (String.append name ")")]
  | _ => []
  end.

(** The words of the equation of a reaction with the partner [name]. *)
Definition partner_equation_words (show_double : float → string) (R : Reaction)
    (name : string) : list string :=
  (entries_words show_double (Composition.items (reactants R))
   ++ partner_words (class R) name)
  ++ arrow R
  :: (entries_words show_double (Composition.items (products R))
      ++ partner_words (class R) name).

Section WrittenEquations.
Context `{!CanteraBase}.

(** The coefficients and names of the composition are written in a way
    that reads back: names complete no term, no coefficient is the negative
    zero, and a coefficient other than 1 is written as a numeral that
    completes no term and denotes the coefficient. *)
Definition reads_back (show_double : float → string) (comp : gmap string float)
    : Prop :=
  ∀ k c, comp !! k = Some c →
    completes_term k = false ∧ not_negative_zero c
    ∧ (Double.neqb c 1 = true →
         completes_term (show_double c) = false
         ∧ fpValueCheck (show_double c) = Some c).

End WrittenEquations.

(** * Reactions and nodes used in the concrete runs *)

Module Examples.

(** "A + B => C" with the order [order] given for "A". *)
Definition with_order (rev : bool) (order : float) : Reaction :=
  set_reversible rev
    (set_orders {["A" := order]}
       (Reaction_of {["A" := 1%float; "B" := 1%float]} {["C" := 1%float]}
          (Some (mkReactionRate "Arrhenius" None)))).

(** "H2 + O2 => H2O" and "2 H2 + O2 => 2 H2O". *)
Definition water (h2 h2o : float) : Reaction :=
  set_reversible false
    (Reaction_of {["H2" := h2; "O2" := 1%float]} {["H2O" := h2o]} None).


(** The node of "H + O2 + M <=> HO2 + M" with an efficiency for N2, a
    species the mechanism does not declare. *)
Definition node_with_N2 : AnyMap :=
  mkAnyMap (Some "H + O2 + M <=> HO2 + M") (Some "three-body")
    None None None None None None (Some {["N2" := 2%float]})
    ["rate-constant"].

(** "H + O2 + c AR <=> HO2 + c AR" as a three-body reaction, after generic
    parsing. *)
Definition three_body_AR (c : float) : Reaction :=
  set_products {["AR" := c; "HO2" := 1%float]}
    (set_reactants {["AR" := c; "H" := 1%float; "O2" := 1%float]}
       ThreeBodyReaction_new).

(** "2 A + B <=> A + C" and "A + B + C <=> A + 2 B", after parsing. *)
Definition two_A : Reaction :=
  Reaction_of {["A" := 2%float; "B" := 1%float]}
              {["A" := 1%float; "C" := 1%float]} None.
Definition two_shared : Reaction :=
  Reaction_of {["A" := 1%float; "B" := 1%float; "C" := 1%float]}
              {["A" := 1%float; "B" := 2%float]} None.

(** A reactant side that counts 2^63 + 2^63 + 3. *)
Definition wrapping : Reaction :=
  Reaction_of {["A" := 0x1p63%float; "B" := 0x1p63%float; "C" := 3%float]}
              {["C" := 1%float; "D" := 1%float]} None.

(** "H + O2 (+AR) <=> HO2 (+AR)" on a new falloff reaction, after generic
    parsing. *)
Definition falloff_AR_parsed : Reaction :=
  set_products {["(+AR)" := (-1)%float; "HO2" := 1%float]}
    (set_reactants {["(+AR)" := (-1)%float; "H" := 1%float; "O2" := 1%float]}
       FalloffReaction_new).

(** A new falloff reaction whose third body already carries efficiencies. *)
Definition falloff_with (eff : gmap string float) : Reaction :=
  set_third_body (Some (mkThirdBody 1 eff false false)) FalloffReaction_new.

(** "2 H => H2", after parsing. *)
Definition hydrogen_recombination : Reaction :=
  set_products {["H2" := 1%float]}
    (set_reversible false (set_reactants {["H" := 2%float]} Reaction_new)).

(** "H + O2 <=> HO2" and "H + O2 + AR <=> AR + H" as three-body reactions,
    after generic parsing. *)
Definition no_partner : Reaction :=
  set_products {["HO2" := 1%float]}
    (set_reactants {["H" := 1%float; "O2" := 1%float]} ThreeBodyReaction_new).
Definition two_partners : Reaction :=
  set_products {["AR" := 1%float; "H" := 1%float]} (three_body_AR 1).

(** "H + O2 + M <=> HO2 + M" on a new three-body reaction, after generic
    parsing. *)
Definition three_body_M_parsed : Reaction :=
  set_products {["HO2" := 1%float; "M" := 1%float]}
    (set_reactants {["H" := 1%float; "M" := 1%float; "O2" := 1%float]}
       ThreeBodyReaction_new).

(** A node with an order for a reactant and one for an undeclared species,
    and the reaction [with_order false 2] after [setParameters] with it. *)
Definition node_with_orders : AnyMap :=
  mkAnyMap (Some "2 H2 + O2 => 2 H2O") None
    (Some {["H2" := 1.5%float; "N2" := 1%float]}) (Some "R1") (Some true)
    None (Some true) None None ["rate-constant"].
Definition after_node_with_orders : Reaction :=
  mkReaction ElementaryClass
    {["A" := 1%float; "B" := 1%float; "H2" := 2%float; "O2" := 1%float]}
    {["C" := 1%float; "H2O" := 2%float]}
    {["A" := 2%float; "H2" := 1.5%float; "N2" := 1%float]}
    "R1" false true true false node_with_orders false
    (Some (mkReactionRate "Arrhenius" None)) None.

(** The node of "H + O2 + M <=> HO2 + M" with efficiencies. *)
Definition node_with_efficiencies : AnyMap :=
  mkAnyMap (Some "H + O2 + M <=> HO2 + M") (Some "three-body")
    None None None None None (Some 0.5%float) (Some {["AR" := 0.7%float]})
    ["rate-constant"].

(** A node that gives the equation only. *)
Definition untyped (equation : string) : AnyMap :=
  mkAnyMap (Some equation) None None None None None None None None [].

(** A node with the equation [equation], a default efficiency and an
    efficiency for N2. *)
Definition node_with_partner (equation : string) : AnyMap :=
  mkAnyMap (Some equation) None None None None None None
    (Some 0.5%float) (Some {["N2" := 2%float]}) ["rate-constant"].

(** A node that holds the parameters of a rate and nothing else. *)
Definition rate_only : AnyMap :=
  mkAnyMap None None None None None None None None None ["rate-constant"].

(** The charges of the gas mechanism: one phase, every species neutral. *)
Definition gas_charges : PhaseCharges :=
  mkPhaseCharges 1 (λ _, 0) (λ _ _, 0%float).

(** What [operator<<] writes, with the default precision, for the
    coefficients of the runs; other values do not occur there. *)
Definition show_double (c : float) : string :=
  if PrimFloat.eqb c 2 then "2" else if PrimFloat.eqb c 0.5 then "0.5" else "".

(** "H + O2 (+AR) <=> HO2 (+AR)" *)
Definition falloff_AR : Reaction :=
  set_third_body (Some (mkThirdBody 0 {["AR" := 1%float]} true false))
    (set_products {["HO2" := 1%float]}
       (set_reactants {["H" := 1%float; "O2" := 1%float]} FalloffReaction_new)).

End Examples.

(** * Properties *)

(** ** The error monad and the iteration order *)

Lemma foldM_app {A B : Type} (f : B → A → result A) (l1 l2 : list B) (a : A) :
  foldM f (l1 ++ l2) a = foldM f l1 a ≫= foldM f l2.
Proof.
  revert a; induction l1 as [|b l1 IH]; intros a; [done|].
  simpl. destruct (f b a) as [a'|e]; [apply IH | done].
Qed.

Lemma for_each_Ok {B : Type} (f : B → result unit) (l : list B) :
  for_each f l = Ok () ↔ ∀ b, b ∈ l → f b = Ok ().
Proof.
  unfold for_each. induction l as [|b l IH]; simpl.
  - split; [intros _ b' Hb'; inversion Hb' | done].
  - destruct (f b) as [[]|e] eqn:Hb; simpl.
    + rewrite IH. split.
      * intros Hl b' [->|Hb']%elem_of_cons; auto.
      * intros Hall b' Hb'. apply Hall. by right.
    + split; [done|]. intros Hall. specialize (Hall b (proj2 (elem_of_cons _ _ _) (or_introl eq_refl))).
      congruence.
Qed.

Lemma for_each_Throw {B : Type} (f : B → result unit) (l : list B) (e : CanteraError) :
  for_each f l = Throw e → ∃ b, b ∈ l ∧ f b = Throw e.
Proof.
  unfold for_each. induction l as [|b l IH]; simpl; [done|].
  destruct (f b) as [[]|e'] eqn:Hb; simpl.
  - intros (b' & Hb' & Hf)%IH. exists b'. split; [by right | done].
  - intros [= ->]. exists b. split; [by left | done].
Qed.

Lemma result_unit_cases (r : result unit) : r = Ok () ∨ ∃ e, r = Throw e.
Proof. destruct r as [[]|e]; eauto. Qed.

(** The byte-wise order of strings is a total preorder. *)
Lemma compare_as_OT (s1 s2 : string) :
  String.compare s1 s2 = String_as_OT.compare s1 s2.
Proof.
  revert s2. induction s1 as [|a s1 IH]; intros [|b s2]; simpl; try done.
Qed.

Lemma leb_iff (s1 s2 : string) :
  String.leb s1 s2 = true ↔ String_as_OT.lt s1 s2 ∨ s1 = s2.
Proof.
  unfold String.leb. rewrite compare_as_OT.
  destruct (String_as_OT.compare_spec s1 s2) as [Heq|Hlt|Hgt].
  - split; [by right | done].
  - split; [by left | done].
  - split; [done|]. intros [Hlt| ->].
    + exfalso. eapply (StrictOrder_Irreflexive s1). by etransitivity.
    + exfalso. by eapply (StrictOrder_Irreflexive s2).
Qed.

Lemma leb_trans (s1 s2 s3 : string) :
  String.leb s1 s2 = true → String.leb s2 s3 = true → String.leb s1 s3 = true.
Proof.
  rewrite !leb_iff. intros [H12| ->] [H23| ->]; auto.
  left. by etransitivity.
Qed.

Lemma leb_refl (s : string) : String.leb s s = true.
Proof. apply leb_iff. by right. Qed.

#[global] Instance key_le_trans {V : Type} : Transitive (@Composition.key_le V).
Proof.
  intros p q r. unfold Composition.key_le. rewrite !Is_true_true.
  apply leb_trans.
Qed.

#[global] Instance key_le_total {V : Type} : Total (@Composition.key_le V).
Proof.
  intros p q. unfold Composition.key_le. rewrite !Is_true_true.
  apply String.leb_total.
Qed.

(** The first match of a search through a sorted list precedes every
    other match. *)
Lemma find_first {A : Type} (f : A → bool) (R : relation A) (l : list A) (x : A) :
  StronglySorted R l → List.find f l = Some x →
  ∀ y, y ∈ l → f y = true → y = x ∨ R x y.
Proof.
  induction 1 as [|a l Hs IH Hall]; simpl; [done|].
  destruct (f a) eqn:Hfa.
  - intros [= <-] y [->|Hy]%elem_of_cons _; [by left|].
    right. rewrite Forall_forall in Hall. by apply Hall.
  - intros Hfind y [->|Hy]%elem_of_cons Hfy; [congruence|]. by apply IH.
Qed.

Section Items.
Context {V : Type}.
Implicit Types m : gmap string V.

(** [items] lists the entries in the order of their keys, as iteration over
    a [std::map] does. *)
Lemma items_sorted m : StronglySorted Composition.key_le (Composition.items m).
Proof. apply StronglySorted_merge_sort; apply _. Qed.

Lemma items_Permutation m : Composition.items m ≡ₚ map_to_list m.
Proof. apply merge_sort_Permutation. Qed.

Lemma elem_of_items m k v : (k, v) ∈ Composition.items m ↔ m !! k = Some v.
Proof. by rewrite items_Permutation, elem_of_map_to_list. Qed.

Lemma elem_of_items' m (p : string * V) :
  p ∈ Composition.items m ↔ m !! p.1 = Some p.2.
Proof. destruct p as [k v]. apply elem_of_items. Qed.

Lemma NoDup_items m : NoDup (Composition.items m).
Proof. rewrite items_Permutation. apply NoDup_map_to_list. Qed.

Lemma NoDup_fst_items m : NoDup (Composition.items m).*1.
Proof. rewrite items_Permutation. apply NoDup_fst_map_to_list. Qed.

Lemma items_singleton_inv m (p : string * V) :
  Composition.items m = [p] → m = {[p.1 := p.2]}.
Proof.
  intros Hm. apply map_eq. intros k.
  destruct (m !! k) as [v|] eqn:Hk.
  - apply elem_of_items in Hk. rewrite Hm in Hk.
    apply list_elem_of_singleton in Hk as <-. simpl. by rewrite lookup_singleton_eq.
  - destruct (decide (p.1 = k)) as [<-|Hne];
      [| by rewrite lookup_singleton_ne].
    assert (p ∈ Composition.items m) as Hp by (rewrite Hm; by left).
    apply elem_of_items' in Hp. congruence.
Qed.

End Items.

(** ** [Reaction::check]: the validity of reaction orders *)

Lemma check_nonreactant_orders_Ok (R : Reaction) :
  check_nonreactant_orders R = Ok () ↔
  ¬ (allow_nonreactant_orders R = false ∧ has_nonreactant_order R).
Proof.
  unfold check_nonreactant_orders, has_nonreactant_order.
  destruct (allow_nonreactant_orders R); simpl; [naive_solver|].
  rewrite for_each_Ok. split.
  - intros Hall (_ & k & v & Hk & Hr).
    specialize (Hall (k, v) (proj2 (elem_of_items _ _ _) Hk)). simpl in Hall.
    by rewrite bool_decide_eq_true_2 in Hall.
  - intros Hno [k v] Hkv%elem_of_items. simpl.
    case_bool_decide; [|done]. destruct Hno; eauto.
Qed.

Lemma check_negative_orders_Ok (R : Reaction) :
  check_negative_orders R = Ok () ↔
  ¬ (allow_negative_orders R = false ∧ has_negative_order R).
Proof.
  unfold check_negative_orders, has_negative_order.
  destruct (allow_negative_orders R); simpl; [naive_solver|].
  rewrite for_each_Ok. split.
  - intros Hall (_ & k & v & Hk & Hneg).
    specialize (Hall (k, v) (proj2 (elem_of_items _ _ _) Hk)). simpl in Hall.
    by rewrite Hneg in Hall.
  - intros Hno [k v] Hkv%elem_of_items. simpl.
    destruct (PrimFloat.ltb v 0) eqn:Hneg; [|done]. destruct Hno; eauto.
Qed.

Lemma check_reversible_orders_Ok (R : Reaction) :
  check_reversible_orders R = Ok () ↔ ¬ (reversible R = true ∧ orders R ≠ ∅).
Proof.
  unfold check_reversible_orders.
  destruct (reversible R); simpl; [|naive_solver].
  case_bool_decide; simpl; naive_solver.
Qed.

Lemma check_orders_Ok (R : Reaction) :
  check_orders R = Ok () ↔ ¬ orders_invalid R.
Proof.
  unfold check_orders, orders_invalid.
  pose proof (check_nonreactant_orders_Ok R) as H1.
  pose proof (check_negative_orders_Ok R) as H2.
  pose proof (check_reversible_orders_Ok R) as H3.
  destruct (result_unit_cases (check_nonreactant_orders R)) as [E1|[e1 E1]];
    rewrite E1 in H1 |- *; simpl.
  - destruct (result_unit_cases (check_negative_orders R)) as [E2|[e2 E2]];
      rewrite E2 in H2 |- *; simpl.
    + rewrite H3. naive_solver.
    + split; [done|]. intros Hno. exfalso. apply Hno. right; left.
      apply dec_stable. intros Hn. by apply H2 in Hn.
  - split; [done|]. intros Hno. exfalso. apply Hno. left.
    apply dec_stable. intros Hn. by apply H1 in Hn.
Qed.

Lemma check_orders_Throw_kind (R : Reaction) (e : CanteraError) :
  check_orders R = Throw e → is_order_error e.
Proof.
  unfold check_orders.
  destruct (result_unit_cases (check_nonreactant_orders R)) as [E1|[e1 E1]];
    rewrite E1; simpl.
  - destruct (result_unit_cases (check_negative_orders R)) as [E2|[e2 E2]];
      rewrite E2; simpl.
    + unfold check_reversible_orders.
      destruct (_ && _); [by intros [= <-] | done].
    + intros [= <-]. unfold check_negative_orders in E2.
      destruct (negb _); [|done].
      apply for_each_Throw in E2 as (b & _ & Hb).
      destruct (PrimFloat.ltb _ _); [by injection Hb as <- | done].
  - intros [= <-]. unfold check_nonreactant_orders in E1.
    destruct (negb _); [|done].
    apply for_each_Throw in E1 as (b & _ & Hb).
    case_bool_decide; [by injection Hb as <- | done].
Qed.

Lemma check_orders_Throw_invalid (R : Reaction) (e : CanteraError) :
  check_orders R = Throw e → orders_invalid R.
Proof.
  unfold check_orders, orders_invalid.
  destruct (result_unit_cases (check_nonreactant_orders R)) as [E1|[e1 E1]];
    rewrite E1; simpl.
  - destruct (result_unit_cases (check_negative_orders R)) as [E2|[e2 E2]];
      rewrite E2; simpl.
    + unfold check_reversible_orders. intros He. right; right.
      destruct (reversible R); [|done]. simpl in He.
      case_bool_decide; [done | by split].
    + intros _. right; left. unfold check_negative_orders in E2.
      destruct (allow_negative_orders R); [done|]. split; [done|].
      apply for_each_Throw in E2 as ([k v] & Hkv%elem_of_items & Hb).
      simpl in Hb. exists k, v.
      destruct (PrimFloat.ltb v 0) eqn:Hneg; [done | discriminate].
  - intros _. left. unfold check_nonreactant_orders in E1.
    destruct (allow_nonreactant_orders R); [done|]. split; [done|].
    apply for_each_Throw in E1 as ([k v] & Hkv%elem_of_items & Hb).
    simpl in Hb. exists k, v. by case_bool_decide.
Qed.

(** C7: the order-validity check of [Reaction::check] throws exactly when an
    order is given for a species that is not a reactant while
    [allow_nonreactant_orders] is false, or an order is negative while
    [allow_negative_orders] is false, or any order is given while the
    reaction is reversible; the error is then one of the three order errors
    and is the outcome of [check]; otherwise the order tests pass and
    [check] goes on to the rate object's own check. *)
Theorem check_orders_throws_exactly_when_invalid (R : Reaction) :
  ((∃ e, check_orders R = Throw e) ↔ orders_invalid R)
  ∧ (check_orders R = Ok () ↔ ¬ orders_invalid R)
  ∧ (∀ e, check_orders R = Throw e → is_order_error e ∧ check R = Throw e)
  ∧ (check_orders R = Ok () → check R = check_rate R).
Proof.
  pose proof (check_orders_Ok R) as HOk.
  split; [|split; [done|split]].
  - split; [intros [e He]; by eapply check_orders_Throw_invalid|].
    intros Hinv.
    destruct (result_unit_cases (check_orders R)) as [E|[e E]]; [|eauto].
    by apply HOk in E.
  - intros e He. split; [by eapply check_orders_Throw_kind|].
    unfold check. by rewrite He.
  - intros He. unfold check. by rewrite He.
Qed.

(** ** [Reaction::checkSpecies] *)

Lemma fold_left_collect {A B : Type} (P : A → bool) (g : A → B)
    (l : list A) (acc : list B) :
  fold_left (λ acc a, if P a then acc ++ [g a] else acc) l acc
  = acc ++ List.map g (List.filter P l).
Proof.
  revert acc; induction l as [|a l IH]; intros acc; simpl.
  - by rewrite app_nil_r.
  - rewrite IH. destruct (P a); simpl; [by rewrite <-app_assoc | done].
Qed.

Section CheckSpecies.
Context `{!CanteraBase}.

(** The names listed by [updateUndeclared]: those already listed, then the
    keys of the composition that the mechanism does not know. *)
Lemma updateUndeclared_eq (undeclared : list string) (comp : gmap string float)
    (kin : Kinetics) :
  updateUndeclared undeclared comp kin
  = undeclared ++ List.map fst
      (List.filter (λ sp : string * float, kineticsSpeciesIndex kin sp.1 =? npos)
         (Composition.items comp)).
Proof. unfold updateUndeclared. apply fold_left_collect. Qed.

Lemma elem_of_updateUndeclared (undeclared : list string)
    (comp : gmap string float) (kin : Kinetics) (k : string) :
  k ∈ updateUndeclared undeclared comp kin ↔
  k ∈ undeclared ∨ (is_Some (comp !! k) ∧ kineticsSpeciesIndex kin k = npos).
Proof.
  rewrite updateUndeclared_eq, elem_of_app.
  apply or_iff_compat_l.
  rewrite list_elem_of_In, in_map_iff. split.
  - intros ([k' v] & <- & [Hin Hk]%filter_In). simpl in *.
    apply list_elem_of_In, elem_of_items in Hin. split; [eauto | lia].
  - intros [[v Hv] Hk]. exists (k, v). split; [done|].
    apply filter_In. split.
    + by apply list_elem_of_In, elem_of_items.
    + simpl. lia.
Qed.

Lemma updateUndeclared_nil (undeclared : list string)
    (comp : gmap string float) (kin : Kinetics) :
  updateUndeclared undeclared comp kin = [] →
  undeclared = [] ∧
  ∀ k, is_Some (comp !! k) → kineticsSpeciesIndex kin k ≠ npos.
Proof.
  intros Hnil. split.
  - rewrite updateUndeclared_eq in Hnil. by apply app_eq_nil in Hnil as [-> _].
  - intros k Hk Hnpos.
    assert (k ∈ updateUndeclared undeclared comp kin) as Hin
      by (apply elem_of_updateUndeclared; auto).
    rewrite Hnil in Hin. by apply elem_of_nil in Hin.
Qed.

(** C1 (amended): if [checkSpecies] returns true, then every species named in
    the reactants, the products or the reaction orders is declared in the
    mechanism and the balance check has passed without error; a species of
    the third-body efficiencies may still be undeclared, but only when the
    mechanism skips undeclared third bodies and it is not the case that
    the mechanism also skips undeclared species while the collision partner is
    a specified one. *)
Theorem checkSpecies_true_guarantees (R : Reaction) (kin : Kinetics) :
  checkSpecies R kin = Ok true →
  (∀ k, is_Some (reactants R !! k) ∨ is_Some (products R !! k)
        ∨ is_Some (orders R !! k) → kineticsSpeciesIndex kin k ≠ npos)
  ∧ checkBalance R kin = Ok ()
  ∧ (∀ tb k, m_third_body R = Some tb → is_Some (efficiencies tb !! k) →
       kineticsSpeciesIndex kin k = npos →
       skipUndeclaredThirdBodies kin = true
       ∧ (skipUndeclaredSpecies kin = false
          ∨ specified_collision_partner tb = false)).
Proof.
  unfold checkSpecies.
  case_bool_decide as Hrp; simpl;
    [|destruct (skipUndeclaredSpecies kin); discriminate].
  apply updateUndeclared_nil in Hrp as [Hr Hp].
  apply updateUndeclared_nil in Hr as [_ Hr].
  case_bool_decide as Ho; simpl;
    [|destruct (skipUndeclaredSpecies kin); discriminate].
  apply updateUndeclared_nil in Ho as [_ Ho].
  intros Hres.
  assert (checkBalance R kin = Ok ()) as Hbal.
  { repeat (destruct (_ && _); try discriminate).
    by destruct (checkBalance R kin) as [[]|]. }
  split; [naive_solver|]. split; [done|].
  intros tb k Htb Hk Hnpos. unfold undeclaredThirdBodies in Hres.
  rewrite Htb in Hres. simpl in Hres.
  assert (updateUndeclared [] (efficiencies tb) kin ≠ []) as Hne.
  { intros Hnil. apply updateUndeclared_nil in Hnil as [_ Hnil]. by eapply Hnil. }
  rewrite (bool_decide_eq_false_2 _ Hne) in Hres. simpl in Hres.
  destruct (skipUndeclaredThirdBodies kin); simpl in Hres; [|discriminate].
  split; [done|].
  destruct (skipUndeclaredSpecies kin), (specified_collision_partner tb);
    simpl in Hres; auto; discriminate.
Qed.

End CheckSpecies.

(** ** [Reaction::checkBalance] *)


Lemma add_is_Some (m : gmap string float) (k k' : string) (v : float) :
  is_Some (Composition.add m k v !! k') ↔ k = k' ∨ is_Some (m !! k').
Proof.
  unfold Composition.add. rewrite lookup_insert_is_Some.
  destruct (decide (k = k')); naive_solver.
Qed.

Section CheckBalance.
Context `{!CanteraBase}.












End CheckBalance.

Section CheckBalanceOutcome.
Context `{!CanteraBase}.



End CheckBalanceOutcome.

(** ** [Reaction::calculateRateCoeffUnits] *)

Section RateUnits.
Context `{!CanteraBase}.

Lemma orders_loop_eq (kin : Kinetics) (l : list (string * float)) (st : UnitStack) :
  fold_left (λ rate_units (order : string * float),
    let phase := speciesPhase kin order.1 in
    UnitStack_update rate_units (standardConcentrationUnits phase)
      (PrimFloat.opp order.2)) l st
  = divide_out st
      (List.map (λ order : string * float,
         (standardConcentrationUnits (speciesPhase kin order.1),
          PrimFloat.opp order.2)) l).
Proof.
  unfold divide_out. revert st. induction l as [|a l IH]; intros st; simpl; auto.
Qed.

Lemma reactants_loop_eq (R : Reaction) (kin : Kinetics)
    (l : list (string * float)) (st : UnitStack) :
  fold_left (λ rate_units (stoich : string * float),
    if String.eqb stoich.1 "M" || starts_with stoich.1 "(+" then rate_units
    else if bool_decide (orders R !! stoich.1 = None) then
      let phase := speciesPhase kin stoich.1 in
      UnitStack_update rate_units (standardConcentrationUnits phase)
        (PrimFloat.opp stoich.2)
    else rate_units) l st
  = divide_out st
      (List.map (λ stoich : string * float,
         (standardConcentrationUnits (speciesPhase kin stoich.1),
          PrimFloat.opp stoich.2))
         (List.filter (λ stoich : string * float,
            negb (is_pseudo_species stoich.1)
            && bool_decide (orders R !! stoich.1 = None)) l)).
Proof.
  unfold divide_out, is_pseudo_species. revert st.
  induction l as [|a l IH]; intros st; simpl; [done|].
  destruct (_ || _); simpl; [apply IH|].
  case_bool_decide; simpl; apply IH.
Qed.

Lemma elem_of_order_factors (R : Reaction) (kin : Kinetics) (f : Units * float) :
  f ∈ order_factors R kin ↔
  ∃ sp order, orders R !! sp = Some order
    ∧ f = (standardConcentrationUnits (speciesPhase kin sp), PrimFloat.opp order).
Proof.
  unfold order_factors. rewrite list_elem_of_In, in_map_iff. split.
  - intros ([sp order] & <- & Hin%list_elem_of_In%elem_of_items). eauto.
  - intros (sp & order & Hin & ->). exists (sp, order). split; [done|].
    by apply list_elem_of_In, elem_of_items.
Qed.

Lemma elem_of_reactant_factors (R : Reaction) (kin : Kinetics) (f : Units * float) :
  f ∈ reactant_factors R kin ↔
  ∃ sp stoich, reactants R !! sp = Some stoich
    ∧ sp ≠ "M" ∧ starts_with sp "(+" = false ∧ orders R !! sp = None
    ∧ f = (standardConcentrationUnits (speciesPhase kin sp), PrimFloat.opp stoich).
Proof.
  unfold reactant_factors, is_pseudo_species.
  rewrite list_elem_of_In, in_map_iff. split.
  - intros ([sp stoich] & <- & [Hin%list_elem_of_In%elem_of_items Hk]%filter_In).
    simpl in *. apply andb_true_iff in Hk as [Hps Ho].
    apply negb_true_iff, orb_false_iff in Hps as [HM Hb].
    apply String.eqb_neq in HM. apply bool_decide_eq_true in Ho.
    exists sp, stoich. auto.
  - intros (sp & stoich & Hin & HM & Hb & Ho & ->). exists (sp, stoich).
    split; [done|]. apply filter_In. split.
    + by apply list_elem_of_In, elem_of_items.
    + simpl. apply String.eqb_neq in HM. rewrite HM, Hb. simpl.
      by apply bool_decide_eq_true.
Qed.

(** C9: [calculateRateCoeffUnits] returns the empty unit stack for a reaction
    marked invalid; otherwise it starts from the reaction phase's
    standard-concentration unit per second and divides out, in this order,
    the standard-concentration unit of the species' phase for every explicit
    order (by that order) and for every reactant that has no explicit order
    and is neither "M" nor a name starting with "(+" (by its stoichiometric
    coefficient), and joins exactly one exponent -1 when the reaction
    carries a third body. *)
Theorem calculateRateCoeffUnits_spec (R : Reaction) (kin : Kinetics) :
  calculateRateCoeffUnits R kin = rate_units_spec R kin
  ∧ (valid R = false → calculateRateCoeffUnits R kin = UnitStack_empty)
  ∧ (∀ f, f ∈ order_factors R kin ↔
       ∃ sp order, orders R !! sp = Some order
         ∧ f = (standardConcentrationUnits (speciesPhase kin sp),
                PrimFloat.opp order))
  ∧ (∀ f, f ∈ reactant_factors R kin ↔
       ∃ sp stoich, reactants R !! sp = Some stoich
         ∧ sp ≠ "M" ∧ starts_with sp "(+" = false ∧ orders R !! sp = None
         ∧ f = (standardConcentrationUnits (speciesPhase kin sp),
                PrimFloat.opp stoich)).
Proof.
  split; [|split; [|split]].
  - unfold calculateRateCoeffUnits, rate_units_spec.
    destruct (valid R); simpl; [|done].
    rewrite orders_loop_eq, reactants_loop_eq.
    fold (order_factors R kin). fold (reactant_factors R kin).
    unfold divide_out. rewrite fold_left_app.
    destruct (m_third_body R); [by rewrite bool_decide_eq_true_2|].
    rewrite bool_decide_eq_false_2; [done | by intros [? ?]].
  - intros Hv. unfold calculateRateCoeffUnits. by rewrite Hv.
  - apply elem_of_order_factors.
  - apply elem_of_reactant_factors.
Qed.

End RateUnits.

(** ** [parseReactionEquation] *)

Section ParserProperties.
Context `{!CanteraBase}.

Lemma switch_side_valid (tok : string) (st : ParseState) :
  m_valid (ps_R (switch_side tok st)) = m_valid (ps_R st).
Proof.
  unfold switch_side. destruct (_ || _); [done|].
  by destruct (String.eqb tok "=>").
Qed.

(** Without a mechanism, every recorded term marks the reaction invalid,
    whatever the species and the coefficient. *)
Lemma record_term_no_kinetics (tokens : list string) (i : Z) (st st' : ParseState) :
  record_term tokens None i st = Ok st' → m_valid (ps_R st') = false.
Proof.
  unfold record_term.
  destruct (term_at tokens (ps_last_used st) i) as [[species stoich]|e];
    simpl; [|done].
  intros [= <-]. unfold add_term. simpl. by destruct (ps_reactants st).
Qed.

Lemma parse_iteration_no_kinetics (tokens : list string) (i : nat)
    (st st' : ParseState) :
  completes_term (token_at tokens (Z.of_nat i)) = true →
  parse_iteration tokens None i st = Ok st' →
  m_valid (ps_R st') = false.
Proof.
  unfold parse_iteration. intros ->.
  destruct (record_term tokens None (Z.of_nat i) st) as [st1|e] eqn:Hrec;
    simpl; [|done].
  intros [= <-]. rewrite switch_side_valid.
  by eapply record_term_no_kinetics.
Qed.

(** The iteration at the appended "+" is the last one. *)
Lemma token_at_appended (toks : list string) :
  token_at (toks ++ ["+"]) (Z.of_nat (length toks)) = "+".
Proof.
  unfold token_at. rewrite Nat2Z.id.
  rewrite lookup_app_r by lia. by rewrite Nat.sub_diag.
Qed.

Lemma parse_tokens_last (R : Reaction) (toks : list string)
    (kin : option Kinetics) (R' : Reaction) :
  toks ≠ [] →
  parse_tokens R (toks ++ ["+"]) kin = Ok R' →
  ∃ st st', parse_iteration (toks ++ ["+"]) kin (length toks) st = Ok st'
            ∧ ps_R st' = R'.
Proof.
  intros Hne. unfold parse_tokens.
  rewrite length_app. simpl.
  replace (length toks + 1 - 1)%nat with (length toks) by lia.
  destruct toks as [|t toks]; [done|]. simpl length.
  rewrite seq_S, foldM_app. simpl.
  destruct (foldM _ (seq 1 (length toks)) _) as [st|e]; simpl; [|done].
  destruct (parse_iteration _ kin _ st) as [st'|e] eqn:Hit; simpl; [|done].
  intros [= <-]. eauto.
Qed.

(** C10: without a governing mechanism (a null [Kinetics] pointer) every
    completed term marks the reaction invalid, whatever its species and
    coefficient (so also for "M", for falloff brackets and for species any
    mechanism would declare); hence an equation with at least one token,
    when parsing completes, yields an invalid reaction. *)
Theorem parse_without_kinetics_is_invalid :
  (∀ species stoich, term_invalidates None species stoich = true)
  ∧ (∀ tokens i st st',
       completes_term (token_at tokens (Z.of_nat i)) = true →
       parse_iteration tokens None i st = Ok st' →
       valid (ps_R st') = false)
  ∧ (∀ R equation R',
       tokenizeString equation ≠ [] →
       parseReactionEquation R equation None = Ok R' →
       valid R' = false).
Proof.
  split; [done|]. split.
  - intros tokens i st st'. apply parse_iteration_no_kinetics.
  - intros R equation R' Hne Hparse. unfold parseReactionEquation in Hparse.
    apply parse_tokens_last in Hparse as (st & st' & Hit & <-); [|done].
    eapply parse_iteration_no_kinetics; [|done].
    by rewrite token_at_appended.
Qed.

End ParserProperties.

(** *** Running the loop on a token vector

    One lemma per kind of iteration; the tactics below apply them at a given
    index and bring the loop state back to a record. *)

Section ParserSteps.
Context `{!CanteraBase}.

Lemma token_at_lookup (tokens : list string) (i : nat) (tok : string) :
  tokens !! i = Some tok → token_at tokens (Z.of_nat i) = tok.
Proof. unfold token_at. rewrite Nat2Z.id. by intros ->. Qed.

Lemma switch_side_inert (tok : string) (st : ParseState) :
  completes_term tok = false → switch_side tok st = st.
Proof.
  unfold completes_term, switch_side. intros Hc.
  repeat (apply orb_false_iff in Hc as [Hc ?]).
  by repeat match goal with
            | H : String.eqb _ _ = false |- _ => rewrite H; clear H
            end.
Qed.

(** A token that completes no term leaves the state unchanged. *)
Lemma parse_iteration_skip (tokens : list string) (kin : option Kinetics)
    (i : nat) (st : ParseState) (tok : string) :
  tokens !! i = Some tok → completes_term tok = false →
  parse_iteration tokens kin i st = Ok st.
Proof.
  intros Htok%token_at_lookup Hc. unfold parse_iteration.
  rewrite Htok, Hc. simpl. by rewrite switch_side_inert.
Qed.

(** A token that completes a term records it, then may switch sides. *)
Lemma parse_iteration_term (tokens : list string) (kin : option Kinetics)
    (i : nat) (R : Reaction) (lu : Z) (side : bool) (tok species : string)
    (stoich : float) :
  tokens !! i = Some tok → completes_term tok = true →
  term_at tokens lu (Z.of_nat i) = Ok (species, stoich) →
  parse_iteration tokens kin i (mkParseState R lu side)
  = Ok (switch_side tok
          (mkParseState (add_term kin species stoich side R) (Z.of_nat i) side)).
Proof.
  intros Htok%token_at_lookup Hc Hterm. unfold parse_iteration, record_term.
  simpl. by rewrite Htok, Hc, Hterm.
Qed.


Lemma switch_side_plus (st : ParseState) : switch_side "+" st = st.
Proof. reflexivity. Qed.

Lemma switch_side_reversible (st : ParseState) :
  switch_side "<=>" st
  = mkParseState (set_reversible true (ps_R st)) (ps_last_used st) false.
Proof. reflexivity. Qed.

Lemma switch_side_equals (st : ParseState) :
  switch_side "=" st
  = mkParseState (set_reversible true (ps_R st)) (ps_last_used st) false.
Proof. reflexivity. Qed.

Lemma switch_side_irreversible (st : ParseState) :
  switch_side "=>" st
  = mkParseState (set_reversible false (ps_R st)) (ps_last_used st) false.
Proof. reflexivity. Qed.

(** The members of a reaction after [add_term] and [set_reversible]. *)
Lemma reactants_add_term (kin : option Kinetics) (sp : string) (v : float)
    (side : bool) (R : Reaction) :
  reactants (add_term kin sp v side R)
  = if side then Composition.add (reactants R) sp v else reactants R.
Proof. unfold add_term. by destruct (term_invalidates kin sp v), side. Qed.

Lemma products_add_term (kin : option Kinetics) (sp : string) (v : float)
    (side : bool) (R : Reaction) :
  products (add_term kin sp v side R)
  = if side then products R else Composition.add (products R) sp v.
Proof. unfold add_term. by destruct (term_invalidates kin sp v), side. Qed.

Lemma reversible_add_term (kin : option Kinetics) (sp : string) (v : float)
    (side : bool) (R : Reaction) :
  reversible (add_term kin sp v side R) = reversible R.
Proof. unfold add_term. by destruct (term_invalidates kin sp v), side. Qed.

Lemma third_body_add_term (kin : option Kinetics) (sp : string) (v : float)
    (side : bool) (R : Reaction) :
  m_third_body (add_term kin sp v side R) = m_third_body R.
Proof. unfold add_term. by destruct (term_invalidates kin sp v), side. Qed.

Lemma add_fresh (m : gmap string float) (k : string) (v : float) :
  m !! k = None → Composition.add m k v = <[k := PrimFloat.add 0 v]> m.
Proof. intros Hk. unfold Composition.add, Composition.at_default. by rewrite Hk. Qed.

End ParserSteps.

Ltac after_parse_step :=
  cbn [mbind result_bind];
  rewrite ?switch_side_plus, ?switch_side_reversible, ?switch_side_equals,
    ?switch_side_irreversible;
  cbn [ps_R ps_last_used ps_reactants].

(** Iteration [i] completes a term whose coefficient is fixed by the shape. *)
Ltac parse_term i :=
  erewrite (parse_iteration_term _ _ i);
  [ | reflexivity | vm_compute; reflexivity | vm_compute; reflexivity ];
  after_parse_step.



Section ParserShapes.
Context `{!CanteraBase}.





End ParserShapes.

(** ** [ThreeBodyReaction::detectEfficiencies] *)

Lemma items_singleton {V : Type} (k : string) (v : V) :
  Composition.items ({[k := v]} : gmap string V) = [(k, v)].
Proof.
  apply Permutation_singleton_r.
  by rewrite items_Permutation, map_to_list_singleton.
Qed.

Lemma count_nonzero {V : Type} (m : gmap string V) (k : string) :
  negb (Composition.count m k =? 0) = bool_decide (is_Some (m !! k)).
Proof.
  unfold Composition.count. destruct (m !! k).
  - symmetry. by apply bool_decide_eq_true_2.
  - symmetry. apply bool_decide_eq_false_2. by intros [? ?].
Qed.

(** After the detection loop, every species on both sides has efficiency 1
    and the other entries are those present beforehand. *)
Lemma lookup_detect_partners (R : Reaction) (eff : gmap string float) (k : string) :
  detect_partners R eff !! k
  = if decide (on_both_sides R k) then Some 1%float else eff !! k.
Proof.
  unfold detect_partners.
  assert (∀ l (eff : gmap string float),
    fold_left (λ eff (reac : string * float),
      if negb (Composition.count (products R) reac.1 =? 0)
      then <[reac.1 := 1%float]> eff else eff) l eff !! k
    = if decide (k ∈ l.*1 ∧ is_Some (products R !! k))
      then Some 1%float else eff !! k) as Hgen.
  { induction l as [|[k' v'] l IH]; intros eff'.
    - cbn [fold_left]. case_decide as Hd; [|done].
      destruct Hd as [Hin _]. by apply elem_of_nil in Hin.
    - cbn [fold_left]. rewrite IH, count_nonzero. clear IH.
      rewrite fmap_cons. cbn [fst].
      destruct (decide (k ∈ l.*1 ∧ is_Some (products R !! k))) as [[Hin Hp]|Hn].
      + case_decide as Hd; [done|]. destruct Hd. split; [by right | done].
      + case_bool_decide as Hp'.
        * destruct (decide (k' = k)) as [->|Hne].
          -- rewrite lookup_insert_eq. case_decide as Hd; [done|].
             destruct Hd. split; [by left | done].
          -- rewrite lookup_insert_ne by done.
             case_decide as Hd; [|done].
             destruct Hd as [[->|Hin]%elem_of_cons Hp]; [done|]. by destruct Hn.
        * case_decide as Hd; [|done].
          destruct Hd as [[->|Hin]%elem_of_cons Hp]; [done|]. by destruct Hn. }
  rewrite Hgen. unfold on_both_sides.
  assert (k ∈ (Composition.items (reactants R)).*1 ↔ is_Some (reactants R !! k))
    as Hkeys.
  { rewrite list_elem_of_fmap. split.
    - intros ([k' v] & -> & Hin%elem_of_items). eauto.
    - intros [v Hv]. exists (k, v). split; [done | by apply elem_of_items]. }
  repeat case_decide; try done; exfalso; rewrite Hkeys in *; tauto.
Qed.

Lemma adjust_coefficient_Ok (comp : gmap string float) (sp : string) (c : float) :
  comp !! sp = Some c →
  adjust_coefficient comp sp
  = Ok (if Double.neqb (Double.trunc c) 1
        then <[sp := PrimFloat.sub c 1]> comp
        else delete sp comp).
Proof. intros Hc. unfold adjust_coefficient. rewrite Hc. by destruct (Double.neqb _ _). Qed.

Lemma adjust_coefficient_inv (comp comp' : gmap string float) (sp : string) :
  adjust_coefficient comp sp = Ok comp' → is_Some (comp !! sp).
Proof. unfold adjust_coefficient. destruct (comp !! sp); [eauto | done]. Qed.

(** C2 (amended): for a reaction with a third body whose efficiency map
    names no species other than [sp], and in which [sp] is the one species
    that appears both among the reactants (with coefficient [r]) and among
    the products (with coefficient [p]), [detectEfficiencies] returns true,
    sets [specified_collision_partner] to true, [default_efficiency] to 0
    and [efficiencies] to the single entry {sp: 1.0}, and on each side
    erases [sp] if and only if the coefficient truncated toward zero equals
    1, and otherwise replaces the coefficient by the coefficient minus 1;
    the other entries of both sides are unchanged. *)
Theorem detectEfficiencies_single_partner (R : Reaction) (tb : ThirdBody)
    (sp : string) (r p : float) :
  m_third_body R = Some tb →
  (∀ k, is_Some (efficiencies tb !! k) → k = sp) →
  (∀ k, on_both_sides R k ↔ k = sp) →
  reactants R !! sp = Some r →
  products R !! sp = Some p →
  ∃ R', detectEfficiencies R = Ok (true, R')
    ∧ m_third_body R'
      = Some (mkThirdBody 0 {[sp := 1%float]} true (mass_action tb))
    ∧ reactants R'
      = (if PrimFloat.eqb (Double.trunc r) 1 then delete sp (reactants R)
         else <[sp := PrimFloat.sub r 1]> (reactants R))
    ∧ products R'
      = (if PrimFloat.eqb (Double.trunc p) 1 then delete sp (products R)
         else <[sp := PrimFloat.sub p 1]> (products R))
    ∧ (reactants R' !! sp = None ↔ PrimFloat.eqb (Double.trunc r) 1 = true)
    ∧ (products R' !! sp = None ↔ PrimFloat.eqb (Double.trunc p) 1 = true)
    ∧ (∀ k, k ≠ sp → reactants R' !! k = reactants R !! k
                     ∧ products R' !! k = products R !! k).
Proof.
  intros Htb Heff Hboth Hr Hp.
  assert (detect_partners R (efficiencies tb) = {[sp := 1%float]}) as Hdet.
  { apply map_eq. intros k. rewrite lookup_detect_partners.
    destruct (decide (on_both_sides R k)) as [Hk|Hk].
    - apply Hboth in Hk as ->. by rewrite lookup_singleton_eq.
    - destruct (decide (k = sp)) as [->|Hne]; [by destruct Hk; apply Hboth|].
      rewrite lookup_singleton_ne by done.
      destruct (efficiencies tb !! k) eqn:Hk'; [|done].
      destruct Hne. apply Heff. by rewrite Hk'. }
  unfold detectEfficiencies. rewrite Htb, Hdet, items_singleton. simpl.
  rewrite (adjust_coefficient_Ok _ _ _ Hr), (adjust_coefficient_Ok _ _ _ Hp).
  simpl. eexists. split; [done|]. simpl. unfold Double.neqb.
  destruct (PrimFloat.eqb (Double.trunc r) 1),
           (PrimFloat.eqb (Double.trunc p) 1); simpl.
  all: split; [done|]; split; [done|]; split; [done|].
  all: rewrite ?lookup_delete_eq, ?lookup_insert_eq.
  all: split; [done|]; split; [done|].
  all: intros k Hk; by rewrite ?lookup_delete_ne, ?lookup_insert_ne.
Qed.

(** ** What parsing leaves untouched *)

Lemma foldM_invariant {A B : Type} (P : A → Prop) (f : B → A → result A)
    (l : list B) (a a' : A) :
  (∀ b x x', f b x = Ok x' → P x → P x') →
  P a → foldM f l a = Ok a' → P a'.
Proof.
  intros Hstep. revert a. induction l as [|b l IH]; intros a Ha; simpl.
  - by intros [= <-].
  - destruct (f b a) as [x|e] eqn:Hf; simpl; [|done].
    apply IH. by eapply Hstep.
Qed.

Section ParserFrame.
Context `{!CanteraBase}.

Lemma class_add_term (kin : option Kinetics) (sp : string) (v : float)
    (side : bool) (R : Reaction) :
  class (add_term kin sp v side R) = class R.
Proof. unfold add_term. by destruct (term_invalidates kin sp v), side. Qed.

Lemma switch_side_frame (tok : string) (st : ParseState) :
  m_third_body (ps_R (switch_side tok st)) = m_third_body (ps_R st)
  ∧ class (ps_R (switch_side tok st)) = class (ps_R st).
Proof.
  unfold switch_side. destruct (_ || _); [done|].
  by destruct (String.eqb tok "=>").
Qed.

Lemma parse_iteration_frame (tokens : list string) (kin : option Kinetics)
    (i : nat) (st st' : ParseState) :
  parse_iteration tokens kin i st = Ok st' →
  m_third_body (ps_R st') = m_third_body (ps_R st)
  ∧ class (ps_R st') = class (ps_R st).
Proof.
  unfold parse_iteration. destruct (completes_term _); simpl.
  - unfold record_term.
    destruct (term_at _ _ _) as [[species stoich]|e]; simpl; [|done].
    intros [= <-]. destruct (switch_side_frame (token_at tokens (Z.of_nat i))
      (mkParseState (add_term kin species stoich (ps_reactants st) (ps_R st))
         (Z.of_nat i) (ps_reactants st))) as [-> ->].
    simpl. by rewrite third_body_add_term, class_add_term.
  - intros [= <-]. apply switch_side_frame.
Qed.

(** [parseReactionEquation] changes neither the third body nor the class. *)
Lemma parseReactionEquation_frame (R R' : Reaction) (equation : string)
    (kin : option Kinetics) :
  parseReactionEquation R equation kin = Ok R' →
  m_third_body R' = m_third_body R ∧ class R' = class R.
Proof.
  unfold parseReactionEquation, parse_tokens.
  destruct (foldM _ _ _) as [st|e] eqn:Hfold; simpl; [|done].
  intros [= <-].
  eapply (foldM_invariant
    (λ st, m_third_body (ps_R st) = m_third_body R ∧ class (ps_R st) = class R))
    in Hfold; [done| |done].
  intros i x x' Hit [Htb Hc].
  apply parse_iteration_frame in Hit as [-> ->]. done.
Qed.

End ParserFrame.

(** ** [FalloffReaction::setEquation] *)

Lemma emplace_empty {V : Type} (k : string) (v : V) :
  Composition.emplace (∅ : gmap string V) k v = {[k := v]}.
Proof. unfold Composition.emplace. by rewrite lookup_empty, insert_empty. Qed.

Lemma lookup_emplace {V : Type} (m : gmap string V) (k k' : string) (v : V) :
  Composition.emplace m k v !! k'
  = match m !! k' with
    | Some v' => Some v'
    | None => if decide (k = k') then Some v else None
    end.
Proof.
  unfold Composition.emplace. destruct (m !! k) as [w|] eqn:Hk.
  - destruct (m !! k') eqn:Hk'; [done|]. case_decide; [congruence | done].
  - rewrite lookup_insert. case_decide as Hd.
    + subst k'. by rewrite Hk.
    + by destruct (m !! k').
Qed.

Lemma find_falloff_term_Some (R : Reaction) (name : string) (c : float) :
  find_falloff_term R = Some (name, c) →
  reactants R !! name = Some c
  ∧ PrimFloat.eqb c (-1) = true ∧ starts_with name "(+" = true.
Proof.
  unfold find_falloff_term. intros [Hin Hok]%find_some.
  apply list_elem_of_In, elem_of_items in Hin.
  apply andb_true_iff in Hok as [? ?]. done.
Qed.

Lemma find_falloff_term_None (R : Reaction) :
  find_falloff_term R = None ↔
  ¬ ∃ name c, reactants R !! name = Some c
              ∧ PrimFloat.eqb c (-1) = true ∧ starts_with name "(+" = true.
Proof.
  unfold find_falloff_term. split.
  - intros Hnone (name & c & Hin & Hc & Hs).
    apply elem_of_items, list_elem_of_In in Hin.
    apply (find_none _ _ Hnone) in Hin. simpl in Hin.
    by rewrite Hc, Hs in Hin.
  - intros Hno. destruct (List.find _ _) as [[name c]|] eqn:Hfind; [|done].
    destruct Hno. exists name, c. by apply find_falloff_term_Some.
Qed.

(** The term found is the first in key order among those that qualify. *)
Lemma find_falloff_term_first (R : Reaction) (name name' : string) (c c' : float) :
  find_falloff_term R = Some (name, c) →
  reactants R !! name' = Some c' →
  PrimFloat.eqb c' (-1) = true → starts_with name' "(+" = true →
  String.leb name name' = true.
Proof.
  unfold find_falloff_term. intros Hfind Hin%elem_of_items Hc Hs.
  destruct (find_first _ Composition.key_le _ _ (items_sorted _) Hfind
              (name', c') Hin) as [[= -> ->]|Hle].
  - simpl. by rewrite Hc, Hs.
  - apply leb_refl.
  - by apply Is_true_true.
Qed.

(** The interior of a bracket "(+X)" is "X". *)
Lemma substring_prefix (X rest : string) :
  String.substring 0 (String.length X) (String.append X rest) = X.
Proof. induction X as [|a X IH]; simpl; [by destruct rest | by rewrite IH]. Qed.

Lemma length_append (s1 s2 : string) :
  String.length (String.append s1 s2) = (String.length s1 + String.length s2)%nat.
Proof. induction s1 as [|a s1 IH]; simpl; [done | by rewrite IH]. Qed.

Lemma interior_name_bracket (X : string) :
  Z.of_nat (String.length X) + 3 < Double.size_t_modulus →
  interior_name (String.append "(+" (String.append X ")")) = X.
Proof.
  intros Hlen. unfold interior_name, substr, size_sub.
  unfold Double.size_t_modulus in *.
  assert (String.length (String.append "(+" (String.append X ")"))
          = (String.length X + 3)%nat) as ->
    by (rewrite !length_append; simpl; lia).
  replace (Z.of_nat (String.length X + 3) - 3)
    with (Z.of_nat (String.length X)) by lia.
  rewrite Z.mod_small by lia.
  rewrite Z.min_l by lia. rewrite Nat2Z.id.
  change (Z.to_nat 2) with 2%nat.
  exact (substring_prefix X ")").
Qed.

Lemma starts_with_nonempty (name : string) :
  starts_with name "(+" = true → String.eqb name "" = false.
Proof. by destruct name. Qed.

Section Falloff.
Context `{!CanteraBase}.

(** C4 (amended): let [R1] be the reaction after generic parsing and [tb] the
    third body.  [FalloffReaction::setEquation] looks, in key order, for a
    reactant with coefficient -1 and a name starting with "(+".  If there is
    none it throws; if the term found is not among the products it throws;
    otherwise that entry is removed from both sides, and when the interior
    of the name is "M", [specified_collision_partner] is set to false and
    the efficiencies are kept, while for any other interior name
    [default_efficiency] becomes 0, [specified_collision_partner] true, and
    the name is entered with efficiency 1.0 unless the map already has an
    entry for it; entries already in the map are kept, so the partner is
    the sole entry {name: 1.0} when the map was empty beforehand. *)
Theorem FalloffReaction_setEquation_outcomes (R R1 : Reaction) (tb : ThirdBody)
    (equation : string) (kin : option Kinetics) :
  Reaction_setEquation R equation kin = Ok R1 →
  m_third_body R = Some tb →
  (find_falloff_term R1 = None ↔
     ¬ ∃ name c, reactants R1 !! name = Some c
                 ∧ PrimFloat.eqb c (-1) = true ∧ starts_with name "(+" = true)
  ∧ (find_falloff_term R1 = None →
       FalloffReaction_setEquation R equation kin = Throw FalloffNoThirdBody)
  ∧ (∀ name c, find_falloff_term R1 = Some (name, c) →
       let third_body := interior_name name in
       reactants R1 !! name = Some c
       ∧ PrimFloat.eqb c (-1) = true ∧ starts_with name "(+" = true
       ∧ (∀ name' c', reactants R1 !! name' = Some c' →
            PrimFloat.eqb c' (-1) = true → starts_with name' "(+" = true →
            String.leb name name' = true)
       ∧ (products R1 !! name = None →
            FalloffReaction_setEquation R equation kin
            = Throw (FalloffUnmatchedThirdBody third_body))
       ∧ (is_Some (products R1 !! name) →
            ∃ R2 tb2, FalloffReaction_setEquation R equation kin = Ok R2
              ∧ reactants R2 = delete name (reactants R1)
              ∧ products R2 = delete name (products R1)
              ∧ m_third_body R2 = Some tb2
              ∧ mass_action tb2 = mass_action tb
              ∧ (third_body = "M" →
                   specified_collision_partner tb2 = false
                   ∧ efficiencies tb2 = efficiencies tb
                   ∧ default_efficiency tb2 = default_efficiency tb)
              ∧ (third_body ≠ "M" →
                   specified_collision_partner tb2 = true
                   ∧ default_efficiency tb2 = 0%float
                   ∧ efficiencies tb2
                     = Composition.emplace (efficiencies tb) third_body 1%float
                   ∧ (∀ k, efficiencies tb2 !! k
                           = match efficiencies tb !! k with
                             | Some e => Some e
                             | None => if decide (third_body = k)
                                       then Some 1%float else None
                             end)
                   ∧ (efficiencies tb = ∅ →
                        efficiencies tb2 = {[third_body := 1%float]})))).
Proof.
  intros Hparse Htb.
  pose proof Hparse as [Htb1 _]%parseReactionEquation_frame.
  rewrite Htb in Htb1.
  split; [apply find_falloff_term_None|]. split.
  - intros Hnone. unfold FalloffReaction_setEquation.
    rewrite Hparse. simpl. by rewrite Hnone.
  - intros name c Hfind. simpl.
    pose proof (find_falloff_term_Some _ _ _ Hfind) as (Hr & Hc & Hs).
    do 3 (split; [done|]).
    split; [intros name' c' Hr' Hc' Hs'; by eapply find_falloff_term_first|].
    unfold FalloffReaction_setEquation. rewrite Hparse. simpl.
    rewrite Hfind. simpl. rewrite (starts_with_nonempty _ Hs).
    unfold Composition.count. split.
    + intros Hp. by rewrite Hp.
    + intros [p Hp]. rewrite Hp. simpl. rewrite Htb1.
      destruct (String.eqb_spec (interior_name name) "M") as [HM|HM].
      * eexists _, _. split; [done|]. simpl.
        do 4 (split; [done|]). split; [done|]. by intros ?.
      * eexists _, _. split; [done|]. simpl.
        do 4 (split; [done|]). split; [by intros ?|]. intros _.
        do 3 (split; [done|]). split.
        -- intros k. apply lookup_emplace.
        -- intros ->. apply emplace_empty.
Qed.

End Falloff.

(** ** The invariant of [ThirdBody] *)

Section ThirdBodyInvariant.
Context `{!CanteraBase}.

Lemma detectEfficiencies_invariant (R R' : Reaction) (found : bool) :
  detectEfficiencies R = Ok (found, R') →
  third_body_invariant R → third_body_invariant R'.
Proof.
  unfold detectEfficiencies.
  destruct (m_third_body R) as [tb|] eqn:Htb; [|done].
  destruct (Composition.items _) as [|[sp e] [|? ?]] eqn:Hitems; [| |done].
  - by intros [= <- <-].
  - simpl.
    destruct (adjust_coefficient (reactants R) sp) as [reac|] eqn:Hreac;
      simpl; [|done].
    destruct (adjust_coefficient (products R) sp) as [prod|] eqn:Hprod;
      simpl; [|done].
    intros [= <- <-] _ tb' [= <-] _. simpl.
    apply items_singleton_inv in Hitems. simpl in Hitems.
    split; [|done]. exists sp. rewrite Hitems. f_equal.
    assert (detect_partners R (efficiencies tb) !! sp = Some 1%float) as H1.
    { rewrite lookup_detect_partners, decide_True; [done|].
      split; by eapply adjust_coefficient_inv. }
    rewrite Hitems, lookup_singleton_eq in H1. congruence.
Qed.

Lemma ThreeBodyReaction_setEquation_invariant (R R' : Reaction)
    (equation : string) (kin : option Kinetics) :
  ThreeBodyReaction_setEquation R equation kin = Ok R' →
  third_body_invariant R → third_body_invariant R'.
Proof.
  unfold ThreeBodyReaction_setEquation, Reaction_setEquation.
  destruct (parseReactionEquation R equation kin) as [R1|] eqn:Hparse;
    simpl; [|done].
  apply parseReactionEquation_frame in Hparse as [Htb _].
  intros Hres Hinv.
  assert (third_body_invariant R1) as Hinv1
    by (unfold third_body_invariant; by rewrite Htb).
  destruct (_ || _).
  - destruct (detectEfficiencies R1) as [[found R2]|] eqn:Hdet; simpl in Hres;
      [|done].
    destruct found; simpl in Hres; [|done]. injection Hres as <-.
    by eapply detectEfficiencies_invariant.
  - by injection Hres as <-.
Qed.

Lemma FalloffReaction_setEquation_invariant (R R' : Reaction)
    (equation : string) (kin : option Kinetics) :
  FalloffReaction_setEquation R equation kin = Ok R' →
  no_efficiencies R → third_body_invariant R'.
Proof.
  unfold FalloffReaction_setEquation, Reaction_setEquation.
  destruct (parseReactionEquation R equation kin) as [R1|] eqn:Hparse;
    simpl; [|done].
  apply parseReactionEquation_frame in Hparse as [Htb _].
  destruct (match find_falloff_term R1 with Some _ => _ | None => _ end)
    as [third_body_str third_body].
  destruct (String.eqb third_body_str ""); [done|].
  destruct (_ =? 0); [done|]. simpl. rewrite Htb.
  destruct (m_third_body R) as [tb|] eqn:HtbR; [|done].
  intros Hres Hempty. specialize (Hempty tb HtbR).
  destruct (String.eqb third_body "M"); injection Hres as <-;
    intros tb' [= <-]; unfold partner_invariant; simpl; [done|].
  intros _. split; [|done]. exists third_body.
  rewrite Hempty. apply emplace_empty.
Qed.

(** The steps of [Reaction::setParameters] after [setEquation]. *)
Lemma set_node_orders_third_body (R : Reaction) (os : gmap string float)
    (kin : Kinetics) :
  m_third_body (set_node_orders R os kin) = m_third_body R.
Proof.
  unfold set_node_orders. generalize (Composition.items os). intros l.
  revert R. induction l as [|order l IH]; intros R; simpl; [done|].
  rewrite IH. by destruct (_ =? npos).
Qed.

Lemma set_node_efficiencies_invariant (R R' : Reaction) (node : AnyMap) :
  set_node_efficiencies R node = Ok R' →
  third_body_invariant R → third_body_invariant R'.
Proof.
  unfold set_node_efficiencies.
  destruct (m_third_body R) as [tb|] eqn:Htb; [|done].
  destruct (specified_collision_partner tb) eqn:Hs; simpl.
  - by intros [= <-].
  - intros [= <-] _ tb' [= <-]. unfold partner_invariant. simpl. congruence.
Qed.

Lemma Reaction_setParameters_invariant (R R' : Reaction) (node : AnyMap)
    (kin : Kinetics) :
  Reaction_setParameters R node kin = Ok R' →
  third_body_invariant R →
  class R = ThreeBodyClass ∨ (class R = FalloffClass ∧ no_efficiencies R) →
  third_body_invariant R'.
Proof.
  unfold Reaction_setParameters.
  destruct (AnyMap_is_empty node); [by intros [= <-]|].
  destruct (node_equation node) as [equation|]; simpl; [|done].
  destruct (setEquation (set_input node R) equation (Some kin))
    as [R1|] eqn:Heq; simpl; [|done].
  intros [= <-] Hinv Hclass.
  assert (third_body_invariant R1) as Hinv1.
  { unfold setEquation in Heq. simpl in Heq.
    destruct Hclass as [Hc|[Hc Hempty]]; rewrite Hc in Heq.
    - by eapply ThreeBodyReaction_setEquation_invariant.
    - by eapply FalloffReaction_setEquation_invariant. }
  unfold third_body_invariant. simpl.
  destruct (node_orders node); [by rewrite set_node_orders_third_body | done].
Qed.

(** On a falloff reaction without efficiencies, a node that is not empty
    establishes the invariant, whatever the third body was before. *)
Lemma Reaction_setParameters_falloff_invariant (R R' : Reaction) (node : AnyMap)
    (kin : Kinetics) :
  AnyMap_is_empty node = false →
  Reaction_setParameters R node kin = Ok R' →
  class R = FalloffClass → no_efficiencies R →
  third_body_invariant R'.
Proof.
  intros Hne. unfold Reaction_setParameters. rewrite Hne.
  destruct (node_equation node) as [equation|]; simpl; [|done].
  destruct (setEquation (set_input node R) equation (Some kin))
    as [R1|] eqn:Heq; simpl; [|done].
  intros [= <-] Hc Hempty.
  assert (third_body_invariant R1) as Hinv1.
  { unfold setEquation in Heq. simpl in Heq. rewrite Hc in Heq.
    by eapply FalloffReaction_setEquation_invariant. }
  unfold third_body_invariant. simpl.
  destruct (node_orders node); [by rewrite set_node_orders_third_body | done].
Qed.

(** C5 (amended): for a [ThreeBodyReaction] the invariant "a specified
    collision partner is the single entry of the efficiency map, with value
    1.0, and the default efficiency is 0" is preserved by
    [detectEfficiencies], [setEquation] and [setParameters] whenever they
    complete; for a [FalloffReaction] whose efficiency map is empty
    beforehand, as it is on a newly constructed reaction, the invariant
    holds after [setEquation] and after [setParameters] with a node that is
    not empty, whatever the third body was before; [setParameters] with an
    empty node returns the reaction as it was, for every class. *)
Theorem third_body_invariant_preserved :
  (∀ R R' found,
     detectEfficiencies R = Ok (found, R') →
     third_body_invariant R → third_body_invariant R')
  ∧ (∀ R R' equation kin,
       class R = ThreeBodyClass →
       setEquation R equation kin = Ok R' →
       third_body_invariant R → third_body_invariant R')
  ∧ (∀ R R' node kin,
       class R = ThreeBodyClass →
       setParameters R node kin = Ok R' →
       third_body_invariant R → third_body_invariant R')
  ∧ (∀ R R' equation kin,
       class R = FalloffClass →
       setEquation R equation kin = Ok R' →
       no_efficiencies R → third_body_invariant R')
  ∧ (∀ R R' node kin,
       class R = FalloffClass →
       AnyMap_is_empty node = false →
       setParameters R node kin = Ok R' →
       no_efficiencies R → third_body_invariant R')
  ∧ (∀ R node kin,
       AnyMap_is_empty node = true → setParameters R node kin = Ok R)
  ∧ third_body_invariant ThreeBodyReaction_new
  ∧ third_body_invariant FalloffReaction_new
  ∧ no_efficiencies FalloffReaction_new.
Proof.
  split; [apply detectEfficiencies_invariant|].
  split.
  { intros R R' equation kin Hc. unfold setEquation. rewrite Hc.
    apply ThreeBodyReaction_setEquation_invariant. }
  split.
  { intros R R' node kin Hc. unfold setParameters. rewrite Hc.
    unfold ThreeBodyReaction_setParameters.
    destruct (AnyMap_is_empty node); [by intros [= <-]|].
    destruct (Reaction_setParameters R node kin) as [R1|] eqn:Hset;
      simpl; [|done].
    intros Hres Hinv. eapply set_node_efficiencies_invariant; [done|].
    eapply Reaction_setParameters_invariant; eauto. }
  split.
  { intros R R' equation kin Hc. unfold setEquation. rewrite Hc.
    apply FalloffReaction_setEquation_invariant. }
  split.
  { intros R R' node kin Hc Hne. unfold setParameters. rewrite Hc.
    unfold FalloffReaction_setParameters. rewrite Hne.
    destruct (Reaction_setParameters R node kin) as [R1|] eqn:Hset;
      simpl; [|done].
    intros Hres Hempty. eapply set_node_efficiencies_invariant; [done|].
    by eapply Reaction_setParameters_falloff_invariant. }
  split.
  { intros R node kin He. unfold setParameters, ThreeBodyReaction_setParameters,
      FalloffReaction_setParameters, Reaction_setParameters.
    rewrite He. by destruct (class R). }
  split; [|split].
  - intros tb [= <-]. by intros ?.
  - intros tb [= <-]. by intros ?.
  - by intros tb [= <-].
Qed.

End ThirdBodyInvariant.

(** ** [isThreeBody] *)

Lemma count_candidates_length (R : Reaction) :
  count_candidates R
  = length (List.filter (is_candidate R) (Composition.items (reactants R))).
Proof.
  unfold count_candidates.
  assert (∀ l n,
    fold_left (λ found (reac : string * float),
      match products R !! reac.1 with
      | Some prod =>
          if Double.is_integral reac.2 && Double.is_integral prod
          then S found else found
      | None => found
      end) l n
    = (n + length (List.filter (is_candidate R) l))%nat) as Hgen.
  { induction l as [|reac l IH]; intros n; simpl; [lia|].
    rewrite IH. unfold is_candidate.
    destruct (products R !! reac.1); [|done].
    destruct (_ && _); simpl; lia. }
  by rewrite Hgen.
Qed.

Lemma is_candidate_true (R : Reaction) (k : string) (r : float) :
  reactants R !! k = Some r →
  is_candidate R (k, r) = true ↔ candidate R k.
Proof.
  intros Hr. unfold is_candidate, candidate. simpl. split.
  - destruct (products R !! k) as [p|] eqn:Hp; [|done].
    intros [? ?]%andb_true_iff. eauto 6.
  - intros (r' & p & Hr' & Hp & Hir & Hip). rewrite Hp.
    assert (r' = r) as -> by congruence. by rewrite Hir, Hip.
Qed.

Lemma count_candidates_one (R : Reaction) :
  count_candidates R = 1%nat ↔ exactly_one (candidate R).
Proof.
  rewrite count_candidates_length.
  pose proof (NoDup_items (reactants R)) as Hnd.
  apply NoDup_ListNoDup, (List.NoDup_filter (is_candidate R)),
    NoDup_ListNoDup in Hnd.
  assert (∀ reac, In reac (List.filter (is_candidate R)
                             (Composition.items (reactants R))) ↔
                  reactants R !! reac.1 = Some reac.2 ∧ candidate R reac.1)
    as Hin.
  { intros [k r]. rewrite filter_In, <-list_elem_of_In, elem_of_items. simpl.
    split; intros [Hr Hc]; (split; [done|]); by apply (is_candidate_true R k r). }
  destruct (List.filter _ _) as [|[k r] [|[k2 r2] l]]; simpl.
  - split; [done|]. intros (k & (r & p & Hr & Hrest) & _).
    exfalso. apply (proj2 (Hin (k, r))). split; [done|].
    exists r, p. by split.
  - split; [intros _|done].
    assert (In (k, r) [(k, r)]) as [Hr Hc]%Hin by (by left).
    exists k. split; [done|]. intros k' (r' & p' & Hr' & Hrest).
    assert (In (k', r') [(k, r)]) as [[= -> ->]|[]]; [|done].
    apply Hin. split; [done|]. exists r', p'. by split.
  - split; [done|]. intros (k0 & _ & Huniq).
    assert (In (k, r) ((k, r) :: (k2, r2) :: l)) as [Hr Hc]%Hin by (by left).
    assert (In (k2, r2) ((k, r) :: (k2, r2) :: l)) as [Hr2 Hc2]%Hin
      by (by right; left).
    simpl in *. apply Huniq in Hc, Hc2. subst k k2.
    assert (r2 = r) as -> by congruence.
    apply NoDup_cons in Hnd as [Hnotin _]. destruct Hnotin. by left.
Qed.

Lemma size_add_assoc (n k s : Z) :
  (size_add n k + s) mod Double.size_t_modulus
  = (n + (k + s)) mod Double.size_t_modulus.
Proof.
  unfold size_add. rewrite Zplus_mod_idemp_l. f_equal. lia.
Qed.

(** The counting loops, when every conversion is defined: the early
    [return false] at a coefficient that is not an integer, otherwise the
    sum of the coefficients modulo 2^64. *)
Lemma count_species_eq (side : list (string * float)) (n : Z) :
  (∀ sp, sp ∈ side → Double.is_integral sp.2 = true →
         is_Some (Double.to_size_t sp.2)) →
  ∃ res, count_species side n = Ok res
    ∧ match res with
      | None => ∃ sp, sp ∈ side ∧ Double.is_integral sp.2 = false
      | Some total =>
          (∀ sp, sp ∈ side → Double.is_integral sp.2 = true)
          ∧ total mod Double.size_t_modulus
            = (n + foldr (λ (sp : string * float) acc,
                            default 0 (Double.to_Z sp.2) + acc) 0 side)
              mod Double.size_t_modulus
          ∧ (0 ≤ n < Double.size_t_modulus → 0 ≤ total < Double.size_t_modulus)
      end.
Proof.
  revert n. induction side as [|sp side IH]; intros n Hrep; simpl.
  - exists (Some n). split; [done|]. split; [|split; [|done]].
    + intros sp Hsp. by apply elem_of_nil in Hsp.
    + f_equal. lia.
  - unfold Double.neqb. fold (Double.is_integral sp.2).
    destruct (Double.is_integral sp.2) eqn:Hint; simpl.
    + destruct (Hrep sp) as [k Hk]; [by left | done |]. rewrite Hk.
      destruct (IH (size_add n k)) as (res & -> & Hres).
      { intros sp' Hsp'. apply Hrep. by right. }
      exists res. split; [done|]. destruct res as [total|].
      * destruct Hres as (Hall & Hsum & Hrange). split; [|split].
        -- intros sp' [->|Hsp']%elem_of_cons; auto.
        -- rewrite Hsum. unfold Double.to_size_t in Hk.
           destruct (Double.to_Z sp.2) as [v|]; [|done]. simpl.
           destruct (_ && _); [|done]. injection Hk as ->.
           apply size_add_assoc.
        -- intros _. apply Hrange. unfold size_add.
           apply Z.mod_pos_bound. done.
      * destruct Hres as (sp' & Hsp' & Hno). exists sp'. split; [by right|done].
    + exists None. split; [done|]. exists sp. split; [by left | done].
Qed.

Lemma count_species_items (comp : gmap string float) :
  (∀ k c, comp !! k = Some c → Double.is_integral c = true →
          is_Some (Double.to_size_t c)) →
  ∃ res, count_species (Composition.items comp) 0 = Ok res
    ∧ match res with
      | None => ¬ all_integral comp
      | Some total =>
          all_integral comp
          ∧ total = stoich_count comp mod Double.size_t_modulus
      end.
Proof.
  intros Hrep.
  destruct (count_species_eq (Composition.items comp) 0) as (res & Hres & Hspec).
  { intros [k c] Hin%elem_of_items. by apply (Hrep k). }
  exists res. split; [done|]. destruct res as [total|].
  - destruct Hspec as (Hall & Hsum & Hrange). split.
    + intros k c Hk. by apply (Hall (k, c)), elem_of_items.
    + unfold stoich_count. rewrite Z.add_0_l in Hsum. rewrite <-Hsum.
      symmetry. apply Z.mod_small, Hrange. by compute.
  - destruct Hspec as ([k c] & Hin%elem_of_items & Hno). intros Hall.
    apply Hall in Hin. simpl in Hno. congruence.
Qed.

(** C3 (amended): for every reaction whose integer coefficients lie in
    [0, 2^64), so that the conversions to [size_t] are defined,
    [isThreeBody] returns a value, and that value is true if and only if
    (a) exactly one species appears on both sides with an integer
    coefficient on each side (the two coefficients need not be equal),
    (b) every reactant coefficient and every product coefficient is an
    integer, and (c) the sum of the coefficients of the reactant side or of
    the product side, taken modulo 2^64, equals three. *)
Theorem isThreeBody_iff (R : Reaction) :
  counts_representable R →
  ∃ b, isThreeBody R = Ok b
    ∧ (b = true ↔
         exactly_one (candidate R)
         ∧ all_integral (reactants R) ∧ all_integral (products R)
         ∧ (stoich_count (reactants R) mod Double.size_t_modulus = 3
            ∨ stoich_count (products R) mod Double.size_t_modulus = 3)).
Proof.
  intros Hrep. unfold isThreeBody.
  pose proof (count_candidates_one R) as Hone.
  destruct (Nat.eqb_spec (count_candidates R) 1) as [Hc|Hc]; simpl.
  2: { exists false. split; [done|]. split; [done|].
       intros (Hex & _). by apply Hone in Hex. }
  apply Hone in Hc. clear Hone.
  destruct (count_species_items (reactants R)) as (nreac & -> & Hreac).
  { intros k c Hk. apply (Hrep k c). by left. }
  simpl. destruct nreac as [nreac|].
  2: { exists false. split; [done|]. split; [done|]. by intros (_ & ? & _). }
  destruct Hreac as [Hrint ->].
  destruct (count_species_items (products R)) as (nprod & -> & Hprod).
  { intros k c Hk. apply (Hrep k c). by right. }
  simpl. destruct nprod as [nprod|].
  2: { exists false. split; [done|]. split; [done|]. by intros (_ & _ & ? & _). }
  destruct Hprod as [Hpint ->].
  eexists. split; [done|].
  rewrite orb_true_iff, !Z.eqb_eq. tauto.
Qed.
(** * Further properties *)

Ltac size_arith :=
  unfold size_sub, size_add, npos, Double.size_t_modulus in *;
  change (2 ^ 64) with 18446744073709551616 in *;
  Z.div_mod_to_equations; lia.

(** ** What parsing changes *)

Section ParserMembers.
Context `{!CanteraBase}.

Lemma keeps_members_refl R : keeps_members R R.
Proof. by repeat split. Qed.

Lemma keeps_members_trans R1 R2 R3 :
  keeps_members R1 R2 → keeps_members R2 R3 → keeps_members R1 R3.
Proof.
  unfold keeps_members. intros (?&?&?&?&?&?&?&?) (?&?&?&?&?&?&?&?).
  repeat split; congruence.
Qed.

Lemma add_term_keeps kin sp v side R : keeps_members R (add_term kin sp v side R).
Proof. unfold add_term. by destruct (term_invalidates kin sp v), side. Qed.

Lemma valid_add_term kin sp v side R :
  m_valid (add_term kin sp v side R) = m_valid R && negb (term_invalidates kin sp v).
Proof.
  unfold add_term. destruct (term_invalidates kin sp v), side; simpl;
    by rewrite ?andb_true_r, ?andb_false_r.
Qed.

Lemma switch_side_R tok st :
  ∃ b, ps_R (switch_side tok st) = ps_R st
       ∨ ps_R (switch_side tok st) = set_reversible b (ps_R st).
Proof.
  unfold switch_side. exists (negb (String.eqb tok "=>")).
  destruct (_ || _) eqn:E; simpl.
  - right. f_equal. destruct (String.eqb_spec tok "=>") as [->|]; [done|done].
  - destruct (String.eqb tok "=>"); simpl; auto.
Qed.

(** The reaction after one iteration: the one before, with at most one
    term added and the reversibility flag possibly assigned. *)
Lemma parse_iteration_R tokens kin i st st' :
  parse_iteration tokens kin i st = Ok st' →
  ∃ R1, (R1 = ps_R st ∨ ∃ sp v, R1 = add_term kin sp v (ps_reactants st) (ps_R st))
        ∧ (ps_R st' = R1 ∨ ∃ b, ps_R st' = set_reversible b R1).
Proof.
  unfold parse_iteration. destruct (completes_term _); simpl.
  - unfold record_term.
    destruct (term_at _ _ _) as [[species stoich]|e]; simpl; [|done].
    intros [= <-].
    exists (add_term kin species stoich (ps_reactants st) (ps_R st)).
    split; [right; eauto|].
    destruct (switch_side_R (token_at tokens (Z.of_nat i))
      (mkParseState (add_term kin species stoich (ps_reactants st) (ps_R st))
         (Z.of_nat i) (ps_reactants st))) as [b [Hb|Hb]]; simpl in Hb; eauto.
  - intros [= <-]. exists (ps_R st). split; [by left|].
    destruct (switch_side_R (token_at tokens (Z.of_nat i)) st) as [b [Hb|Hb]]; eauto.
Qed.

(** A property of the reaction kept by adding a term and by assigning the
    reversibility flag is kept by parsing. *)
Lemma parseReactionEquation_invariant (P : Reaction → Prop) (R R' : Reaction)
    (equation : string) (kin : option Kinetics) :
  (∀ sp v side R, P R → P (add_term kin sp v side R)) →
  (∀ b R, P R → P (set_reversible b R)) →
  parseReactionEquation R equation kin = Ok R' →
  P R → P R'.
Proof.
  intros Hadd Hrev. unfold parseReactionEquation, parse_tokens.
  destruct (foldM _ _ _) as [st|e] eqn:Hfold; simpl; [|done].
  intros [= <-] HR.
  eapply (foldM_invariant (λ st, P (ps_R st))) in Hfold; [done| |done].
  intros i x x' Hit Hx.
  apply parse_iteration_R in Hit as (R1 & HR1 & HR').
  assert (P R1) as HP1.
  { destruct HR1 as [->|(sp & v & ->)]; auto. }
  destruct HR' as [->|[b ->]]; auto.
Qed.

Lemma parseReactionEquation_keeps (R R' : Reaction) (equation : string)
    (kin : option Kinetics) :
  parseReactionEquation R equation kin = Ok R' →
  keeps_members R R' ∧ m_third_body R' = m_third_body R
  ∧ (valid R = false → valid R' = false).
Proof.
  intros Hparse.
  eapply (parseReactionEquation_invariant
    (λ R', keeps_members R R' ∧ m_third_body R' = m_third_body R
           ∧ (valid R = false → valid R' = false)));
    [ | |exact Hparse|].
  - intros sp v side R1 (Hk & Htb & Hv). split; [|split].
    + eapply keeps_members_trans; [done|apply add_term_keeps].
    + by rewrite third_body_add_term.
    + intros Hf. unfold valid. rewrite valid_add_term.
      unfold valid in Hv. by rewrite Hv.
  - intros b R1 (Hk & Htb & Hv). split; [|done].
    eapply keeps_members_trans; [done|by repeat split].
  - split; [apply keeps_members_refl|done].
Qed.

Lemma add_term_keeps_species kin sp v side R (k : string) :
  (is_Some (reactants R !! k) → is_Some (reactants (add_term kin sp v side R) !! k))
  ∧ (is_Some (products R !! k) → is_Some (products (add_term kin sp v side R) !! k)).
Proof.
  unfold add_term, Composition.add.
  destruct (term_invalidates kin sp v), side; simpl; split; intros Hk; try done;
    (destruct (decide (sp = k)) as [->|Hne];
       [by rewrite lookup_insert_eq|by rewrite lookup_insert_ne]).
Qed.

(** X1: when [parseReactionEquation] returns, the reaction has the class,
    the orders, the identifier, the flags, the input node, the rate and the
    third body it had before: only the two compositions, the reversibility
    flag and the validity flag can differ; a reaction that was invalid
    before is invalid afterwards, whatever the equation; and every species
    that was among the reactants or the products before is still there:
    parsing adds to the compositions of the reaction it is given and
    removes nothing. *)
Theorem parseReactionEquation_keeps_members (R R' : Reaction) (equation : string)
    (kin : option Kinetics) :
  parseReactionEquation R equation kin = Ok R' →
  keeps_members R R' ∧ m_third_body R' = m_third_body R
  ∧ (valid R = false → valid R' = false)
  ∧ (∀ k, is_Some (reactants R !! k) → is_Some (reactants R' !! k))
  ∧ (∀ k, is_Some (products R !! k) → is_Some (products R' !! k)).
Proof.
  intros Hparse.
  destruct (parseReactionEquation_keeps _ _ _ _ Hparse) as (Hk & Htb & Hv).
  do 3 (split; [done|]).
  eapply (parseReactionEquation_invariant
    (λ R', (∀ k, is_Some (reactants R !! k) → is_Some (reactants R' !! k))
           ∧ (∀ k, is_Some (products R !! k) → is_Some (products R' !! k))));
    [ | |exact Hparse|done].
  - intros sp v side R1 [Hr Hp]. split; intros k Hs.
    + by apply add_term_keeps_species, Hr.
    + by apply add_term_keeps_species, Hp.
  - intros b R1 HR1. exact HR1.
Qed.

Lemma switch_side_not_separator tok st :
  is_separator tok = false → switch_side tok st = st.
Proof.
  unfold is_separator, switch_side. intros Hs.
  apply orb_false_elim in Hs as [H1 H3].
  by rewrite H1, H3.
Qed.

Lemma token_at_elem_of tokens i :
  token_at tokens i = "" ∨ token_at tokens i ∈ tokens.
Proof.
  unfold token_at. destruct (tokens !! Z.to_nat i) as [tok|] eqn:E; simpl.
  - right. by eapply list_elem_of_lookup_2.
  - by left.
Qed.

(** X2: an equation without tokens leaves the reaction as it is; an equation
    of one token [A] is accepted and records [A] as a reactant with
    coefficient 1; and whenever no token of the equation is "<=>", "=" or
    "=>", parsing, if it returns, leaves the products and the reversibility
    flag as they were: every term goes to the reactants. *)
Theorem parse_equation_without_arrow :
  (∀ R equation kin,
     tokenizeString equation = [] →
     parseReactionEquation R equation kin = Ok R)
  ∧ (∀ R equation kin A,
       tokenizeString equation = [A] →
       parseReactionEquation R equation kin = Ok (add_term kin A 1 true R))
  ∧ (∀ R R' equation kin,
       (∀ tok, tok ∈ tokenizeString equation → is_separator tok = false) →
       parseReactionEquation R equation kin = Ok R' →
       products R' = products R ∧ reversible R' = reversible R).
Proof.
  split; [|split].
  - intros R equation kin Htok. unfold parseReactionEquation. by rewrite Htok.
  - intros R equation kin A Htok. unfold parseReactionEquation, parse_tokens.
    rewrite Htok. cbn [app length Nat.sub seq foldM].
    parse_term 1%nat. done.
  - intros R R' equation kin Hsep. unfold parseReactionEquation, parse_tokens.
    destruct (foldM _ _ _) as [st|e] eqn:Hfold; simpl; [|done].
    intros [= <-].
    eapply (foldM_invariant (λ st, ps_reactants st = true
              ∧ products (ps_R st) = products R
              ∧ reversible (ps_R st) = reversible R)) in Hfold;
      [tauto| |done].
    intros i x x' Hit (Hside & Hp & Hr).
    assert (is_separator (token_at (tokenizeString equation ++ ["+"]) (Z.of_nat i))
            = false) as Hi.
    { destruct (token_at_elem_of (tokenizeString equation ++ ["+"]) (Z.of_nat i))
        as [->|Hin]; [done|].
      apply elem_of_app in Hin as [Hin|Hin]; [auto|].
      apply list_elem_of_singleton in Hin. by rewrite Hin. }
    unfold parse_iteration in Hit.
    destruct (completes_term _); simpl in Hit.
    + unfold record_term in Hit.
      destruct (term_at _ _ _) as [[species stoich]|e]; simpl in Hit; [|done].
      rewrite switch_side_not_separator in Hit by done.
      injection Hit as <-. simpl. rewrite Hside.
      rewrite products_add_term, reversible_add_term. done.
    + rewrite switch_side_not_separator in Hit by done.
      by injection Hit as <-.
Qed.

(** validity *)
Lemma add_term_is_Some kin sp v side R k :
  is_Some (reactants (add_term kin sp v side R) !! k)
  ∨ is_Some (products (add_term kin sp v side R) !! k)
  ↔ k = sp ∨ is_Some (reactants R !! k) ∨ is_Some (products R !! k).
Proof.
  rewrite reactants_add_term, products_add_term.
  destruct side; rewrite add_is_Some; naive_solver.
Qed.

(** X3: parsing with a mechanism keeps a valid reaction valid when every
    species found among the reactants and products afterwards is declared
    in the mechanism or is "M": the validity flag is cleared only for a
    species the mechanism does not know. *)
Theorem parse_keeps_valid_when_declared (R R' : Reaction) (equation : string)
    (kin : Kinetics) :
  parseReactionEquation R equation (Some kin) = Ok R' →
  valid R = true →
  (∀ k, is_Some (reactants R' !! k) ∨ is_Some (products R' !! k) →
        k = "M" ∨ kineticsSpeciesIndex kin k ≠ npos) →
  valid R' = true.
Proof.
  intros Hparse HR.
  eapply (parseReactionEquation_invariant
    (λ R', (∀ k, is_Some (reactants R' !! k) ∨ is_Some (products R' !! k) →
                 k = "M" ∨ kineticsSpeciesIndex kin k ≠ npos) → valid R' = true));
    [ | |exact Hparse|by intros _].
  - intros sp v side R1 IH Hkeys. unfold valid. rewrite valid_add_term.
    apply andb_true_intro. split.
    + apply IH. intros k Hk. apply Hkeys, add_term_is_Some. tauto.
    + destruct (Hkeys sp) as [->|Hsp]; [apply add_term_is_Some; by left| |].
      * simpl. by rewrite andb_false_r.
      * simpl. apply Z.eqb_neq in Hsp. by rewrite Hsp.
  - intros b R1 IH Hkeys. apply IH, Hkeys.
Qed.

End ParserMembers.

(** ** Parsing well-formed equations

    The loop is followed on its indices: a term is recorded at the token
    that completes it, from the index of the last token used. *)

Section ParserGrammar.
Context `{!CanteraBase}.

Lemma occurs_at_app T p a b :
  occurs_at T p (a ++ b) ↔ occurs_at T p a ∧ occurs_at T (p + length a) b.
Proof.
  unfold occurs_at. split.
  - intros Hab. split.
    + intros j tok Hj. apply Hab. by apply lookup_app_l_Some.
    + intros j tok Hj. rewrite <-Nat.add_assoc. apply Hab.
      rewrite lookup_app_r by lia. by replace (length a + j - length a)%nat with j by lia.
  - intros [Ha Hb] j tok Hj.
    apply lookup_app_Some in Hj as [Hj|[Hle Hj]]; [by apply Ha|].
    replace (p + j)%nat with (p + length a + (j - length a))%nat by lia.
    by apply Hb.
Qed.

Lemma occurs_at_cons T p a b :
  occurs_at T p (a :: b) ↔ T !! p = Some a ∧ occurs_at T (S p) b.
Proof.
  unfold occurs_at. split.
  - intros Hab. split.
    + specialize (Hab 0%nat a eq_refl). by rewrite Nat.add_0_r in Hab.
    + intros j tok Hj. replace (S p + j)%nat with (p + S j)%nat by lia.
      by apply Hab.
  - intros [Ha Hb] [|j] tok Hj; simpl in Hj.
    + injection Hj as <-. by rewrite Nat.add_0_r.
    + replace (p + S j)%nat with (S p + j)%nat by lia. by apply Hb.
Qed.

Lemma prev_ok_after T (p : nat) (tok : string) :
  T !! p = Some tok → tok ≠ "(+" → prev_ok T (p + 1).
Proof.
  intros Hp Htok. replace (p + 1)%nat with (S p) by lia. simpl.
  rewrite Hp. congruence.
Qed.

Lemma occurs_at_self T : occurs_at T 0 T.
Proof. by intros j tok Hj. Qed.

Lemma occurs_at_snoc T p toks c :
  occurs_at T p toks → T !! (p + length toks)%nat = Some c →
  occurs_at T p (toks ++ [c]).
Proof.
  intros Htoks Hc. apply occurs_at_app. split; [done|].
  apply occurs_at_cons. split; [done|]. by intros j tok Hj.
Qed.

Lemma size_sub_succ (p : nat) :
  Z.of_nat p + 1 < Double.size_t_modulus →
  size_sub (Z.of_nat (S p)) 1 = Z.of_nat p.
Proof. intros. size_arith. Qed.

Lemma first_test_false T (p : nat) :
  Z.of_nat p < Double.size_t_modulus → prev_ok T p →
  (if size_sub (Z.of_nat p) 1 =? npos then false
   else String.eqb (token_at T (size_sub (Z.of_nat p) 1)) "(+") = false.
Proof.
  intros Hp Hprev. destruct p as [|q].
  - reflexivity.
  - rewrite size_sub_succ by lia.
    destruct (Z.of_nat q =? npos); [done|].
    unfold token_at. rewrite Nat2Z.id. simpl in Hprev.
    destruct (T !! q) as [tok|]; simpl; [|done].
    apply String.eqb_neq. congruence.
Qed.

Lemma term_at_species T (p : nat) (name : string) :
  T !! p = Some name →
  Z.of_nat p + 1 < Double.size_t_modulus → prev_ok T p →
  term_at T (size_sub (Z.of_nat p) 1) (Z.of_nat (p + 1)) = Ok (name, 1%float).
Proof.
  intros Hname Hp Hprev. unfold term_at.
  rewrite first_test_false by (done || lia).
  replace (Z.of_nat (p + 1) - 1) with (Z.of_nat p) by lia.
  rewrite (token_at_lookup _ _ _ Hname).
  replace (size_sub (Z.of_nat p) 1 =? size_sub (Z.of_nat (p + 1)) 1) with false
    by (symmetry; apply Z.eqb_neq; size_arith).
  simpl andb. cbv iota.
  replace (size_sub (Z.of_nat p) 1 =? size_sub (Z.of_nat (p + 1)) 2) with true
    by (symmetry; apply Z.eqb_eq; size_arith).
  reflexivity.
Qed.

Lemma term_at_scaled T (p : nat) (numeral name : string) (v : float) :
  T !! p = Some numeral → T !! (p + 1)%nat = Some name →
  fpValueCheck numeral = Some v →
  Z.of_nat p + 2 < Double.size_t_modulus → prev_ok T p →
  term_at T (size_sub (Z.of_nat p) 1) (Z.of_nat (p + 2)) = Ok (name, v).
Proof.
  intros Hnum Hname Hv Hp Hprev. unfold term_at.
  rewrite first_test_false by (done || lia).
  replace (Z.of_nat (p + 2) - 1) with (Z.of_nat (p + 1)) by lia.
  replace (Z.of_nat (p + 2) - 2) with (Z.of_nat p) by lia.
  rewrite (token_at_lookup _ _ _ Hname), (token_at_lookup _ _ _ Hnum).
  replace (size_sub (Z.of_nat p) 1 =? size_sub (Z.of_nat (p + 2)) 1) with false
    by (symmetry; apply Z.eqb_neq; size_arith).
  simpl andb. cbv iota.
  replace (size_sub (Z.of_nat p) 1 =? size_sub (Z.of_nat (p + 2)) 2) with false
    by (symmetry; apply Z.eqb_neq; size_arith).
  replace (size_sub (Z.of_nat p) 1 =? size_sub (Z.of_nat (p + 2)) 3) with true
    by (symmetry; apply Z.eqb_eq; size_arith).
  by rewrite Hv.
Qed.

Lemma ends_with_not_open (b : string) :
  ends_with b ")" = true → String.eqb b "(+" = false.
Proof.
  intros Hb. apply String.eqb_neq. intros ->. by vm_compute in Hb.
Qed.

Lemma term_at_joined T (q : nat) (b : string) :
  T !! q = Some b →
  starts_with b "(+" = true → ends_with b ")" = true →
  Z.of_nat q + 1 < Double.size_t_modulus →
  term_at T (Z.of_nat q) (Z.of_nat (q + 1)) = Ok (b, (-1)%float).
Proof.
  intros Hb Hs He Hq. unfold term_at.
  replace (Z.of_nat (q + 1) - 1) with (Z.of_nat q) by lia.
  rewrite (token_at_lookup _ _ _ Hb).
  replace (Z.of_nat q =? npos) with false
    by (symmetry; apply Z.eqb_neq; size_arith).
  rewrite (ends_with_not_open _ He).
  replace (Z.of_nat q =? size_sub (Z.of_nat (q + 1)) 1) with true
    by (symmetry; apply Z.eqb_eq; size_arith).
  by rewrite Hs, He.
Qed.

Lemma term_at_spaced T (q : nat) (rest : string) :
  T !! q = Some "(+" → T !! (q + 1)%nat = Some rest →
  Z.of_nat q + 1 < Double.size_t_modulus →
  term_at T (Z.of_nat q) (Z.of_nat (q + 2))
  = Ok (String.append "(+" rest, (-1)%float).
Proof.
  intros Hb Hrest Hq. unfold term_at.
  replace (Z.of_nat (q + 2) - 1) with (Z.of_nat (q + 1)) by lia.
  rewrite (token_at_lookup _ _ _ Hrest), (token_at_lookup _ _ _ Hb).
  replace (Z.of_nat q =? npos) with false
    by (symmetry; apply Z.eqb_neq; size_arith).
  reflexivity.
Qed.

Lemma run_term T kin (p : nat) (t : Term) (c : string) (R : Reaction) (side : bool) :
  occurs_at T p (term_tokens t ++ [c]) →
  term_ok t = true → completes_term c = true → prev_ok T p →
  Z.of_nat (p + length (term_tokens t)) < Double.size_t_modulus →
  foldM (parse_iteration T kin) (seq p (length (term_tokens t) + 1))
    (mkParseState R (size_sub (Z.of_nat p) 1) side)
  = Ok (switch_side c
          (mkParseState (add_term kin (term_name t) (term_stoich t) side R)
             (Z.of_nat (p + length (term_tokens t))) side)).
Proof.
  intros Hocc Hok Hc Hprev Hp. destruct t as [name|numeral name]; simpl in *.
  - apply occurs_at_cons in Hocc as [Hname Hocc].
    apply occurs_at_cons in Hocc as [Htok _].
    apply negb_true_iff in Hok.
    rewrite (parse_iteration_skip _ _ _ _ _ Hname Hok). simpl.
    replace (S p) with (p + 1)%nat in * by lia.
    rewrite (parse_iteration_term _ _ _ _ _ _ _ _ _ Htok Hc
               (term_at_species _ _ _ Hname ltac:(lia) Hprev)).
    reflexivity.
  - apply occurs_at_cons in Hocc as [Hnum Hocc].
    apply occurs_at_cons in Hocc as [Hname Hocc].
    apply occurs_at_cons in Hocc as [Htok _].
    apply andb_true_iff in Hok as [Hok Hv].
    apply andb_true_iff in Hok as [Hbn Hbname].
    apply negb_true_iff in Hbn, Hbname.
    apply bool_decide_eq_true in Hv as [v Hv].
    rewrite (parse_iteration_skip _ _ _ _ _ Hnum Hbn). simpl.
    rewrite (parse_iteration_skip _ _ _ _ _ Hname Hbname). simpl.
    replace (S p) with (p + 1)%nat in * by lia.
    replace (S (p + 1)) with (p + 2)%nat in * by lia.
    rewrite (parse_iteration_term _ _ _ _ _ _ _ _ _ Htok Hc
               (term_at_scaled _ _ _ _ _ Hnum Hname Hv ltac:(lia) Hprev)).
    by rewrite Hv.
Qed.

Lemma run_leading T kin (ts : list Term) (side : bool) :
  ∀ (p : nat) (R : Reaction),
  occurs_at T p (leading_tokens ts) →
  forallb term_ok ts = true → prev_ok T p →
  Z.of_nat (p + length (leading_tokens ts)) ≤ Double.size_t_modulus →
  foldM (parse_iteration T kin) (seq p (length (leading_tokens ts)))
    (mkParseState R (size_sub (Z.of_nat p) 1) side)
  = Ok (mkParseState (add_entries kin side (List.map term_entry ts) R)
          (size_sub (Z.of_nat (p + length (leading_tokens ts))) 1) side).
Proof.
  induction ts as [|t ts IH]; intros p R Hocc Hok Hprev Hp.
  - simpl. by rewrite Nat.add_0_r.
  - simpl in Hok. apply andb_true_iff in Hok as [Ht Hts].
    change (leading_tokens (t :: ts))
      with ((term_tokens t ++ ["+"]) ++ leading_tokens ts) in *.
    apply occurs_at_app in Hocc as [Hocc1 Hocc2].
    rewrite !length_app in *. simpl length in *.
    rewrite seq_app, foldM_app.
    rewrite (run_term _ _ _ _ _ _ _ Hocc1 Ht eq_refl Hprev) by lia.
    rewrite switch_side_plus. simpl mbind.
    set (p' := (p + (length (term_tokens t) + 1))%nat) in *.
    replace (Z.of_nat (p + length (term_tokens t)))
      with (size_sub (Z.of_nat p') 1) by (subst p'; size_arith).
    rewrite IH; [| done | done | | lia].
    + simpl. do 2 f_equal. f_equal. lia.
    + subst p'. replace (p + (length (term_tokens t) + 1))%nat
        with (S (p + length (term_tokens t))) by lia.
      simpl. apply occurs_at_app in Hocc1 as [_ Hplus].
      apply occurs_at_cons in Hplus as [Hplus _]. rewrite Hplus. done.
Qed.

Lemma starts_with_not_separator (b : string) :
  starts_with b "(+" = true → is_separator b = false.
Proof.
  intros Hb. unfold is_separator.
  destruct (String.eqb_spec b "<=>") as [->|_]; [by vm_compute in Hb|].
  destruct (String.eqb_spec b "=") as [->|_]; [by vm_compute in Hb|].
  destruct (String.eqb_spec b "=>") as [->|_]; [by vm_compute in Hb|].
  done.
Qed.

Lemma starts_with_completes (b : string) :
  starts_with b "(+" = true → completes_term b = true.
Proof.
  intros Hb. unfold completes_term. rewrite Hb.
  by destruct (String.eqb b "+").
Qed.

Lemma separator_completes (sep : string) :
  is_separator sep = true → completes_term sep = true.
Proof.
  unfold is_separator, completes_term.
  destruct (String.eqb sep "+"), (starts_with sep "(+"),
    (String.eqb sep "<=>"), (String.eqb sep "="), (String.eqb sep "=>"); done.
Qed.

Lemma switch_side_separator (sep : string) (st : ParseState) :
  is_separator sep = true →
  switch_side sep st
  = mkParseState (set_reversible (negb (String.eqb sep "=>")) (ps_R st))
      (ps_last_used st) false.
Proof.
  unfold is_separator, switch_side.
  destruct (String.eqb_spec sep "<=>") as [->|_]; [done|].
  destruct (String.eqb_spec sep "=") as [->|_]; [done|].
  destruct (String.eqb sep "=>"); done.
Qed.

Lemma add_entries_app kin side es1 es2 R :
  add_entries kin side (es1 ++ es2) R
  = add_entries kin side es2 (add_entries kin side es1 R).
Proof. apply fold_left_app. Qed.

Lemma leading_tokens_snoc (ts : list Term) :
  ts ≠ [] → ∃ toks, leading_tokens ts = toks ++ ["+"].
Proof.
  destruct ts as [|t0 ts]; [done|]. intros _. revert t0.
  induction ts as [|t1 ts IH]; intros t0.
  - exists (term_tokens t0). unfold leading_tokens. simpl. by rewrite app_nil_r.
  - destruct (IH t1) as [toks Htoks].
    exists ((term_tokens t0 ++ ["+"]) ++ toks).
    change (leading_tokens (t0 :: t1 :: ts))
      with ((term_tokens t0 ++ ["+"]) ++ leading_tokens (t1 :: ts)).
    by rewrite Htoks, !app_assoc.
Qed.

Lemma leading_tokens_first (ts : list Term) :
  ts ≠ [] → forallb term_ok ts = true →
  ∃ tok toks, leading_tokens ts = tok :: toks ∧ completes_term tok = false.
Proof.
  destruct ts as [|[name|numeral name] ts]; [done| |]; intros _ Hok;
    simpl in Hok; apply andb_true_iff in Hok as [Hok _].
  - apply negb_true_iff in Hok. unfold leading_tokens. simpl. eauto.
  - apply andb_true_iff in Hok as [Hok _].
    apply andb_true_iff in Hok as [Hok _].
    apply negb_true_iff in Hok. unfold leading_tokens. simpl. eauto.
Qed.

Lemma run_side T kin (s : Side) (stop : string) (side : bool) (p : nat)
    (R : Reaction) :
  occurs_at T p (side_tokens s ++ [stop]) →
  side_ok s = true → completes_term stop = true → prev_ok T p →
  Z.of_nat (p + length (side_tokens s)) < Double.size_t_modulus →
  foldM (parse_iteration T kin) (seq p (length (side_tokens s) + 1))
    (mkParseState R (size_sub (Z.of_nat p) 1) side)
  = Ok (switch_side stop
          (mkParseState (add_entries kin side (side_entries s) R)
             (Z.of_nat (p + length (side_tokens s))) side)).
Proof.
  destruct s as [ts t br].
  unfold side_tokens, side_ok, side_entries, term_entries, side_terms. simpl.
  intros Hocc Hok Hstop Hprev Hp.
  apply andb_true_iff in Hok as [Hok Hbr].
  apply andb_true_iff in Hok as [Hts Ht].
  rewrite <-!app_assoc in Hocc.
  apply occurs_at_app in Hocc as [HoccL Hocc].
  set (q := (p + length (leading_tokens ts))%nat) in *.
  assert (prev_ok T q) as Hprevq.
  { subst q. clear -HoccL Hprev Hts.
    destruct ts as [|t0 ts]; [simpl; by rewrite Nat.add_0_r|].
    destruct (leading_tokens_snoc (t0 :: ts)) as [toks Htoks]; [done|].
    rewrite Htoks in *. rewrite length_app. simpl.
    replace (p + (length toks + 1))%nat with (S (p + length toks)) by lia.
    simpl. apply occurs_at_app in HoccL as [_ Hplus].
    apply occurs_at_cons in Hplus as [-> _]. done. }
  rewrite !length_app in *. rewrite map_app, <-!app_assoc, !add_entries_app.
  simpl List.map.
  rewrite <-Nat.add_assoc, seq_app, foldM_app.
  rewrite (run_leading _ _ _ _ _ _ HoccL Hts Hprev) by lia.
  simpl mbind. fold q.
  set (R1 := add_entries kin side (List.map term_entry ts) R).
  apply occurs_at_app in Hocc as [Hocct Hocc].
  set (i := (q + length (term_tokens t))%nat) in *.
  destruct br as [[b|rest]|]; simpl in *.
  - (* "(+X)" *)
    apply andb_true_iff in Hbr as [Hbs Hbe].
    apply occurs_at_cons in Hocc as [Hb Hocc].
    apply occurs_at_cons in Hocc as [Hs _].
    replace (length (term_tokens t) + 1 + 1)%nat
      with ((length (term_tokens t) + 1) + 1)%nat by lia.
    rewrite seq_app, foldM_app.
    rewrite (run_term _ _ _ _ _ _ _ (occurs_at_snoc _ _ _ _ Hocct Hb) Ht
               (starts_with_completes _ Hbs) Hprevq) by lia.
    rewrite switch_side_not_separator by by apply starts_with_not_separator.
    simpl mbind. simpl seq. simpl foldM. fold i.
    replace (q + (length (term_tokens t) + 1))%nat with (i + 1)%nat by lia.
    replace (S i) with (i + 1)%nat in Hs by lia.
    rewrite (parse_iteration_term _ _ _ _ _ _ _ _ _ Hs Hstop
               (term_at_joined _ _ _ Hb Hbs Hbe ltac:(lia))).
    simpl. do 3 f_equal. lia.
  - (* "(+ X)" *)
    apply occurs_at_cons in Hocc as [Hb Hocc].
    apply occurs_at_cons in Hocc as [Hrest Hocc].
    apply occurs_at_cons in Hocc as [Hs _].
    replace (length (term_tokens t) + 2 + 1)%nat
      with ((length (term_tokens t) + 1) + 2)%nat by lia.
    rewrite seq_app, foldM_app.
    rewrite (run_term _ _ _ _ _ _ _ (occurs_at_snoc _ _ _ _ Hocct Hb) Ht
               eq_refl Hprevq) by lia.
    rewrite switch_side_not_separator by done.
    simpl mbind. simpl seq. simpl foldM. fold i.
    replace (q + (length (term_tokens t) + 1))%nat with (i + 1)%nat by lia.
    replace (S i) with (i + 1)%nat in Hrest, Hs by lia.
    replace (S (i + 1)) with (i + 2)%nat in * by lia.
    apply negb_true_iff in Hbr.
    rewrite (parse_iteration_skip _ _ _ _ _ Hrest Hbr). simpl mbind.
    rewrite (parse_iteration_term _ _ _ _ _ _ _ _ _ Hs Hstop
               (term_at_spaced _ _ _ Hb Hrest ltac:(lia))).
    simpl. do 3 f_equal. lia.
  - apply occurs_at_cons in Hocc as [Hs _].
    rewrite Nat.add_0_r.
    rewrite (run_term _ _ _ _ _ _ _ (occurs_at_snoc _ _ _ _ Hocct Hs) Ht
               Hstop Hprevq) by lia.
    simpl. do 3 f_equal. lia.
Qed.

Lemma side_tokens_first (s : Side) :
  side_ok s = true →
  ∃ tok toks, side_tokens s = tok :: toks ∧ completes_term tok = false.
Proof.
  destruct s as [ts t br]. unfold side_ok, side_tokens. simpl. intros Hok.
  apply andb_true_iff in Hok as [Hok _].
  apply andb_true_iff in Hok as [Hts Ht].
  assert (∀ t, term_ok t = true →
            ∃ tok toks, term_tokens t = tok :: toks ∧ completes_term tok = false)
    as Hterm.
  { intros [name|numeral name] Hok; simpl in *.
    - apply negb_true_iff in Hok. eauto.
    - apply andb_true_iff in Hok as [Hok _].
      apply andb_true_iff in Hok as [Hok _].
      apply negb_true_iff in Hok. eauto. }
  destruct ts as [|t0 ts]; simpl in *.
  - destruct (Hterm t Ht) as (tok & toks & -> & Htok). simpl. eauto.
  - apply andb_true_iff in Hts as [Ht0 _].
    destruct (Hterm t0 Ht0) as (tok & toks & -> & Htok). simpl. eauto.
Qed.

(** Parsing a well-formed equation: the terms of the left side are added
    to the reaction as reactants, the flag is assigned, and the terms of
    the right side are added as products. *)
Lemma parse_tokens_well_formed (R : Reaction) (kin : option Kinetics)
    (l : Side) (sep : string) (r : Side) :
  side_ok l = true → side_ok r = true → is_separator sep = true →
  Z.of_nat (length (equation_tokens l sep r)) < Double.size_t_modulus →
  parse_tokens R (equation_tokens l sep r ++ ["+"]) kin
  = Ok (add_entries kin false (side_entries r)
          (set_reversible (negb (String.eqb sep "=>"))
             (add_entries kin true (side_entries l) R))).
Proof.
  intros Hl Hr Hsep Hlen. unfold parse_tokens.
  remember (equation_tokens l sep r ++ ["+"]) as T eqn:HeqT.
  assert (T = (side_tokens l ++ [sep]) ++ (side_tokens r ++ ["+"])) as HT.
  { rewrite HeqT. unfold equation_tokens. by rewrite <-!app_assoc. }
  assert (length T = ((length (side_tokens l) + 1)
                      + (length (side_tokens r) + 1))%nat) as HlenT.
  { rewrite HT, !length_app. simpl. lia. }
  assert (Z.of_nat (length T) ≤ Double.size_t_modulus) as Hbound.
  { rewrite HeqT, length_app. simpl. lia. }
  clear HeqT.
  pose proof (occurs_at_self T) as Hocc. rewrite HT in Hocc at 2.
  apply occurs_at_app in Hocc as [HoccL HoccR].
  rewrite length_app in HoccR. simpl in HoccR.
  (* the iteration at index 0, which the loop omits, would change nothing *)
  destruct (side_tokens_first l Hl) as (tok & toks & Hfirst & Hbare).
  assert (T !! 0%nat = Some tok) as H0.
  { rewrite HT, Hfirst. done. }
  assert (foldM (parse_iteration T kin) (seq 1 (length T - 1))
            (mkParseState R npos true)
          = foldM (parse_iteration T kin) (seq 0 (length T))
              (mkParseState R npos true)) as ->.
  { rewrite HlenT. replace (length (side_tokens l) + 1 + (length (side_tokens r) + 1))%nat
      with (S (length (side_tokens l) + 1 + (length (side_tokens r) + 1) - 1)) at 2 by lia.
    simpl seq. simpl foldM.
    by rewrite (parse_iteration_skip _ _ _ _ _ H0 Hbare). }
  rewrite HlenT, seq_app, foldM_app.
  change npos with (size_sub (Z.of_nat 0) 1).
  rewrite (run_side _ _ _ _ _ _ _ HoccL Hl (separator_completes _ Hsep) I)
    by (simpl; lia).
  rewrite switch_side_separator by done. simpl mbind. simpl ps_R.
  simpl ps_last_used.
  replace (Z.of_nat (length (side_tokens l)))
    with (size_sub (Z.of_nat (0 + (length (side_tokens l) + 1))) 1)
    by (unfold size_sub, Double.size_t_modulus in *;
        change (2 ^ 64) with 18446744073709551616 in *;
        Z.div_mod_to_equations; lia).
  rewrite (run_side _ _ _ _ _ _ _ HoccR Hr eq_refl).
  - by rewrite switch_side_plus.
  - apply occurs_at_app in HoccL as [_ HoccS].
    apply occurs_at_cons in HoccS as [HoccS _].
    apply (prev_ok_after T (length (side_tokens l)) sep); [done|].
    by intros ->.
  - lia.
Qed.

Lemma reactants_add_entries kin side es R :
  reactants (add_entries kin side es R)
  = if side then add_all es (reactants R) else reactants R.
Proof.
  revert R. induction es as [|e es IH]; intros R; simpl.
  - by destruct side.
  - rewrite IH, reactants_add_term. by destruct side.
Qed.

Lemma products_add_entries kin side es R :
  products (add_entries kin side es R)
  = if side then products R else add_all es (products R).
Proof.
  revert R. induction es as [|e es IH]; intros R; simpl.
  - by destruct side.
  - rewrite IH, products_add_term. by destruct side.
Qed.

Lemma reversible_add_entries kin side es R :
  reversible (add_entries kin side es R) = reversible R.
Proof.
  revert R. induction es as [|e es IH]; intros R; simpl; [done|].
  by rewrite IH, reversible_add_term.
Qed.

Lemma valid_add_entries kin side es R :
  m_valid (add_entries kin side es R) = m_valid R && entries_declared kin es.
Proof.
  revert R. induction es as [|e es IH]; intros R; simpl.
  - by rewrite andb_true_r.
  - by rewrite IH, valid_add_term, andb_assoc.
Qed.

Lemma third_body_add_entries kin side es R :
  m_third_body (add_entries kin side es R) = m_third_body R.
Proof.
  revert R. induction es as [|e es IH]; intros R; simpl; [done|].
  by rewrite IH, third_body_add_term.
Qed.

(** X4: for an equation of fewer than 2^64 tokens that reads as a left
    side, a separator and a right side, each side a list of terms joined by
    "+" and possibly closed by a falloff bracket, [parseReactionEquation]
    returns; it adds every term of the left side to the reactants and
    every term of the right side to the products, in the order of the
    equation, with coefficient 1 for a bare species, the value of the
    numeral for a species with a numeral, and -1 for the bracket; the
    reaction is reversible unless the separator is "=>"; and the validity
    flag stays as it was exactly when no term marks the reaction
    invalid. *)
Theorem parse_well_formed_equation (R : Reaction) (equation : string)
    (kin : option Kinetics) (l : Side) (sep : string) (r : Side) :
  tokenizeString equation = equation_tokens l sep r →
  side_ok l = true → side_ok r = true → is_separator sep = true →
  Z.of_nat (length (tokenizeString equation)) < Double.size_t_modulus →
  ∃ R', parseReactionEquation R equation kin = Ok R'
    ∧ reactants R' = add_all (side_entries l) (reactants R)
    ∧ products R' = add_all (side_entries r) (products R)
    ∧ reversible R' = negb (String.eqb sep "=>")
    ∧ valid R'
      = valid R && entries_declared kin (side_entries l)
        && entries_declared kin (side_entries r).
Proof.
  intros Htok Hl Hr Hsep Hlen. unfold parseReactionEquation.
  rewrite Htok in *. rewrite parse_tokens_well_formed by done.
  eexists. split; [done|].
  rewrite reactants_add_entries, products_add_entries, reversible_add_entries.
  unfold valid. rewrite valid_add_entries. simpl.
  rewrite reactants_add_entries, products_add_entries, valid_add_entries.
  done.
Qed.

End ParserGrammar.

(** ** Malformed terms *)

Section ParserErrors.
Context `{!CanteraBase}.

Lemma parse_iteration_error T kin (i : nat) (R : Reaction) (lu : Z) (side : bool)
    (tok : string) (e : CanteraError) :
  T !! i = Some tok → completes_term tok = true →
  term_at T lu (Z.of_nat i) = Throw e →
  parse_iteration T kin i (mkParseState R lu side) = Throw e.
Proof.
  intros Htok Hc Hterm. unfold parse_iteration.
  rewrite (token_at_lookup _ _ _ Htok), Hc. unfold record_term. simpl.
  by rewrite Hterm.
Qed.

Lemma run_skips T kin (seg : list string) :
  ∀ (p : nat) (st : ParseState),
  occurs_at T p seg →
  forallb (λ tok, negb (completes_term tok)) seg = true →
  foldM (parse_iteration T kin) (seq p (length seg)) st = Ok st.
Proof.
  induction seg as [|tok seg IH]; intros p st Hocc Hbare; [done|].
  simpl in Hbare. apply andb_true_iff in Hbare as [Htok Hseg].
  apply negb_true_iff in Htok.
  apply occurs_at_cons in Hocc as [Hp Hocc]. simpl.
  rewrite (parse_iteration_skip _ _ _ _ _ Hp Htok). simpl.
  by apply IH.
Qed.

Lemma last_used_text T (p : nat) :
  Z.of_nat p < Double.size_t_modulus →
  (if size_sub (Z.of_nat p) 1 =? npos then "n/a"
   else token_at T (size_sub (Z.of_nat p) 1))
  = match p with
    | O => "n/a"
    | S q => token_at T (Z.of_nat q)
    end.
Proof.
  intros Hp. destruct p as [|q]; [done|].
  rewrite size_sub_succ by lia.
  replace (Z.of_nat q =? npos) with false; [done|].
  symmetry. apply Z.eqb_neq. size_arith.
Qed.

(** The term that ends at the token [c] is malformed. *)
Lemma term_at_error T (p : nat) (seg : list string) (c prev : string)
    (e : CanteraError) :
  occurs_at T p (seg ++ [c]) →
  forallb (λ tok, negb (completes_term tok)) seg = true →
  prev_ok T p →
  match p with
  | O => prev = "n/a" ∧ seg ≠ []
  | S q => T !! q = Some prev ∧ (seg = [] → starts_with prev "(+" = false)
  end →
  Z.of_nat (p + length seg) < Double.size_t_modulus →
  term_error seg c prev = Some e →
  term_at T (size_sub (Z.of_nat p) 1) (Z.of_nat (p + length seg)) = Throw e.
Proof.
  intros Hocc Hbare Hprev Hp Hlen Herr.
  apply occurs_at_app in Hocc as [Hseg Hc].
  apply occurs_at_cons in Hc as [Hc _].
  unfold term_at. rewrite first_test_false by (done || lia).
  rewrite last_used_text by lia. rewrite (token_at_lookup _ _ _ Hc).
  assert (match p with O => "n/a" | S q => token_at T (Z.of_nat q) end = prev)
    as ->.
  { destruct p as [|q]; [by destruct Hp|].
    destruct Hp as [Hq _]. by rewrite (token_at_lookup _ _ _ Hq). }
  destruct seg as [|s1 [|s2 [|s3 seg]]]; simpl in Herr, Hlen |- *.
  - (* no token at all *)
    destruct p as [|q]; [by destruct Hp as [_ []]|].
    destruct Hp as [Hq Hnb]. injection Herr as <-.
    rewrite Nat.add_0_r in *.
    replace (Z.of_nat (S q) - 1) with (Z.of_nat q) by lia.
    rewrite (token_at_lookup _ _ _ Hq), Hnb by done.
    rewrite andb_false_r. simpl.
    replace (size_sub (Z.of_nat (S q)) 1 =? size_sub (Z.of_nat (S q)) 2) with false
      by (symmetry; apply Z.eqb_neq; size_arith).
    replace (size_sub (Z.of_nat (S q)) 1 =? size_sub (Z.of_nat (S q)) 3) with false
      by (symmetry; apply Z.eqb_neq; size_arith).
    done.
  - done.
  - (* a coefficient that is no number *)
    apply occurs_at_cons in Hseg as [H1 Hseg].
    apply occurs_at_cons in Hseg as [H2 _].
    destruct (fpValueCheck s1) as [v|] eqn:Hv; [done|]. injection Herr as <-.
    replace (Z.of_nat (p + 2) - 1) with (Z.of_nat (S p)) by lia.
    replace (Z.of_nat (p + 2) - 2) with (Z.of_nat p) by lia.
    rewrite (token_at_lookup _ _ _ H1).
    replace (size_sub (Z.of_nat p) 1 =? size_sub (Z.of_nat (p + 2)) 1) with false
      by (symmetry; apply Z.eqb_neq; size_arith).
    simpl andb. cbv iota.
    replace (size_sub (Z.of_nat p) 1 =? size_sub (Z.of_nat (p + 2)) 2) with false
      by (symmetry; apply Z.eqb_neq; size_arith).
    replace (size_sub (Z.of_nat p) 1 =? size_sub (Z.of_nat (p + 2)) 3) with true
      by (symmetry; apply Z.eqb_eq; size_arith).
    by rewrite Hv.
  - (* three tokens or more *)
    injection Herr as <-.
    set (n := S (S (S (length seg)))) in *.
    replace (size_sub (Z.of_nat p) 1 =? size_sub (Z.of_nat (p + n)) 1) with false
      by (symmetry; apply Z.eqb_neq; subst n; size_arith).
    simpl andb. cbv iota.
    replace (size_sub (Z.of_nat p) 1 =? size_sub (Z.of_nat (p + n)) 2) with false
      by (symmetry; apply Z.eqb_neq; subst n; size_arith).
    replace (size_sub (Z.of_nat p) 1 =? size_sub (Z.of_nat (p + n)) 3) with false
      by (symmetry; apply Z.eqb_neq; subst n; size_arith).
    done.
Qed.

(** The state of the loop after a well-formed prefix. *)
Lemma run_prefix T kin (before : option (Side * string)) (ts : list Term)
    (R : Reaction) :
  occurs_at T 0 (prefix_tokens before ts) →
  prefix_ok before ts = true →
  Z.of_nat (length (prefix_tokens before ts)) ≤ Double.size_t_modulus →
  let p := length (prefix_tokens before ts) in
  (∃ R1 side,
     foldM (parse_iteration T kin) (seq 0 p) (mkParseState R npos true)
     = Ok (mkParseState R1 (size_sub (Z.of_nat p) 1) side))
  ∧ prev_ok T p
  ∧ match p with
    | O => prefix_tokens before ts = []
    | S q => ∃ prev, T !! q = Some prev ∧ last (prefix_tokens before ts) = Some prev
                     ∧ starts_with prev "(+" = false
    end.
Proof.
  intros Hocc Hok Hlen p. subst p. unfold prefix_tokens, prefix_ok in *.
  apply andb_true_iff in Hok as [Hbefore Hts].
  set (pre := match before with
              | Some (l, sep) => side_tokens l ++ [sep]
              | None => []
              end) in *.
  apply occurs_at_app in Hocc as [Hpre Hlead]. simpl in Hlead.
  rewrite length_app in *.
  (* the part before the leading terms *)
  assert ((∃ R0 side,
             foldM (parse_iteration T kin) (seq 0 (length pre))
               (mkParseState R npos true)
             = Ok (mkParseState R0 (size_sub (Z.of_nat (length pre)) 1) side))
          ∧ prev_ok T (length pre)
          ∧ match length pre with
            | O => pre = []
            | S q => ∃ prev, T !! q = Some prev ∧ last pre = Some prev
                             ∧ starts_with prev "(+" = false
            end) as ((R0 & side & Hrun0) & Hprev0 & Hlast0).
  { subst pre. destruct before as [[l sep]|].
    - apply andb_true_iff in Hbefore as [Hl Hsep].
      rewrite length_app in *. simpl length in *.
      pose proof Hpre as Hpre'.
      apply occurs_at_app in Hpre' as [_ Hs].
      apply occurs_at_cons in Hs as [Hs _]. simpl in Hs.
      split; [|split].
      + change npos with (size_sub (Z.of_nat 0) 1).
        rewrite (run_side _ _ _ _ _ _ _ Hpre Hl (separator_completes _ Hsep) I)
          by (simpl; lia).
        rewrite switch_side_separator by done. simpl.
        eexists _, _. do 2 f_equal.
        unfold size_sub, Double.size_t_modulus in *.
        change (2 ^ 64) with 18446744073709551616 in *.
        Z.div_mod_to_equations; lia.
      + apply (prev_ok_after T (length (side_tokens l)) sep); [done|].
        intros ->. done.
      + replace (length (side_tokens l) + 1)%nat with (S (length (side_tokens l)))
          by lia.
        exists sep. split; [done|]. split; [by rewrite last_snoc|].
        unfold is_separator in Hsep.
        destruct (String.eqb_spec sep "<=>") as [->|_]; [done|].
        destruct (String.eqb_spec sep "=") as [->|_]; [done|].
        destruct (String.eqb_spec sep "=>") as [->|_]; [done|done].
    - simpl. split; [eauto|done]. }
  destruct (decide (ts = [])) as [->|Hne].
  - simpl. rewrite Nat.add_0_r, app_nil_r. eauto.
  - destruct (leading_tokens_snoc ts Hne) as [toks Htoks].
    split; [|split].
    + rewrite seq_app, foldM_app, Hrun0. simpl mbind.
      rewrite (run_leading _ _ _ _ _ _ Hlead Hts Hprev0) by lia.
      eauto.
    + rewrite Htoks in *. rewrite length_app in *. simpl length in *.
      apply occurs_at_app in Hlead as [_ Hplus].
      apply occurs_at_cons in Hplus as [Hplus _].
      rewrite Nat.add_assoc.
      by apply (prev_ok_after T (length pre + length toks) "+").
    + rewrite Htoks in *. rewrite length_app in *. simpl length in *.
      apply occurs_at_app in Hlead as [_ Hplus].
      apply occurs_at_cons in Hplus as [Hplus _].
      replace (length pre + (length toks + 1))%nat
        with (S (length pre + length toks)) by lia.
      exists "+". split; [done|]. split; [|done].
      by rewrite app_assoc, last_snoc.
Qed.

Lemma parse_tokens_from_zero T (R : Reaction) kin (tok : string) :
  T !! 0%nat = Some tok → completes_term tok = false →
  parse_tokens R T kin
  = st ← foldM (parse_iteration T kin) (seq 0 (length T))
           (mkParseState R npos true);
    Ok (ps_R st).
Proof.
  intros H0 Hbare. unfold parse_tokens.
  destruct T as [|t T]; [done|].
  replace (length (t :: T) - 1)%nat with (length T) by (simpl; lia).
  simpl length. simpl seq. simpl foldM.
  by rewrite (parse_iteration_skip _ _ _ _ _ H0 Hbare).
Qed.

(** X5: let the tokens of an equation, followed by the "+" that the parser
    appends, begin with a well-formed prefix (possibly a whole left side and
    its separator, then terms each followed by "+"), and let [seg] be the
    tokens that follow up to the next token [c] that completes a term.  If
    [seg] is empty, or has three tokens or more, parsing throws the error
    that names [c] and the last token used ("n/a" at the start of the
    equation); if [seg] is a numeral that denotes no number and a name,
    parsing throws the error for that numeral. *)
Theorem parse_rejects_malformed_term (R : Reaction) (equation : string)
    (kin : option Kinetics) (before : option (Side * string)) (ts : list Term)
    (seg : list string) (c : string) (rest : list string) (e : CanteraError) :
  tokenizeString equation ++ ["+"] = prefix_tokens before ts ++ seg ++ c :: rest →
  prefix_ok before ts = true →
  forallb (λ tok, negb (completes_term tok)) seg = true →
  completes_term c = true →
  prefix_tokens before ts ++ seg ≠ [] →
  Z.of_nat (length (tokenizeString equation)) < Double.size_t_modulus →
  term_error seg c (default "n/a" (last (prefix_tokens before ts))) = Some e →
  parseReactionEquation R equation kin = Throw e.
Proof.
  intros Htok Hok Hbare Hc Hne Hlen Herr. unfold parseReactionEquation.
  remember (tokenizeString equation ++ ["+"]) as T eqn:HeqT.
  assert (T = prefix_tokens before ts ++ (seg ++ [c]) ++ rest) as HT.
  { rewrite Htok. by rewrite <-!app_assoc. }
  assert (length T = (length (prefix_tokens before ts)
                      + (length seg + (1 + length rest)))%nat) as HlenT.
  { rewrite HT, !length_app. simpl. lia. }
  assert (Z.of_nat (length T) ≤ Double.size_t_modulus) as Hbound.
  { rewrite HeqT, length_app. simpl. lia. }
  clear HeqT Hlen Htok.
  pose proof (occurs_at_self T) as Hocc. rewrite HT in Hocc at 2.
  apply occurs_at_app in Hocc as [Hpre Hocc]. simpl in Hocc.
  apply occurs_at_app in Hocc as [Hseg _].
  destruct (run_prefix T kin before ts R Hpre Hok ltac:(lia))
    as ((R1 & side & Hrun) & Hprev & Hlast).
  (* the first token completes no term *)
  assert (∃ tok, T !! 0%nat = Some tok ∧ completes_term tok = false)
    as (tok & H0 & Htok).
  { unfold prefix_tokens, prefix_ok in *.
    apply andb_true_iff in Hok as [Hbefore Hts].
    destruct before as [[l sep]|].
    - apply andb_true_iff in Hbefore as [Hl _].
      destruct (side_tokens_first l Hl) as (tok & toks & Hfirst & Htok).
      exists tok. split; [|done]. rewrite HT, Hfirst. done.
    - simpl in *. destruct (decide (ts = [])) as [->|Hts'].
      + simpl in *. destruct seg as [|s seg]; [done|].
        simpl in Hbare. apply andb_true_iff in Hbare as [Hs _].
        apply negb_true_iff in Hs. exists s. by rewrite HT.
      + destruct (leading_tokens_first ts Hts' Hts) as (tok & toks & Hfirst & Htok).
        exists tok. split; [|done]. rewrite HT, Hfirst. done. }
  rewrite (parse_tokens_from_zero _ _ _ _ H0 Htok).
  rewrite HlenT, seq_app, foldM_app, Hrun. simpl mbind at 2.
  rewrite seq_app, foldM_app.
  apply occurs_at_app in Hseg as [Hskip Hc'].
  rewrite (run_skips _ _ _ _ _ Hskip Hbare). simpl mbind at 2.
  simpl seq. simpl foldM.
  apply occurs_at_cons in Hc' as [Hc' _].
  erewrite parse_iteration_error; [done|done|done|].
  eapply (term_at_error _ _ _ _ (default "n/a" (last (prefix_tokens before ts))));
    [by apply occurs_at_snoc|done|done| |lia|done].
  destruct (length (prefix_tokens before ts)) as [|q] eqn:Hp.
  - apply nil_length_inv in Hp. rewrite Hp in *. simpl in *. done.
  - destruct Hlast as (prev & Hq & Hl & Hs). rewrite Hl. simpl. done.
Qed.

End ParserErrors.

(** ** The outcomes of [detectEfficiencies] and of [ThreeBodyReaction::setEquation] *)

Section ThreeBodyOutcomes.
Context `{!CanteraBase}.

Lemma items_nil_inv {V : Type} (m : gmap string V) :
  Composition.items m = [] → m = ∅.
Proof.
  intros Hnil. apply map_to_list_empty_iff, Permutation_nil.
  by rewrite <-items_Permutation, Hnil.
Qed.

Lemma lookup_detect_partners_empty (R : Reaction) (k : string) :
  detect_partners R ∅ !! k
  = if decide (on_both_sides R k) then Some 1%float else None.
Proof. rewrite lookup_detect_partners. by rewrite lookup_empty. Qed.

(** The three shapes of the efficiency map after the detection loop, for a
    third body without efficiencies. *)
Lemma detect_partners_cases (R : Reaction) :
  (Composition.items (detect_partners R ∅) = [] ∧ no_shared_species R)
  ∨ (∃ sp, Composition.items (detect_partners R ∅) = [(sp, 1%float)]
           ∧ detect_partners R ∅ = {[sp := 1%float]}
           ∧ only_shared_species R sp)
  ∨ (∃ e1 e2 l, Composition.items (detect_partners R ∅) = e1 :: e2 :: l
                ∧ two_shared_species R).
Proof.
  assert (∀ k v, (k, v) ∈ Composition.items (detect_partners R ∅) →
                 on_both_sides R k ∧ v = 1%float) as Hin.
  { intros k v Hkv. apply elem_of_items in Hkv.
    rewrite lookup_detect_partners_empty in Hkv.
    destruct (decide (on_both_sides R k)); [|done]. by injection Hkv as <-. }
  destruct (Composition.items (detect_partners R ∅)) as [|[k1 v1] [|[k2 v2] l]]
    eqn:Hitems.
  - left. split; [done|]. intros k Hk.
    apply items_nil_inv in Hitems.
    pose proof (lookup_detect_partners_empty R k) as Hl.
    rewrite Hitems, lookup_empty in Hl. by destruct (decide (on_both_sides R k)).
  - right. left. destruct (Hin k1 v1) as [Hk1 ->]; [by left|].
    exists k1. split; [done|].
    apply items_singleton_inv in Hitems. simpl in Hitems.
    split; [done|]. intros k. split.
    + intros Hk. pose proof (lookup_detect_partners_empty R k) as Hl.
      rewrite Hitems in Hl. destruct (decide (on_both_sides R k)); [|done].
      by apply lookup_singleton_Some in Hl as [-> _].
    + by intros ->.
  - right. right. exists (k1, v1), (k2, v2), l. split; [done|].
    exists k1, k2. split; [|split].
    + pose proof (NoDup_fst_items (detect_partners R ∅)) as Hnd.
      rewrite Hitems in Hnd. simpl in Hnd.
      apply NoDup_cons in Hnd as [Hnd _]. intros ->. apply Hnd. by left.
    + apply (Hin k1 v1). by left.
    + apply (Hin k2 v2). right. by left.
Qed.

Lemma detectEfficiencies_none (R : Reaction) (tb : ThirdBody) :
  m_third_body R = Some tb → efficiencies tb = ∅ →
  no_shared_species R → detectEfficiencies R = Ok (false, R).
Proof.
  intros Htb Heff Hnone. unfold detectEfficiencies. rewrite Htb, Heff.
  destruct (detect_partners_cases R)
    as [[-> _]|[(sp & _ & _ & Hsp)|(e1 & e2 & l & _ & k1 & k2 & _ & Hk1 & _)]].
  - done.
  - destruct (Hnone sp). by apply Hsp.
  - by destruct (Hnone k1).
Qed.

Lemma detectEfficiencies_two (R : Reaction) (tb : ThirdBody) :
  m_third_body R = Some tb → efficiencies tb = ∅ →
  two_shared_species R → detectEfficiencies R = Throw MultipleCollisionPartners.
Proof.
  intros Htb Heff (k1 & k2 & Hne & Hk1 & Hk2).
  unfold detectEfficiencies. rewrite Htb, Heff.
  destruct (detect_partners_cases R)
    as [[_ Hnone]|[(sp & _ & _ & Hsp)|(e1 & e2 & l & -> & _)]].
  - by destruct (Hnone k1).
  - apply Hsp in Hk1, Hk2. congruence.
  - done.
Qed.

Lemma detectEfficiencies_one (R : Reaction) (tb : ThirdBody) (sp : string) :
  m_third_body R = Some tb → efficiencies tb = ∅ →
  only_shared_species R sp →
  ∃ r p, reactants R !! sp = Some r ∧ products R !! sp = Some p
    ∧ detectEfficiencies R
      = Ok (true,
            set_third_body
              (Some (mkThirdBody 0 {[sp := 1%float]} true (mass_action tb)))
              (set_products
                 (if Double.neqb (Double.trunc p) 1
                  then <[sp := PrimFloat.sub p 1]> (products R)
                  else delete sp (products R))
                 (set_reactants
                    (if Double.neqb (Double.trunc r) 1
                     then <[sp := PrimFloat.sub r 1]> (reactants R)
                     else delete sp (reactants R)) R))).
Proof.
  intros Htb Heff Hone.
  destruct (proj2 (Hone sp) eq_refl) as [[r Hr] [p Hp]].
  exists r, p. split; [done|]. split; [done|].
  unfold detectEfficiencies. rewrite Htb, Heff.
  destruct (detect_partners_cases R)
    as [[_ Hnone]|[(sp' & -> & -> & Hsp')|(e1 & e2 & l & _ & k1 & k2 & Hne & Hk1 & Hk2)]].
  - destruct (Hnone sp). by apply Hone.
  - assert (sp' = sp) as -> by (by apply Hone, Hsp').
    simpl. rewrite (adjust_coefficient_Ok _ _ _ Hr). simpl.
    rewrite (adjust_coefficient_Ok _ _ _ Hp). done.
  - apply Hone in Hk1, Hk2. congruence.
Qed.

(** X6: for a third body without efficiencies, [detectEfficiencies] has
    exactly three outcomes, decided by the species that appear on both
    sides: with none it returns false and changes nothing; with two or more
    it throws; with exactly one, [sp], it returns true and the third body
    becomes the specified partner [sp], with efficiency 1 and default
    efficiency 0.  The undefined dereference of a missing entry never
    happens. *)
Theorem detectEfficiencies_outcomes (R : Reaction) (tb : ThirdBody) :
  m_third_body R = Some tb → efficiencies tb = ∅ →
  (no_shared_species R → detectEfficiencies R = Ok (false, R))
  ∧ (two_shared_species R →
       detectEfficiencies R = Throw MultipleCollisionPartners)
  ∧ (∀ sp, only_shared_species R sp →
       ∃ R', detectEfficiencies R = Ok (true, R')
         ∧ m_third_body R'
           = Some (mkThirdBody 0 {[sp := 1%float]} true (mass_action tb)))
  ∧ (no_shared_species R ∨ two_shared_species R
     ∨ ∃ sp, only_shared_species R sp).
Proof.
  intros Htb Heff. split; [|split; [|split]].
  - by apply (detectEfficiencies_none R tb).
  - by apply (detectEfficiencies_two R tb).
  - intros sp Hsp.
    destruct (detectEfficiencies_one R tb sp Htb Heff Hsp)
      as (r & p & _ & _ & ->).
    eexists. split; [done|]. done.
  - destruct (detect_partners_cases R)
      as [[_ Hnone]|[(sp & _ & _ & Hsp)|(e1 & e2 & l & _ & Htwo)]]; eauto.
Qed.

Lemma count_is_one {V : Type} (m : gmap string V) (k : string) :
  negb (Composition.count m k =? 1) = bool_decide (m !! k = None).
Proof.
  unfold Composition.count. destruct (m !! k); by case_bool_decide.
Qed.

(** X7: let [R1] be the reaction after generic parsing, for a third body
    without efficiencies.  If "M" is on both sides, [setEquation] erases it
    from both, whatever its coefficients, and leaves the third body as it
    was.  If "M" is missing on a side, the outcome is that of
    [detectEfficiencies]: without a species on both sides the equation is
    refused for its missing "M"; with two it is refused for its collision
    partners; with exactly one, that species becomes the specified
    partner and its coefficient is decremented, or its entry erased, on
    each side, and an "M" on one side only stays in the composition. *)
Theorem ThreeBodyReaction_setEquation_outcomes (R R1 : Reaction) (tb : ThirdBody)
    (equation : string) (kin : option Kinetics) :
  Reaction_setEquation R equation kin = Ok R1 →
  m_third_body R = Some tb → efficiencies tb = ∅ →
  (is_Some (reactants R1 !! "M") → is_Some (products R1 !! "M") →
     ThreeBodyReaction_setEquation R equation kin
     = Ok (set_products (delete "M" (products R1))
             (set_reactants (delete "M" (reactants R1)) R1))
     ∧ m_third_body R1 = Some tb)
  ∧ (reactants R1 !! "M" = None ∨ products R1 !! "M" = None →
       (no_shared_species R1 →
          ThreeBodyReaction_setEquation R equation kin = Throw MissingThirdBodyM)
       ∧ (two_shared_species R1 →
            ThreeBodyReaction_setEquation R equation kin
            = Throw MultipleCollisionPartners)
       ∧ (∀ sp, only_shared_species R1 sp →
            ∃ R2 r p, ThreeBodyReaction_setEquation R equation kin = Ok R2
              ∧ reactants R1 !! sp = Some r ∧ products R1 !! sp = Some p
              ∧ m_third_body R2
                = Some (mkThirdBody 0 {[sp := 1%float]} true (mass_action tb))
              ∧ reactants R2
                = (if Double.neqb (Double.trunc r) 1
                   then <[sp := PrimFloat.sub r 1]> (reactants R1)
                   else delete sp (reactants R1))
              ∧ products R2
                = (if Double.neqb (Double.trunc p) 1
                   then <[sp := PrimFloat.sub p 1]> (products R1)
                   else delete sp (products R1)))).
Proof.
  intros Hparse Htb Heff.
  pose proof Hparse as Hframe.
  apply parseReactionEquation_frame in Hframe as [Htb1 _].
  rewrite Htb in Htb1.
  unfold ThreeBodyReaction_setEquation. rewrite Hparse. simpl.
  rewrite !count_is_one. split.
  - intros [r Hr] [p Hp].
    rewrite bool_decide_eq_false_2 by congruence.
    rewrite bool_decide_eq_false_2 by congruence.
    done.
  - intros HM.
    assert (bool_decide (reactants R1 !! "M" = None)
            || bool_decide (products R1 !! "M" = None) = true) as ->.
    { destruct HM as [HM|HM]; rewrite (bool_decide_eq_true_2 _ HM);
        [done|by rewrite orb_true_r]. }
    split; [|split].
    + intros Hnone. by rewrite (detectEfficiencies_none R1 tb).
    + intros Htwo. by rewrite (detectEfficiencies_two R1 tb).
    + intros sp Hsp.
      destruct (detectEfficiencies_one R1 tb sp Htb1 Heff Hsp)
        as (r & p & Hr & Hp & ->).
      simpl. eexists _, r, p. split; [done|]. done.
Qed.

End ThreeBodyOutcomes.

(** ** [FalloffReaction::setEquation] on well-formed equations *)

Section FalloffEquations.
Context `{!CanteraBase}.

Lemma add_all_is_Some (es : list (string * float)) (m : gmap string float)
    (k : string) :
  is_Some (add_all es m !! k) ↔ k ∈ es.*1 ∨ is_Some (m !! k).
Proof.
  revert m. induction es as [|[k' v'] es IH]; intros m; simpl.
  - rewrite elem_of_nil. tauto.
  - unfold add_all in *. simpl. rewrite IH, add_is_Some, elem_of_cons.
    naive_solver.
Qed.

Lemma add_all_app (es1 es2 : list (string * float)) (m : gmap string float) :
  add_all (es1 ++ es2) m = add_all es2 (add_all es1 m).
Proof. apply fold_left_app. Qed.

Lemma bare_not_bracket (name : string) :
  completes_term name = false → starts_with name "(+" = false.
Proof.
  unfold completes_term. intros Hb.
  destruct (starts_with name "(+"); [|done].
  by destruct (String.eqb name "+").
Qed.

Lemma starts_with_append (rest : string) :
  starts_with (String.append "(+" rest) "(+" = true.
Proof. by destruct rest. Qed.

Lemma term_ok_bare (t : Term) :
  term_ok t = true → completes_term (term_name t) = false.
Proof.
  destruct t as [name|numeral name]; simpl; intros Hok.
  - by apply negb_true_iff.
  - apply andb_true_iff in Hok as [Hok _].
    apply andb_true_iff in Hok as [_ Hok]. by apply negb_true_iff.
Qed.

Lemma term_entries_bare (s : Side) (k : string) :
  side_ok s = true → k ∈ (term_entries s).*1 → completes_term k = false.
Proof.
  unfold side_ok, term_entries, side_terms. intros Hok Hk.
  apply andb_true_iff in Hok as [Hok _].
  apply andb_true_iff in Hok as [Hts Ht].
  apply list_elem_of_fmap in Hk as ([k' v] & -> & Hk).
  apply list_elem_of_fmap in Hk as (t & Heq & Hin).
  injection Heq as -> ->. apply term_ok_bare.
  apply elem_of_app in Hin as [Hin|Hin].
  - rewrite forallb_forall in Hts. apply Hts. by apply list_elem_of_In.
  - apply list_elem_of_singleton in Hin. by subst.
Qed.

(** The composition of a side that ends with the bracket [b]. *)
Lemma add_all_bracket (s : Side) (br : Bracket) :
  side_ok s = true → bracket s = Some br →
  starts_with (bracket_name br) "(+" = true →
  add_all (term_entries s) ∅ !! bracket_name br = None
  ∧ add_all (side_entries s) ∅
    = <[bracket_name br := (-1)%float]> (add_all (term_entries s) ∅).
Proof.
  intros Hok Hbr Hs.
  assert (add_all (term_entries s) ∅ !! bracket_name br = None) as Hnone.
  { apply eq_None_not_Some. rewrite add_all_is_Some. intros [Hin|[? Hin]].
    - apply (term_entries_bare _ _ Hok), bare_not_bracket in Hin. congruence.
    - by rewrite lookup_empty in Hin. }
  split; [done|]. unfold side_entries. rewrite Hbr. simpl.
  rewrite add_all_app. unfold add_all at 1. simpl.
  by rewrite add_fresh.
Qed.

(** X8: on a new falloff reaction, a well-formed equation whose two sides
    close with the bracket of the same name [X], written "(+X)" or "(+ X)",
    is accepted by [FalloffReaction::setEquation]: the reactants and the
    products are the terms of the two sides without the bracket, and the
    third body is the generic one when [X] is "M" and otherwise the
    specified partner [X] with efficiency 1 and default efficiency 0. *)
Theorem FalloffReaction_setEquation_well_formed (equation : string)
    (kin : option Kinetics) (l : Side) (sep : string) (r : Side)
    (bl br : Bracket) (X : string) :
  tokenizeString equation = equation_tokens l sep r →
  side_ok l = true → side_ok r = true → is_separator sep = true →
  Z.of_nat (length (tokenizeString equation)) < Double.size_t_modulus →
  bracket l = Some bl → bracket r = Some br →
  bracket_name bl = String.append "(+" (String.append X ")") →
  bracket_name br = String.append "(+" (String.append X ")") →
  Z.of_nat (String.length X) + 3 < Double.size_t_modulus →
  ∃ R', FalloffReaction_setEquation FalloffReaction_new equation kin = Ok R'
    ∧ reactants R' = add_all (term_entries l) ∅
    ∧ products R' = add_all (term_entries r) ∅
    ∧ reversible R' = negb (String.eqb sep "=>")
    ∧ m_third_body R'
      = Some (if String.eqb X "M" then mkThirdBody 1 ∅ false false
              else mkThirdBody 0 {[X := 1%float]} true false).
Proof.
  intros Htok Hl Hr Hsep Hlen Hbl Hbr Hnl Hnr HX.
  set (b := String.append "(+" (String.append X ")")) in *.
  assert (starts_with b "(+" = true) as Hsb by apply starts_with_append.
  destruct (add_all_bracket l bl Hl Hbl) as [Hlnone Hladd]; [by rewrite Hnl|].
  destruct (add_all_bracket r br Hr Hbr) as [Hrnone Hradd]; [by rewrite Hnr|].
  rewrite Hnl in *. rewrite Hnr in *.
  unfold FalloffReaction_setEquation, Reaction_setEquation, parseReactionEquation.
  rewrite Htok in *. rewrite parse_tokens_well_formed by done.
  cbn [mbind result_bind].
  set (R1 := add_entries kin false (side_entries r)
               (set_reversible (negb (String.eqb sep "=>"))
                  (add_entries kin true (side_entries l) FalloffReaction_new))).
  assert (reactants R1 = <[b := (-1)%float]> (add_all (term_entries l) ∅)) as Hreac.
  { subst R1. rewrite reactants_add_entries. simpl.
    by rewrite reactants_add_entries. }
  assert (products R1 = <[b := (-1)%float]> (add_all (term_entries r) ∅)) as Hprod.
  { subst R1. rewrite products_add_entries. simpl.
    by rewrite products_add_entries. }
  assert (reversible R1 = negb (String.eqb sep "=>")) as Hrev.
  { subst R1. by rewrite reversible_add_entries. }
  assert (m_third_body R1 = Some (mkThirdBody 1 ∅ false false)) as Htb.
  { subst R1. rewrite third_body_add_entries. simpl.
    by rewrite third_body_add_entries. }
  clearbody R1.
  (* the search finds the bracket *)
  assert (find_falloff_term R1 = Some (b, (-1)%float)) as Hfind.
  { destruct (find_falloff_term R1) as [[name c]|] eqn:Hfind.
    - apply find_falloff_term_Some in Hfind as (Hname & Hc & Hs).
      rewrite Hreac in Hname.
      apply lookup_insert_Some in Hname as [[<- <-]|[Hne Hname]]; [done|].
      assert (is_Some (add_all (term_entries l) ∅ !! name)) as Hin by eauto.
      apply add_all_is_Some in Hin as [Hin|[? Hin]].
      + apply (term_entries_bare _ _ Hl), bare_not_bracket in Hin. congruence.
      + by rewrite lookup_empty in Hin.
    - apply find_falloff_term_None in Hfind. destruct Hfind.
      exists b, (-1)%float. rewrite Hreac, lookup_insert_eq. done. }
  rewrite Hfind. cbn [fst snd].
  rewrite (starts_with_nonempty _ Hsb).
  unfold Composition.count. rewrite Hprod, lookup_insert_eq. simpl.
  rewrite Htb. unfold b in *. rewrite (interior_name_bracket X HX).
  destruct (String.eqb X "M"); eexists; (split; [done|]); simpl;
    rewrite Hreac, Hprod, !delete_insert_id by done;
    rewrite ?emplace_empty; done.
Qed.

End FalloffEquations.

(** ** [setParameters] and [ThirdBody::efficiency] *)

Section Parameters.
Context `{!CanteraBase}.

(** The loop over the orders of the node, entry by entry. *)
Lemma set_node_orders_fold (kin : Kinetics) (l : list (string * float)) :
  ∀ R : Reaction,
  let R' := fold_left (λ R (order : string * float),
              let R := set_orders (<[order.1 := order.2]> (orders R)) R in
              if kineticsSpeciesIndex kin order.1 =? npos then setValid false R else R)
              l R in
  keeps_members (set_orders ∅ R) (set_orders ∅ R')
  ∧ m_third_body R' = m_third_body R
  ∧ reactants R' = reactants R ∧ products R' = products R
  ∧ reversible R' = reversible R
  ∧ (NoDup l.*1 → ∀ k v, (k, v) ∈ l → orders R' !! k = Some v)
  ∧ (∀ k, k ∉ l.*1 → orders R' !! k = orders R !! k)
  ∧ (m_valid R' = true ↔
       m_valid R = true ∧ ∀ k, k ∈ l.*1 → kineticsSpeciesIndex kin k ≠ npos).
Proof.
  induction l as [|[k0 v0] l IH]; intros R; cbn [fold_left].
  - cbv zeta. split; [by repeat split|]. do 4 (split; [done|]).
    split; [intros _ k v Hin; by apply elem_of_nil in Hin|].
    split; [done|]. split; [intros ?; split; [done|]|tauto].
    intros k Hin. by apply elem_of_nil in Hin.
  - cbn [fst snd].
    set (R1 := if kineticsSpeciesIndex kin k0 =? npos
               then setValid false (set_orders (<[k0 := v0]> (orders R)) R)
               else set_orders (<[k0 := v0]> (orders R)) R).
    specialize (IH R1). cbv zeta in IH |- *.
    destruct IH as (Hk & Htb & Hr & Hp & Hrev & Hin & Hnotin & Hvalid).
    assert (orders R1 = <[k0 := v0]> (orders R)) as Ho1.
    { subst R1. by destruct (_ =? _). }
    assert (m_valid R1 = m_valid R && negb (kineticsSpeciesIndex kin k0 =? npos))
      as Hv1.
    { subst R1. destruct (_ =? _); simpl; by rewrite ?andb_true_r, ?andb_false_r. }
    assert (keeps_members (set_orders ∅ R) (set_orders ∅ R1)
            ∧ m_third_body R1 = m_third_body R
            ∧ reactants R1 = reactants R ∧ products R1 = products R
            ∧ reversible R1 = reversible R) as (Hk1 & Htb1 & Hr1 & Hp1 & Hrev1).
    { subst R1. destruct (_ =? _); by repeat split. }
    split; [by eapply keeps_members_trans|].
    split; [congruence|]. split; [congruence|]. split; [congruence|].
    split; [congruence|]. rewrite fmap_cons. cbn [fst].
    split; [|split].
    + intros Hnd k v Hkv. apply NoDup_cons in Hnd as [Hk0 Hnd].
      apply elem_of_cons in Hkv as [[= -> ->]|Hkv].
      * rewrite Hnotin by done. by rewrite Ho1, lookup_insert_eq.
      * by apply Hin.
    + intros k Hk'. apply not_elem_of_cons in Hk' as [Hne Hk'].
      rewrite Hnotin by done. by rewrite Ho1, lookup_insert_ne.
    + rewrite Hvalid, Hv1, andb_true_iff, negb_true_iff, Z.eqb_neq.
      setoid_rewrite elem_of_cons. naive_solver.
Qed.

Lemma items_keys {V : Type} (m : gmap string V) (k : string) :
  k ∈ (Composition.items m).*1 ↔ is_Some (m !! k).
Proof.
  rewrite list_elem_of_fmap. split.
  - intros ([k' v] & -> & Hin%elem_of_items). eauto.
  - intros [v Hv]. exists (k, v). split; [done | by apply elem_of_items].
Qed.

Lemma set_node_orders_spec (R : Reaction) (os : gmap string float) (kin : Kinetics) :
  let R' := set_node_orders R os kin in
  keeps_members (set_orders ∅ R) (set_orders ∅ R')
  ∧ m_third_body R' = m_third_body R
  ∧ reactants R' = reactants R ∧ products R' = products R
  ∧ reversible R' = reversible R
  ∧ (∀ k, orders R' !! k = match os !! k with
                            | Some v => Some v
                            | None => orders R !! k
                            end)
  ∧ (m_valid R' = true ↔
       m_valid R = true
       ∧ ∀ k, is_Some (os !! k) → kineticsSpeciesIndex kin k ≠ npos).
Proof.
  cbv zeta. unfold set_node_orders.
  destruct (set_node_orders_fold kin (Composition.items os) R)
    as (Hk & Htb & Hr & Hp & Hrev & Hin & Hnotin & Hvalid).
  do 5 (split; [done|]). split.
  - intros k. destruct (os !! k) as [v|] eqn:Hkv.
    + apply Hin; [apply NoDup_fst_items | by apply elem_of_items].
    + apply Hnotin. rewrite items_keys, Hkv. by intros [? ?].
  - rewrite Hvalid. by setoid_rewrite items_keys.
Qed.

Lemma detectEfficiencies_keeps (R R' : Reaction) (found : bool) :
  detectEfficiencies R = Ok (found, R') →
  keeps_members R R' ∧ m_valid R' = m_valid R ∧ reversible R' = reversible R.
Proof.
  unfold detectEfficiencies. destruct (m_third_body R) as [tb|]; [|done].
  destruct (Composition.items _) as [|sp [|sp' l]]; [| |done].
  - intros [= <- <-]. by repeat split.
  - destruct (adjust_coefficient (reactants R) sp.1) as [reac|]; [|done]. simpl.
    destruct (adjust_coefficient (products R) sp.1) as [prod|]; [|done]. simpl.
    intros [= <- <-]. by repeat split.
Qed.

Lemma ThreeBodyReaction_setEquation_keeps (R R' : Reaction) (equation : string)
    (kin : option Kinetics) :
  ThreeBodyReaction_setEquation R equation kin = Ok R' →
  keeps_members R R' ∧ (valid R = false → valid R' = false).
Proof.
  unfold ThreeBodyReaction_setEquation, Reaction_setEquation.
  destruct (parseReactionEquation R equation kin) as [R1|] eqn:Hparse; [|done].
  apply parseReactionEquation_keeps in Hparse as (Hk & _ & Hv). simpl.
  destruct (_ || _).
  - destruct (detectEfficiencies R1) as [[found R2]|] eqn:Hdet; [|done]. simpl.
    destruct found; [|done]. intros [= <-].
    apply detectEfficiencies_keeps in Hdet as (Hk2 & Hv2 & _).
    split; [by eapply keeps_members_trans|].
    intros Hf. unfold valid in *. rewrite Hv2. auto.
  - intros [= <-]. split; [|done].
    eapply keeps_members_trans; [done|by repeat split].
Qed.

Lemma FalloffReaction_setEquation_keeps (R R' : Reaction) (equation : string)
    (kin : option Kinetics) :
  FalloffReaction_setEquation R equation kin = Ok R' →
  keeps_members R R' ∧ (valid R = false → valid R' = false).
Proof.
  unfold FalloffReaction_setEquation, Reaction_setEquation.
  destruct (parseReactionEquation R equation kin) as [R1|] eqn:Hparse; [|done].
  apply parseReactionEquation_keeps in Hparse as (Hk & _ & Hv). simpl.
  destruct (match find_falloff_term R1 with
            | Some reactant => (reactant.1, interior_name reactant.1)
            | None => ("", "")
            end) as [third_body_str third_body].
  destruct (String.eqb third_body_str ""); [done|].
  destruct (_ =? 0); [done|]. simpl.
  destruct (m_third_body R1) as [tb|]; [|done].
  destruct (String.eqb third_body "M"); intros [= <-];
    (split; [|done]); (eapply keeps_members_trans; [done|by repeat split]).
Qed.

Lemma setEquation_keeps (R R' : Reaction) (equation : string)
    (kin : option Kinetics) :
  setEquation R equation kin = Ok R' →
  keeps_members R R' ∧ (valid R = false → valid R' = false).
Proof.
  unfold setEquation. destruct (class R).
  - intros Hparse. by apply parseReactionEquation_keeps in Hparse as (? & _ & ?).
  - apply ThreeBodyReaction_setEquation_keeps.
  - apply FalloffReaction_setEquation_keeps.
  - intros Hparse. by apply parseReactionEquation_keeps in Hparse as (? & _ & ?).
Qed.

Lemma Reaction_setParameters_members (R R' : Reaction) (node : AnyMap)
    (kin : Kinetics) :
  AnyMap_is_empty node = false →
  Reaction_setParameters R node kin = Ok R' →
  input R' = node ∧ class R' = class R ∧ m_rate R' = m_rate R
  ∧ id R' = default "" (node_id node)
  ∧ duplicate R' = default false (node_duplicate node)
  ∧ allow_negative_orders R' = default false (node_negative_orders node)
  ∧ allow_nonreactant_orders R' = default false (node_nonreactant_orders node)
  ∧ (∀ k, orders R' !! k = match node_order node k with
                            | Some v => Some v
                            | None => orders R !! k
                            end)
  ∧ (valid R' = true →
       valid R = true
       ∧ ∀ k, is_Some (node_order node k) → kineticsSpeciesIndex kin k ≠ npos)
  ∧ ∃ equation R1, node_equation node = Some equation
      ∧ setEquation (set_input node R) equation (Some kin) = Ok R1
      ∧ m_third_body R' = m_third_body R1
      ∧ reactants R' = reactants R1 ∧ products R' = products R1
      ∧ reversible R' = reversible R1.
Proof.
  intros Hne. unfold Reaction_setParameters. rewrite Hne.
  destruct (node_equation node) as [equation|]; [|done]. simpl.
  destruct (setEquation (set_input node R) equation (Some kin)) as [R1|] eqn:Heq;
    [|done]. simpl.
  intros [= <-].
  apply setEquation_keeps in Heq as Hkeep.
  destruct Hkeep as ((Hc & Ho & _ & _ & _ & _ & Hi & Hrate) & Hv).
  simpl in *. unfold node_order.
  destruct (node_orders node) as [os|]; simpl.
  - destruct (set_node_orders_spec R1 os kin)
      as ((Hc2 & _ & _ & _ & _ & _ & Hi2 & Hrate2) & Htb & Hr & Hp & Hrev
          & Hos & Hvalid).
    simpl in *.
    split; [congruence|]. split; [congruence|]. split; [congruence|].
    do 4 (split; [done|]). split; [|split].
    + intros k. rewrite Hos, Ho. done.
    + unfold valid. simpl. intros Hv'. apply Hvalid in Hv' as [Hv1 Hdecl].
      split; [|done]. destruct (m_valid R) eqn:HvR; [done|].
      unfold valid in Hv. rewrite Hv in Hv1 by done. done.
    + eauto 10.
  - split; [congruence|]. split; [congruence|]. split; [congruence|].
    do 4 (split; [done|]). split; [|split].
    + intros k. by rewrite Ho.
    + unfold valid. simpl. intros Hv'. split.
      * destruct (m_valid R) eqn:HvR; [done|].
        unfold valid in Hv. rewrite Hv in Hv' by done. done.
      * intros k [? [=]].
    + eauto 10.
Qed.

Lemma set_node_efficiencies_members (R R' : Reaction) (node : AnyMap) :
  set_node_efficiencies R node = Ok R' →
  ∃ tb, m_third_body R = Some tb
    ∧ R' = (if specified_collision_partner tb then R
            else set_third_body (Some (setEfficiencies tb node)) R).
Proof.
  unfold set_node_efficiencies. destruct (m_third_body R) as [tb|]; [|done].
  exists tb. split; [done|].
  destruct (specified_collision_partner tb); simpl in *; congruence.
Qed.

(** X9: [setParameters], for every class of reaction.  A node is empty
    exactly when it holds no key at all, neither one of those read here
    nor any other; an empty node changes nothing; a node that is not empty
    and has no equation, such as one that holds only the parameters of a
    rate, is refused for the missing key; and when the call returns for a
    node that is not empty, the input is the node, the class and the rate
    are unchanged, the identifier and the three flags are those of the
    node, with the empty string and false for the keys it lacks, each
    order of the node replaces or extends the orders while the other
    orders are kept, and the reaction is valid only if it was valid before
    and every species with an order in the node is declared. *)
Theorem setParameters_members (R : Reaction) (node : AnyMap) (kin : Kinetics) :
  (AnyMap_is_empty node = true ↔ node = AnyMap_new)
  ∧ (AnyMap_is_empty node = true → setParameters R node kin = Ok R)
  ∧ (AnyMap_is_empty node = false → node_equation node = None →
       setParameters R node kin = Throw (MissingKey "equation"))
  ∧ (∀ R', AnyMap_is_empty node = false →
       setParameters R node kin = Ok R' →
       input R' = node ∧ class R' = class R ∧ m_rate R' = m_rate R
       ∧ id R' = default "" (node_id node)
       ∧ duplicate R' = default false (node_duplicate node)
       ∧ allow_negative_orders R' = default false (node_negative_orders node)
       ∧ allow_nonreactant_orders R'
         = default false (node_nonreactant_orders node)
       ∧ (∀ k, orders R' !! k = match node_order node k with
                                 | Some v => Some v
                                 | None => orders R !! k
                                 end)
       ∧ (valid R' = true →
            valid R = true
            ∧ ∀ k, is_Some (node_order node k) →
                   kineticsSpeciesIndex kin k ≠ npos)).
Proof.
  split; [|split; [|split]].
  - split; [|by intros ->].
    by destruct node as [[] [] [] [] [] [] [] [] [] []].
  - intros He. unfold setParameters, ThreeBodyReaction_setParameters,
      FalloffReaction_setParameters, Reaction_setParameters.
    rewrite He. by destruct (class R).
  - intros Hne Heq. unfold setParameters, ThreeBodyReaction_setParameters,
      FalloffReaction_setParameters, Reaction_setParameters.
    rewrite Hne, Heq. by destruct (class R).
  - intros R' Hne Hset.
    assert (∃ R2, Reaction_setParameters R node kin = Ok R2
                  ∧ (R' = R2
                     ∨ ∃ tb, R' = set_third_body tb R2)) as (R2 & HR2 & HR').
    { unfold setParameters, ThreeBodyReaction_setParameters,
        FalloffReaction_setParameters in Hset. rewrite Hne in Hset.
      destruct (class R); eauto;
        (destruct (Reaction_setParameters R node kin) as [R2|]; [|done];
         simpl in Hset; exists R2; split; [done|];
         apply set_node_efficiencies_members in Hset as (tb & _ & ->);
         destruct (specified_collision_partner tb); eauto). }
    destruct (Reaction_setParameters_members R R2 node kin Hne HR2)
      as (H1 & H2 & H3 & H4 & H5 & H6 & H7 & H8 & H9 & _).
    destruct HR' as [->|[tb ->]]; done.
Qed.

Lemma setEquation_generic_or_partner (R R' : Reaction) (tb tb' : ThirdBody)
    (equation : string) (kin : option Kinetics) :
  class R = ThreeBodyClass ∨ class R = FalloffClass →
  m_third_body R = Some tb → generic_or_partner tb →
  specified_collision_partner tb = false →
  setEquation R equation kin = Ok R' →
  m_third_body R' = Some tb' → generic_or_partner tb'.
Proof.
  intros Hclass Htb Hgen Hspec. unfold generic_or_partner in Hgen.
  rewrite Hspec in Hgen. destruct Hgen as [Heff Hdef].
  unfold setEquation.
  destruct Hclass as [-> | ->].
  - unfold ThreeBodyReaction_setEquation, Reaction_setEquation.
    destruct (parseReactionEquation R equation kin) as [R1|] eqn:Hparse; [|done].
    apply parseReactionEquation_keeps in Hparse as (_ & Htb1 & _). simpl.
    rewrite Htb in Htb1.
    destruct (_ || _).
    + destruct (detect_partners_cases R1)
        as [[_ Hnone]|[(sp & _ & _ & Hsp)|(e1 & e2 & l & _ & Htwo)]].
      * by rewrite (detectEfficiencies_none R1 tb).
      * destruct (detectEfficiencies_one R1 tb sp Htb1 Heff Hsp)
          as (r & p & _ & _ & ->). simpl.
        intros [= <-]. simpl. intros [= <-].
        unfold generic_or_partner. simpl. eauto.
      * by rewrite (detectEfficiencies_two R1 tb).
    + intros [= <-]. simpl. rewrite Htb1. intros [= <-].
      unfold generic_or_partner. by rewrite Hspec.
  - unfold FalloffReaction_setEquation, Reaction_setEquation.
    destruct (parseReactionEquation R equation kin) as [R1|] eqn:Hparse; [|done].
    apply parseReactionEquation_keeps in Hparse as (_ & Htb1 & _). simpl.
    rewrite Htb in Htb1.
    destruct (match find_falloff_term R1 with
              | Some reactant => (reactant.1, interior_name reactant.1)
              | None => ("", "")
              end) as [third_body_str third_body].
    destruct (String.eqb third_body_str ""); [done|].
    destruct (_ =? 0); [done|]. simpl. rewrite Htb1.
    destruct (String.eqb third_body "M"); intros [= <-]; simpl; intros [= <-];
      unfold generic_or_partner; simpl.
    + done.
    + rewrite Heff, emplace_empty. eauto.
Qed.

(** Whatever the equation, when [setParameters] returns on a new three-body
    or falloff reaction the efficiencies are those of a single partner or
    those of the node. *)
Lemma efficiency_shape_after_setParameters (R R' : Reaction) (tb' : ThirdBody)
    (node : AnyMap) (kin : Kinetics) :
  R = ThreeBodyReaction_new ∨ R = FalloffReaction_new →
  setParameters R node kin = Ok R' →
  m_third_body R' = Some tb' →
  (specified_collision_partner tb' = true →
     ∃ sp, ∀ k, efficiency tb' k = if decide (k = sp) then 1%float else 0%float)
  ∧ (specified_collision_partner tb' = false →
       ∀ k, efficiency tb' k
            = match node_efficiency node k with
              | Some e => e
              | None => default 1%float (node_default_efficiency node)
              end).
Proof.
  intros HR Hset Htb'.
  assert (class R = ThreeBodyClass ∨ class R = FalloffClass) as Hclass
    by (destruct HR as [-> | ->]; auto).
  assert (∃ tb, m_third_body R = Some tb ∧ generic_or_partner tb
                ∧ specified_collision_partner tb = false)
    as (tb & Htb & Hgen & Hspec).
  { destruct HR as [-> | ->]; eexists; (split; [reflexivity|]); done. }
  destruct (AnyMap_is_empty node) eqn:He.
  - (* nothing is read from an empty node *)
    assert (R' = R) as ->.
    { unfold setParameters, ThreeBodyReaction_setParameters,
        FalloffReaction_setParameters, Reaction_setParameters in Hset.
      rewrite He in Hset. destruct (class R); congruence. }
    rewrite Htb in Htb'. injection Htb' as <-. rewrite Hspec.
    split; [done|]. intros _ k.
    unfold generic_or_partner in Hgen. rewrite Hspec in Hgen.
    destruct Hgen as [Heff Hdef].
    unfold efficiency, getValue, node_efficiency. rewrite Heff, lookup_empty, Hdef.
    by destruct node as [[] [] [] [] [] [] [] [] [] []].
  - assert (∃ R2 tb2, Reaction_setParameters R node kin = Ok R2
                      ∧ m_third_body R2 = Some tb2 ∧ generic_or_partner tb2
                      ∧ set_node_efficiencies R2 node = Ok R')
      as (R2 & tb2 & HR2 & Htb2 & Hgen2 & Heffs).
    { unfold setParameters, ThreeBodyReaction_setParameters,
        FalloffReaction_setParameters in Hset. rewrite He in Hset.
      assert (Reaction_setParameters R node kin ≫= (λ R, set_node_efficiencies R node)
              = Ok R') as Hset'
        by (destruct Hclass as [Hc|Hc]; by rewrite Hc in Hset).
      destruct (Reaction_setParameters R node kin) as [R2|] eqn:HR2; [|done].
      simpl in Hset'.
      destruct (Reaction_setParameters_members R R2 node kin He HR2)
        as (_&_&_&_&_&_&_&_&_& equation & R1 & _ & Heq & HtbR2 & _).
      apply set_node_efficiencies_members in Hset' as Hm.
      destruct Hm as (tb2 & Htb2 & _).
      exists R2, tb2. split; [done|]. split; [done|]. split; [|done].
      eapply (setEquation_generic_or_partner (set_input node R) R1 tb tb2);
        [done|done|done|done|done|congruence]. }
    apply set_node_efficiencies_members in Heffs as (tb2' & Htb2' & ->).
    rewrite Htb2 in Htb2'. injection Htb2' as <-.
    unfold generic_or_partner in Hgen2.
    destruct (specified_collision_partner tb2) eqn:Hs2.
    + rewrite Htb2 in Htb'. injection Htb' as <-. rewrite Hs2.
      split; [|done]. intros _.
      destruct Hgen2 as (sp & Heff & Hdef). exists sp. intros k.
      unfold efficiency, getValue. rewrite Heff, Hdef.
      destruct (decide (k = sp)) as [->|Hne].
      * by rewrite lookup_singleton_eq.
      * by rewrite lookup_singleton_ne.
    + simpl in Htb'. injection Htb' as <-. simpl. rewrite Hs2.
      split; [done|]. intros _ k.
      destruct Hgen2 as [Heff Hdef].
      unfold efficiency, getValue, node_efficiency. simpl.
      destruct (node_efficiencies node) as [eff|]; simpl.
      * by destruct (eff !! k).
      * by rewrite Heff, lookup_empty.
Qed.

(** The reaction after the generic parsing of a well-formed equation, on a
    reaction without reactants and products. *)
Lemma parse_well_formed_sides (R0 : Reaction) (kin : option Kinetics)
    (l : Side) (sep : string) (r : Side) :
  reactants R0 = ∅ → products R0 = ∅ →
  let R1 := add_entries kin false (side_entries r)
              (set_reversible (negb (String.eqb sep "=>"))
                 (add_entries kin true (side_entries l) R0)) in
  reactants R1 = add_all (side_entries l) ∅
  ∧ products R1 = add_all (side_entries r) ∅
  ∧ m_third_body R1 = m_third_body R0
  ∧ (∀ k, on_both_sides R1 k ↔
          k ∈ (side_entries l).*1 ∧ k ∈ (side_entries r).*1).
Proof.
  intros Hr0 Hp0 R1.
  assert (reactants R1 = add_all (side_entries l) ∅) as Hr.
  { subst R1. rewrite reactants_add_entries. simpl.
    by rewrite reactants_add_entries, Hr0. }
  assert (products R1 = add_all (side_entries r) ∅) as Hp.
  { subst R1. rewrite products_add_entries. simpl.
    by rewrite products_add_entries, Hp0. }
  split; [done|]. split; [done|]. split.
  - subst R1. rewrite third_body_add_entries. simpl.
    by rewrite third_body_add_entries.
  - intros k. unfold on_both_sides. rewrite Hr, Hp, !add_all_is_Some.
    rewrite lookup_empty. split.
    + intros [[?|[? [=]]] [?|[? [=]]]]. done.
    + intros [? ?]. auto.
Qed.

Lemma side_entries_names (s : Side) :
  bracket s = None → (side_entries s).*1 = side_names s.
Proof.
  intros Hb. unfold side_entries, term_entries, side_names. rewrite Hb. simpl.
  rewrite app_nil_r.
  change (List.map term_entry (side_terms s)) with (term_entry <$> side_terms s).
  by rewrite <-list_fmap_compose.
Qed.

(** A three-body equation with "M" on both sides leaves the third body as
    it was. *)
Lemma ThreeBodyReaction_setEquation_generic (R0 : Reaction) (equation : string)
    (kin : option Kinetics) (l : Side) (sep : string) (r : Side) :
  tokenizeString equation = equation_tokens l sep r →
  side_ok l = true → side_ok r = true → is_separator sep = true →
  Z.of_nat (length (tokenizeString equation)) < Double.size_t_modulus →
  reactants R0 = ∅ → products R0 = ∅ →
  "M" ∈ (side_entries l).*1 → "M" ∈ (side_entries r).*1 →
  ∃ R2, ThreeBodyReaction_setEquation R0 equation kin = Ok R2
    ∧ m_third_body R2 = m_third_body R0.
Proof.
  intros Htok Hl Hr Hsep Hlen Hr0 Hp0 Hml Hmr.
  unfold ThreeBodyReaction_setEquation, Reaction_setEquation, parseReactionEquation.
  rewrite Htok in *. rewrite parse_tokens_well_formed by done.
  cbn [mbind result_bind].
  destruct (parse_well_formed_sides R0 kin l sep r Hr0 Hp0)
    as (Hreac & Hprod & Htb & Hboth).
  set (R1 := add_entries kin false (side_entries r)
               (set_reversible (negb (String.eqb sep "=>"))
                  (add_entries kin true (side_entries l) R0))) in *.
  clearbody R1. rewrite !count_is_one.
  destruct (proj2 (Hboth "M") (conj Hml Hmr)) as [[rc Hrc] [pc Hpc]].
  rewrite Hrc, Hpc. rewrite !bool_decide_eq_false_2 by done. simpl.
  eexists. split; [done|]. done.
Qed.

(** A three-body equation with exactly one species on both sides, other
    than "M", makes it the specified partner. *)
Lemma ThreeBodyReaction_setEquation_partner (R0 : Reaction) (tb0 : ThirdBody)
    (equation : string) (kin : option Kinetics) (l : Side) (sep : string)
    (r : Side) (sp : string) :
  tokenizeString equation = equation_tokens l sep r →
  side_ok l = true → side_ok r = true → is_separator sep = true →
  Z.of_nat (length (tokenizeString equation)) < Double.size_t_modulus →
  reactants R0 = ∅ → products R0 = ∅ →
  m_third_body R0 = Some tb0 → efficiencies tb0 = ∅ →
  (∀ k, k ∈ (side_entries l).*1 ∧ k ∈ (side_entries r).*1 ↔ k = sp) →
  sp ≠ "M" →
  ∃ R2, ThreeBodyReaction_setEquation R0 equation kin = Ok R2
    ∧ m_third_body R2
      = Some (mkThirdBody 0 {[sp := 1%float]} true (mass_action tb0)).
Proof.
  intros Htok Hl Hr Hsep Hlen Hr0 Hp0 Htb0 Heff0 Hshared HneM.
  unfold ThreeBodyReaction_setEquation, Reaction_setEquation, parseReactionEquation.
  rewrite Htok in *. rewrite parse_tokens_well_formed by done.
  cbn [mbind result_bind].
  destruct (parse_well_formed_sides R0 kin l sep r Hr0 Hp0)
    as (Hreac & Hprod & Htb & Hboth).
  set (R1 := add_entries kin false (side_entries r)
               (set_reversible (negb (String.eqb sep "=>"))
                  (add_entries kin true (side_entries l) R0))) in *.
  clearbody R1. rewrite !count_is_one. rewrite Htb0 in Htb.
  assert (bool_decide (reactants R1 !! "M" = None)
          || bool_decide (products R1 !! "M" = None) = true) as ->.
  { destruct (reactants R1 !! "M") as [rc|] eqn:HrM; [|done].
    destruct (products R1 !! "M") as [pc|] eqn:HpM; [|done].
    destruct HneM. symmetry. apply Hshared, Hboth. split; by eauto. }
  assert (only_shared_species R1 sp) as Hone.
  { intros k. by rewrite Hboth. }
  destruct (detectEfficiencies_one R1 tb0 sp Htb Heff0 Hone)
    as (rc & pc & _ & _ & ->).
  simpl. eexists. split; [done|]. done.
Qed.

(** A falloff equation whose sides close with the bracket of [X]. *)
Lemma FalloffReaction_setEquation_bracket (R0 : Reaction) (tb0 : ThirdBody)
    (equation : string) (kin : option Kinetics) (l : Side) (sep : string)
    (r : Side) (bl br : Bracket) (X : string) :
  tokenizeString equation = equation_tokens l sep r →
  side_ok l = true → side_ok r = true → is_separator sep = true →
  Z.of_nat (length (tokenizeString equation)) < Double.size_t_modulus →
  reactants R0 = ∅ → products R0 = ∅ →
  m_third_body R0 = Some tb0 → efficiencies tb0 = ∅ →
  bracket l = Some bl → bracket r = Some br →
  bracket_name bl = String.append "(+" (String.append X ")") →
  bracket_name br = String.append "(+" (String.append X ")") →
  Z.of_nat (String.length X) + 3 < Double.size_t_modulus →
  ∃ R2, FalloffReaction_setEquation R0 equation kin = Ok R2
    ∧ m_third_body R2
      = Some (if String.eqb X "M"
              then mkThirdBody (default_efficiency tb0) ∅ false (mass_action tb0)
              else mkThirdBody 0 {[X := 1%float]} true (mass_action tb0)).
Proof.
  intros Htok Hl Hr Hsep Hlen Hr0 Hp0 Htb0 Heff0 Hbl Hbr Hnl Hnr HX.
  set (b := String.append "(+" (String.append X ")")) in *.
  assert (starts_with b "(+" = true) as Hsb by apply starts_with_append.
  destruct (add_all_bracket l bl Hl Hbl) as [Hlnone Hladd]; [by rewrite Hnl|].
  destruct (add_all_bracket r br Hr Hbr) as [Hrnone Hradd]; [by rewrite Hnr|].
  rewrite Hnl in *. rewrite Hnr in *.
  unfold FalloffReaction_setEquation, Reaction_setEquation, parseReactionEquation.
  rewrite Htok in *. rewrite parse_tokens_well_formed by done.
  cbn [mbind result_bind].
  destruct (parse_well_formed_sides R0 kin l sep r Hr0 Hp0)
    as (Hreac & Hprod & Htb & _).
  set (R1 := add_entries kin false (side_entries r)
               (set_reversible (negb (String.eqb sep "=>"))
                  (add_entries kin true (side_entries l) R0))) in *.
  clearbody R1. rewrite Hladd in Hreac. rewrite Hradd in Hprod.
  rewrite Htb0 in Htb.
  assert (find_falloff_term R1 = Some (b, (-1)%float)) as Hfind.
  { destruct (find_falloff_term R1) as [[name c]|] eqn:Hfind.
    - apply find_falloff_term_Some in Hfind as (Hname & Hc & Hs).
      rewrite Hreac in Hname.
      apply lookup_insert_Some in Hname as [[<- <-]|[Hne Hname]]; [done|].
      assert (is_Some (add_all (term_entries l) ∅ !! name)) as Hin by eauto.
      apply add_all_is_Some in Hin as [Hin|[? Hin]].
      + apply (term_entries_bare _ _ Hl), bare_not_bracket in Hin. congruence.
      + by rewrite lookup_empty in Hin.
    - apply find_falloff_term_None in Hfind. destruct Hfind.
      exists b, (-1)%float. rewrite Hreac, lookup_insert_eq. done. }
  rewrite Hfind. cbn [fst snd].
  rewrite (starts_with_nonempty _ Hsb).
  unfold Composition.count. rewrite Hprod, lookup_insert_eq. simpl.
  rewrite Htb. unfold b in *. rewrite (interior_name_bracket X HX).
  destruct (String.eqb X "M"); eexists; (split; [done|]); simpl;
    rewrite Heff0, ?emplace_empty; done.
Qed.

(** The third body after [setParameters], from the one after
    [setEquation]. *)
Lemma setParameters_third_body (R0 R2 : Reaction) (tb2 : ThirdBody)
    (node : AnyMap) (kin : Kinetics) (equation : string) :
  class R0 = ThreeBodyClass ∨ class R0 = FalloffClass →
  node_equation node = Some equation →
  setEquation (set_input node R0) equation (Some kin) = Ok R2 →
  m_third_body R2 = Some tb2 →
  ∃ R', setParameters R0 node kin = Ok R'
    ∧ m_third_body R'
      = Some (if specified_collision_partner tb2 then tb2
              else setEfficiencies tb2 node).
Proof.
  intros Hclass Heq Hset Htb2.
  assert (AnyMap_is_empty node = false) as Hne.
  { destruct node as [[] ? ? ? ? ? ? ? ? ?]; done. }
  assert (∃ R3, Reaction_setParameters R0 node kin = Ok R3
                ∧ m_third_body R3 = Some tb2) as (R3 & HR3 & Htb3).
  { unfold Reaction_setParameters. rewrite Hne, Heq. simpl. rewrite Hset. simpl.
    eexists. split; [done|]. simpl.
    destruct (node_orders node); [by rewrite set_node_orders_third_body|done]. }
  assert (setParameters R0 node kin
          = set_node_efficiencies R3 node) as ->.
  { unfold setParameters, ThreeBodyReaction_setParameters,
      FalloffReaction_setParameters.
    destruct Hclass as [-> | ->]; by rewrite Hne, HR3. }
  unfold set_node_efficiencies. rewrite Htb3.
  destruct (specified_collision_partner tb2); simpl; eexists; (split; [done|]);
    done.
Qed.

Lemma efficiency_setEfficiencies (tb : ThirdBody) (node : AnyMap) (k : string) :
  efficiencies tb = ∅ →
  efficiency (setEfficiencies tb node) k
  = match node_efficiency node k with
    | Some e => e
    | None => default 1%float (node_default_efficiency node)
    end.
Proof.
  intros Heff. unfold efficiency, getValue, setEfficiencies, node_efficiency. simpl.
  destruct (node_efficiencies node) as [eff|]; simpl.
  - by destruct (eff !! k).
  - by rewrite Heff, lookup_empty.
Qed.

Lemma efficiency_partner (sp k : string) (m : bool) :
  efficiency (mkThirdBody 0 {[sp := 1%float]} true m) k
  = if decide (k = sp) then 1%float else 0%float.
Proof.
  unfold efficiency, getValue. simpl.
  destruct (decide (k = sp)) as [->|Hne].
  - by rewrite lookup_singleton_eq.
  - by rewrite lookup_singleton_ne.
Qed.

(** X10: efficiencies after [setParameters] on a new three-body or falloff
    reaction, for a node whose equation is well formed and has fewer than
    2^64 tokens.  On a three-body reaction, for sides without bracket: with
    "M" among the species of both sides the call returns, no partner is
    specified, and a species has the efficiency the node lists for it, else
    the default efficiency of the node, else 1; when exactly one species,
    other than "M", is on both sides the call returns, that species is the
    specified partner, with efficiency 1, and every other species has
    efficiency 0, whatever the node lists.  On a falloff reaction whose
    sides close with the bracket of the same name [X]: the call returns;
    for "M" the efficiencies are those of the node as above, and for any
    other name [X] is the specified partner, with efficiency 1, and every
    other species has efficiency 0. *)
Theorem efficiency_after_setParameters (node : AnyMap) (kin : Kinetics)
    (equation : string) (l : Side) (sep : string) (r : Side) :
  node_equation node = Some equation →
  tokenizeString equation = equation_tokens l sep r →
  side_ok l = true → side_ok r = true → is_separator sep = true →
  Z.of_nat (length (tokenizeString equation)) < Double.size_t_modulus →
  let listed (k : string) :=
    match node_efficiency node k with
    | Some e => e
    | None => default 1%float (node_default_efficiency node)
    end in
  let partner (sp k : string) := if decide (k = sp) then 1%float else 0%float in
  (bracket l = None → bracket r = None →
     ("M" ∈ side_names l → "M" ∈ side_names r →
        ∃ R' tb', setParameters ThreeBodyReaction_new node kin = Ok R'
          ∧ m_third_body R' = Some tb'
          ∧ specified_collision_partner tb' = false
          ∧ ∀ k, efficiency tb' k = listed k)
     ∧ (∀ sp, sp ≠ "M" →
          (∀ k, k ∈ side_names l ∧ k ∈ side_names r ↔ k = sp) →
          ∃ R' tb', setParameters ThreeBodyReaction_new node kin = Ok R'
            ∧ m_third_body R' = Some tb'
            ∧ specified_collision_partner tb' = true
            ∧ ∀ k, efficiency tb' k = partner sp k))
  ∧ (∀ bl br X,
       bracket l = Some bl → bracket r = Some br →
       bracket_name bl = String.append "(+" (String.append X ")") →
       bracket_name br = String.append "(+" (String.append X ")") →
       Z.of_nat (String.length X) + 3 < Double.size_t_modulus →
       ∃ R' tb', setParameters FalloffReaction_new node kin = Ok R'
         ∧ m_third_body R' = Some tb'
         ∧ specified_collision_partner tb' = negb (String.eqb X "M")
         ∧ ∀ k, efficiency tb' k
                = if String.eqb X "M" then listed k else partner X k).
Proof.
  intros Heq Htok Hl Hr Hsep Hlen listed partner.
  split; [intros Hbl Hbr; split|].
  - intros Hml Hmr.
    destruct (ThreeBodyReaction_setEquation_generic
                (set_input node ThreeBodyReaction_new) equation (Some kin) l sep r)
      as (R2 & HR2 & Htb2); try done;
      try (by rewrite side_entries_names).
    destruct (setParameters_third_body ThreeBodyReaction_new R2 (ThirdBody_new 1)
                node kin equation) as (R' & HR' & Htb'); try done; [by left|].
    exists R'. eexists. split; [done|]. split; [done|]. simpl.
    split; [done|]. intros k. by apply efficiency_setEfficiencies.
  - intros sp HneM Hshared.
    destruct (ThreeBodyReaction_setEquation_partner
                (set_input node ThreeBodyReaction_new) (ThirdBody_new 1)
                equation (Some kin) l sep r sp)
      as (R2 & HR2 & Htb2); try done.
    { intros k. by rewrite !side_entries_names. }
    destruct (setParameters_third_body ThreeBodyReaction_new R2 _
                node kin equation (or_introl eq_refl) Heq HR2 Htb2)
      as (R' & HR' & Htb').
    exists R'. eexists. split; [done|]. split; [done|]. simpl.
    split; [done|]. intros k. apply efficiency_partner.
  - intros bl br X Hbl Hbr Hnl Hnr HX.
    destruct (FalloffReaction_setEquation_bracket
                (set_input node FalloffReaction_new) (mkThirdBody 1 ∅ false false)
                equation (Some kin) l sep r bl br X)
      as (R2 & HR2 & Htb2); try done.
    destruct (setParameters_third_body FalloffReaction_new R2 _
                node kin equation (or_intror eq_refl) Heq HR2 Htb2)
      as (R' & HR' & Htb').
    exists R'. eexists. split; [done|]. split; [done|].
    destruct (String.eqb X "M"); simpl.
    + split; [done|]. intros k. by apply efficiency_setEfficiencies.
    + split; [done|]. intros k. apply efficiency_partner.
Qed.

End Parameters.

(** ** The reactants that count for the units *)

Section RateUnitsReactants.
Context `{!CanteraBase}.

Lemma leb_antisym (s1 s2 : string) :
  String.leb s1 s2 = true → String.leb s2 s1 = true → s1 = s2.
Proof.
  rewrite !leb_iff. intros [H12 | ->] [H21 | H21]; try done.
  destruct (StrictOrder_Irreflexive s1). by etrans.
Qed.

Lemma StronglySorted_list_filter {A : Type} (R : relation A) (f : A → bool)
    (l : list A) :
  StronglySorted R l → StronglySorted R (List.filter f l).
Proof.
  induction 1 as [|x l Hl IH Hx]; simpl; [constructor|].
  destruct (f x); [|done]. constructor; [done|].
  apply Forall_forall. intros y Hy%list_elem_of_In%filter_In.
  rewrite Forall_forall in Hx. apply Hx, list_elem_of_In, Hy.
Qed.

Lemma NoDup_list_filter {A : Type} (f : A → bool) (l : list A) :
  NoDup l → NoDup (List.filter f l).
Proof.
  induction 1 as [|x l Hx Hl IH]; simpl; [constructor|].
  destruct (f x); [|done]. constructor; [|done].
  intros Hin%list_elem_of_In%filter_In. apply Hx, list_elem_of_In, Hin.
Qed.

(** Two maps that agree on the entries selected by [f] list them alike. *)
Lemma filter_items_ext {V : Type} (f : string * V → bool) (m1 m2 : gmap string V) :
  (∀ k v, f (k, v) = true → m1 !! k = Some v ↔ m2 !! k = Some v) →
  List.filter f (Composition.items m1) = List.filter f (Composition.items m2).
Proof.
  intros Hagree.
  assert (∀ m (x : string * V),
            x ∈ List.filter f (Composition.items m) ↔ m !! x.1 = Some x.2 ∧ f x = true)
    as Hin.
  { intros m x. rewrite list_elem_of_In, filter_In, <-list_elem_of_In.
    by rewrite elem_of_items'. }
  apply (StronglySorted_unique_strong Composition.key_le).
  - intros [k1 v1] [k2 v2] H1 H2 H12 H21.
    apply Hin in H1 as [H1 Hf1]. apply Hin in H2 as [H2 Hf2]. simpl in *.
    unfold Composition.key_le in *. simpl in *.
    assert (k1 = k2) as -> by (by apply leb_antisym; apply Is_true_eq_true).
    apply Hagree in H1; [|done]. congruence.
  - apply StronglySorted_list_filter, items_sorted.
  - apply StronglySorted_list_filter, items_sorted.
  - apply NoDup_Permutation.
    + apply NoDup_list_filter, NoDup_items.
    + apply NoDup_list_filter, NoDup_items.
    + intros [k v]. rewrite !Hin. simpl. split; intros [Hm Hf]; split; try done;
        by apply (Hagree k v Hf).
Qed.

Lemma calculateRateCoeffUnits_ext (R R' : Reaction) (kin : Kinetics) :
  valid R' = valid R → orders R' = orders R →
  (∀ k, is_pseudo_species k = false → reactants R' !! k = reactants R !! k) →
  (is_Some (m_third_body R') ↔ is_Some (m_third_body R)) →
  calculateRateCoeffUnits R' kin = calculateRateCoeffUnits R kin.
Proof.
  intros Hv Ho Hr Htb. unfold calculateRateCoeffUnits. rewrite Hv.
  destruct (valid R); simpl; [|done].
  rewrite !reactants_loop_eq, Ho.
  rewrite (filter_items_ext _ (reactants R') (reactants R)).
  - assert (bool_decide (is_Some (m_third_body R'))
            = bool_decide (is_Some (m_third_body R))) as ->; [|done].
    by apply bool_decide_ext.
  - intros k v Hf. simpl in Hf. apply andb_true_iff in Hf as [Hf _].
    apply negb_true_iff in Hf. by rewrite Hr.
Qed.

(** X11: the units of the rate coefficient depend only on the validity
    flag, the orders, the presence of a third body and the reactants that
    are neither "M" nor a falloff bracket.  In particular, erasing "M" or a
    bracket from the reactants, and any change of the products, leave the
    units unchanged: the function may be called before or after these
    pseudo-species have been stripped. *)
Theorem calculateRateCoeffUnits_true_reactants (kin : Kinetics) :
  (∀ R R',
     valid R' = valid R → orders R' = orders R →
     (∀ k, is_pseudo_species k = false → reactants R' !! k = reactants R !! k) →
     (is_Some (m_third_body R') ↔ is_Some (m_third_body R)) →
     calculateRateCoeffUnits R' kin = calculateRateCoeffUnits R kin)
  ∧ (∀ R k products_,
       is_pseudo_species k = true →
       calculateRateCoeffUnits
         (set_products products_ (set_reactants (delete k (reactants R)) R)) kin
       = calculateRateCoeffUnits R kin).
Proof.
  split; [intros R R'; apply calculateRateCoeffUnits_ext|].
  intros R k products_ Hk. apply calculateRateCoeffUnits_ext; try done.
  intros k' Hk'. simpl. apply lookup_delete_ne. congruence.
Qed.

End RateUnitsReactants.

(** ** The outcomes of [checkSpecies] *)

Section CheckSpeciesOutcomes.
Context `{!CanteraBase}.

Lemma updateUndeclared_declared (undeclared : list string)
    (comp : gmap string float) (kin : Kinetics) :
  all_declared kin comp → updateUndeclared undeclared comp kin = undeclared.
Proof.
  intros Hdecl. rewrite updateUndeclared_eq.
  assert (List.filter (λ sp : string * float, kineticsSpeciesIndex kin sp.1 =? npos)
            (Composition.items comp) = []) as ->; [|by rewrite app_nil_r].
  destruct (List.filter _ _) as [|[k v] l] eqn:Hf; [done|].
  assert (In (k, v) (List.filter
            (λ sp : string * float, kineticsSpeciesIndex kin sp.1 =? npos)
            (Composition.items comp))) as Hin by (rewrite Hf; by left).
  apply filter_In in Hin as [Hin Hk]. simpl in Hk.
  apply list_elem_of_In, elem_of_items in Hin.
  destruct (Hdecl k); [eauto | lia].
Qed.

Lemma updateUndeclared_not_nil (undeclared : list string)
    (comp : gmap string float) (kin : Kinetics) (k : string) :
  is_Some (comp !! k) → kineticsSpeciesIndex kin k = npos →
  updateUndeclared undeclared comp kin ≠ [].
Proof.
  intros Hk Hnpos Hnil.
  assert (k ∈ updateUndeclared undeclared comp kin) as Hin
    by (apply elem_of_updateUndeclared; auto).
  rewrite Hnil in Hin. by apply elem_of_nil in Hin.
Qed.

(** X12: [checkSpecies] beyond its true result.  When every species of the
    reactants, products, orders and third-body efficiencies is declared,
    the result is that of the balance check.  It returns false only in a
    mechanism that skips undeclared species.  With an undeclared reactant
    or product it returns false in such a mechanism and otherwise throws
    the error that lists exactly the undeclared reactants and products;
    with declared reactants and products and an undeclared species among
    the orders it does the same with the error for the orders, which
    records whether the input node has orders. *)
Theorem checkSpecies_outcomes (R : Reaction) (kin : Kinetics) :
  (all_declared kin (reactants R) → all_declared kin (products R) →
   all_declared kin (orders R) →
   (∀ tb, m_third_body R = Some tb → all_declared kin (efficiencies tb)) →
   checkSpecies R kin = (_ ← checkBalance R kin; Ok true))
  ∧ (checkSpecies R kin = Ok false → skipUndeclaredSpecies kin = true)
  ∧ (∀ k, is_Some (reactants R !! k) ∨ is_Some (products R !! k) →
          kineticsSpeciesIndex kin k = npos →
          if skipUndeclaredSpecies kin then checkSpecies R kin = Ok false
          else ∃ names, checkSpecies R kin = Throw (UndeclaredSpecies names)
                 ∧ ∀ k', k' ∈ names ↔
                         (is_Some (reactants R !! k') ∨ is_Some (products R !! k'))
                         ∧ kineticsSpeciesIndex kin k' = npos)
  ∧ (∀ k, all_declared kin (reactants R) → all_declared kin (products R) →
          is_Some (orders R !! k) → kineticsSpeciesIndex kin k = npos →
          if skipUndeclaredSpecies kin then checkSpecies R kin = Ok false
          else ∃ names, checkSpecies R kin
                        = Throw (UndeclaredOrderSpecies names
                                   (bool_decide (is_Some (node_orders (input R)))))
                 ∧ ∀ k', k' ∈ names ↔
                         is_Some (orders R !! k')
                         ∧ kineticsSpeciesIndex kin k' = npos).
Proof.
  split; [|split; [|split]].
  - intros Hr Hp Ho Htb. unfold checkSpecies.
    rewrite !updateUndeclared_declared by done. simpl.
    assert ((undeclaredThirdBodies R kin).1 = []) as ->; [|done].
    unfold undeclaredThirdBodies. destruct (m_third_body R) as [tb|]; [|done].
    simpl. apply updateUndeclared_declared. by apply Htb.
  - unfold checkSpecies.
    destruct (skipUndeclaredSpecies kin); [done|]. simpl.
    repeat (case_bool_decide; simpl; try done).
    all: rewrite ?andb_false_r, ?andb_true_r; simpl.
    all: try (destruct (skipUndeclaredThirdBodies kin); simpl; try done).
    all: by destruct (checkBalance R kin).
  - intros k Hk Hnpos. unfold checkSpecies.
    assert (updateUndeclared (updateUndeclared [] (reactants R) kin)
              (products R) kin ≠ []) as Hne.
    { destruct Hk as [Hk|Hk].
      - intros Hnil. apply updateUndeclared_nil in Hnil as [Hnil _].
        by eapply updateUndeclared_not_nil.
      - by eapply updateUndeclared_not_nil. }
    rewrite (bool_decide_eq_false_2 _ Hne). simpl.
    destruct (skipUndeclaredSpecies kin); [done|].
    eexists. split; [done|]. intros k'.
    rewrite !elem_of_updateUndeclared, elem_of_nil. tauto.
  - intros k Hr Hp Hk Hnpos. unfold checkSpecies.
    rewrite !updateUndeclared_declared by done. simpl.
    rewrite (bool_decide_eq_false_2 _ (updateUndeclared_not_nil [] _ _ _ Hk Hnpos)).
    simpl. destruct (skipUndeclaredSpecies kin); [done|].
    eexists. split; [done|]. intros k'.
    rewrite !elem_of_updateUndeclared, elem_of_nil. tauto.
Qed.

End CheckSpeciesOutcomes.

(** ** [newReaction]: the inferred type *)

Section TypeInference.
Context `{!CanteraBase}.

(** entries with distinct names *)
Lemma add_all_distinct (es : list (string * float)) :
  ∀ m : gmap string float,
  NoDup es.*1 → (∀ k, k ∈ es.*1 → m !! k = None) →
  add_all es m = (PrimFloat.add 0 <$> (list_to_map es : gmap string float)) ∪ m.
Proof.
  induction es as [|[k v] es IH]; intros m Hnd Hfresh.
  - unfold add_all. simpl. by rewrite fmap_empty, (left_id ∅ (∪)).
  - rewrite fmap_cons in Hnd. apply NoDup_cons in Hnd as [Hk Hnd].
    unfold add_all in *. cbn [fold_left fst snd].
    rewrite add_fresh by (apply Hfresh; by left).
    rewrite IH; [|done|].
    + rewrite list_to_map_cons, fmap_insert.
      rewrite <-insert_union_l, <-insert_union_r; [done|].
      rewrite lookup_fmap. by rewrite (not_elem_of_list_to_map_1 _ _ Hk).
    + intros k' Hk'. rewrite lookup_insert_ne by (intros ->; done).
      apply Hfresh. by right.
Qed.

Lemma items_add_all_distinct (es : list (string * float)) :
  NoDup es.*1 →
  Composition.items (add_all es ∅)
  ≡ₚ List.map (λ e : string * float, (e.1, PrimFloat.add 0 e.2)) es.
Proof.
  intros Hnd. rewrite add_all_distinct by done.
  rewrite (right_id ∅ (∪)), items_Permutation, map_to_list_fmap.
  rewrite map_to_list_to_map by done.
  assert (prod_map Datatypes.id (PrimFloat.add 0) <$> es
          = List.map (λ e : string * float, (e.1, PrimFloat.add 0 e.2)) es) as ->;
    [|done].
  apply list_fmap_ext. by intros i [k v] _.
Qed.

Lemma lookup_add_all_distinct (es : list (string * float)) (k : string) :
  NoDup es.*1 →
  add_all es ∅ !! k = PrimFloat.add 0 <$> (list_to_map es : gmap string float) !! k.
Proof.
  intros Hnd. rewrite add_all_distinct by done.
  by rewrite (right_id ∅ (∪)), lookup_fmap.
Qed.

Lemma length_list_filter_Permutation {A : Type} (f : A → bool) (l1 l2 : list A) :
  l1 ≡ₚ l2 → length (List.filter f l1) = length (List.filter f l2).
Proof.
  induction 1 as [|x l1 l2 _ IH|x y l|l1 l2 l3 _ IH1 _ IH2]; simpl.
  - done.
  - destruct (f x); simpl; congruence.
  - destruct (f x), (f y); done.
  - congruence.
Qed.

Lemma plain_entries (s : Side) :
  plain s = true →
  side_entries s = (λ name, (name, 1%float)) <$> side_names s.
Proof.
  unfold plain, side_entries, term_entries, side_names, side_terms.
  intros Hp. apply andb_true_iff in Hp as [Hts Hb].
  apply bool_decide_eq_true in Hb. rewrite Hb. simpl. rewrite app_nil_r.
  rewrite <-list_fmap_compose.
  apply list_fmap_ext. intros i t Hi.
  assert (is_species t = true) as Ht.
  { rewrite forallb_forall in Hts. apply Hts, list_elem_of_In.
    by eapply list_elem_of_lookup_2. }
  by destruct t.
Qed.

Lemma lookup_unit_entries (names : list string) (k : string) :
  NoDup names →
  add_all ((λ name, (name, 1%float)) <$> names) ∅ !! k
  = if decide (k ∈ names) then Some 1%float else None.
Proof.
  intros Hnd.
  assert (((λ name : string, (name, 1%float)) <$> names).*1 = names) as Hkeys.
  { rewrite <-list_fmap_compose. apply list_fmap_id. }
  rewrite lookup_add_all_distinct by (by rewrite Hkeys).
  destruct (decide (k ∈ names)) as [Hk|Hk].
  - rewrite (elem_of_list_to_map_1 _ k 1%float); [done|by rewrite Hkeys|].
    apply list_elem_of_fmap. by exists k.
  - rewrite not_elem_of_list_to_map_1; [done|by rewrite Hkeys].
Qed.

Lemma items_unit_entries (names : list string) :
  NoDup names →
  Composition.items (add_all ((λ name, (name, 1%float)) <$> names) ∅)
  ≡ₚ (λ name, (name, 1%float)) <$> names.
Proof.
  intros Hnd.
  assert (((λ name : string, (name, 1%float)) <$> names).*1 = names) as Hkeys.
  { rewrite <-list_fmap_compose. apply list_fmap_id. }
  rewrite items_add_all_distinct by (by rewrite Hkeys).
  assert (List.map (λ e : string * float, (e.1, PrimFloat.add 0 e.2))
            ((λ name, (name, 1%float)) <$> names)
          = (λ name, (name, 1%float)) <$> names) as ->; [|done].
  rewrite <-list_fmap_compose. by apply list_fmap_ext.
Qed.

Lemma count_species_units (names : list string) (n : Z) :
  0 ≤ n → n + Z.of_nat (length names) < Double.size_t_modulus →
  ∀ side, side ≡ₚ (λ name, (name, 1%float)) <$> names →
  count_species side n = Ok (Some (n + Z.of_nat (length names))).
Proof.
  intros Hn Hlen side Hperm.
  assert (∀ sp, sp ∈ side → sp.2 = 1%float) as Hone.
  { intros sp Hsp. rewrite Hperm in Hsp.
    by apply list_elem_of_fmap in Hsp as (name & -> & _). }
  assert (length names = length side) as Hl.
  { by rewrite Hperm, length_fmap. }
  rewrite Hl in *. clear Hperm Hl. unfold size_add, Double.size_t_modulus in *.
  change (2 ^ 64) with 18446744073709551616 in *. revert n Hn Hlen.
  induction side as [|sp side IH]; intros n Hn Hlen; simpl.
  - do 2 f_equal. lia.
  - rewrite (Hone sp) by (by left).
    change (Double.neqb (Double.trunc 1) 1) with false.
    change (Double.to_size_t 1) with (Some 1). cbv iota.
    simpl length in Hlen.
    unfold size_add, Double.size_t_modulus.
    change (2 ^ 64) with 18446744073709551616.
    rewrite Z.mod_small by lia.
    rewrite IH; [do 2 f_equal; lia| |lia|lia].
    intros sp' Hsp'. apply Hone. by right.
Qed.

Lemma isThreeBody_plain (R : Reaction) (names_l names_r : list string) :
  reactants R = add_all ((λ name, (name, 1%float)) <$> names_l) ∅ →
  products R = add_all ((λ name, (name, 1%float)) <$> names_r) ∅ →
  NoDup names_l → NoDup names_r →
  Z.of_nat (length names_l) < Double.size_t_modulus →
  Z.of_nat (length names_r) < Double.size_t_modulus →
  isThreeBody R
  = Ok ((length (List.filter (λ name, bool_decide (name ∈ names_r)) names_l) =? 1)%nat
        && ((length names_l =? 3)%nat || (length names_r =? 3)%nat)).
Proof.
  intros Hr Hp Hndl Hndr Hll Hlr. unfold isThreeBody.
  assert (count_candidates R
          = length (List.filter (λ name, bool_decide (name ∈ names_r)) names_l))
    as ->.
  { rewrite count_candidates_length.
    rewrite (length_list_filter_Permutation _ _
               ((λ name, (name, 1%float)) <$> names_l))
      by (rewrite Hr; by apply items_unit_entries).
    clear Hr Hndl Hll. induction names_l as [|name names IH]; [done|].
    assert (is_candidate R (name, 1%float) = bool_decide (name ∈ names_r)) as Hc.
    { unfold is_candidate. simpl. rewrite Hp, lookup_unit_entries by done.
      destruct (decide (name ∈ names_r)) as [Hin|Hin].
      - by rewrite (bool_decide_eq_true_2 _ Hin).
      - by rewrite (bool_decide_eq_false_2 _ Hin). }
    rewrite fmap_cons. simpl. rewrite Hc.
    destruct (bool_decide (name ∈ names_r)); simpl; by rewrite IH. }
  destruct (length (List.filter _ names_l) =? 1)%nat; simpl; [|done].
  rewrite (count_species_units names_l 0 ltac:(lia) ltac:(lia)
             (Composition.items (reactants R)))
    by (rewrite Hr; by apply items_unit_entries).
  simpl.
  rewrite (count_species_units names_r 0 ltac:(lia) ltac:(lia)
             (Composition.items (products R)))
    by (rewrite Hp; by apply items_unit_entries).
  simpl. do 2 f_equal.
  - destruct (Nat.eqb_spec (length names_l) 3) as [->|Hne]; [done|].
    apply Z.eqb_neq. lia.
  - destruct (Nat.eqb_spec (length names_r) 3) as [->|Hne]; [done|].
    apply Z.eqb_neq. lia.
Qed.

Lemma length_side_names (s : Side) :
  (length (side_names s) ≤ length (side_tokens s))%nat.
Proof.
  unfold side_names, side_terms, side_tokens.
  rewrite length_fmap, !length_app. simpl.
  assert (length (leading s) ≤ length (leading_tokens (leading s)))%nat.
  { induction (leading s) as [|t ts IH]; [done|].
    change (leading_tokens (t :: ts))
      with ((term_tokens t ++ ["+"]) ++ leading_tokens ts).
    rewrite !length_app. simpl. lia. }
  assert (1 ≤ length (term_tokens (final s)))%nat by (by destruct (final s); simpl; lia).
  lia.
Qed.

(** X13: the type that [newReaction] hands to the factory.  A type given
    by the node is taken as it is.  Without it, on a reaction phase that
    is not three-dimensional the type is "elementary" and the equation is
    not read; on a three-dimensional phase a node without equation is
    refused, and a well-formed equation of species with coefficient 1, no
    species twice on a side, is typed "three-body" exactly when one species
    appears on both sides and a side has three species, and "elementary"
    otherwise. *)
Theorem newReaction_type_inference (rxn_node : AnyMap) (kin : Kinetics) :
  (∀ type, node_type rxn_node = Some type →
     newReaction_type rxn_node kin = Ok type)
  ∧ (node_type rxn_node = None →
     nDim (thermo kin (reactionPhaseIndex kin)) ≠ 3 →
     newReaction_type rxn_node kin = Ok "elementary")
  ∧ (node_type rxn_node = None →
     nDim (thermo kin (reactionPhaseIndex kin)) = 3 →
     node_equation rxn_node = None →
     newReaction_type rxn_node kin = Throw (MissingKey "equation"))
  ∧ (∀ equation l sep r,
       node_type rxn_node = None →
       nDim (thermo kin (reactionPhaseIndex kin)) = 3 →
       node_equation rxn_node = Some equation →
       tokenizeString equation = equation_tokens l sep r →
       side_ok l = true → side_ok r = true → is_separator sep = true →
       Z.of_nat (length (tokenizeString equation)) < Double.size_t_modulus →
       plain l = true → plain r = true →
       NoDup (side_names l) → NoDup (side_names r) →
       newReaction_type rxn_node kin
       = Ok (if (length (shared_names l r) =? 1)%nat
                && ((length (side_names l) =? 3)%nat
                    || (length (side_names r) =? 3)%nat)
             then "three-body" else "elementary")).
Proof.
  unfold newReaction_type. split; [|split; [|split]].
  - by intros type ->.
  - intros -> Hdim. apply Z.eqb_neq in Hdim. by rewrite Hdim.
  - intros -> -> ->. done.
  - intros equation l sep r -> -> -> Htok Hl Hr Hsep Hlen Hpl Hpr Hndl Hndr.
    simpl. unfold parseReactionEquation. rewrite Htok in *.
    rewrite parse_tokens_well_formed by done. simpl.
    rewrite (isThreeBody_plain _ (side_names l) (side_names r)); try done.
    + rewrite reactants_add_entries. simpl. rewrite reactants_add_entries.
      by rewrite plain_entries.
    + rewrite products_add_entries. simpl. rewrite products_add_entries.
      by rewrite plain_entries.
    + pose proof (length_side_names l). unfold equation_tokens in Hlen.
      rewrite length_app in Hlen. lia.
    + pose proof (length_side_names r). unfold equation_tokens in Hlen.
      rewrite length_app in Hlen. simpl in Hlen. lia.
Qed.

End TypeInference.

(** ** [Reaction::usesElectrochemistry] *)

Section ElectrochemistryProperties.
Context `{!CanteraBase}.

(** properties *)
Lemma mul_zero (c z : float) :
  finite c = true → PrimFloat.eqb z 0 = true →
  ∃ s, Prim2SF (PrimFloat.mul c z) = S754_zero s.
Proof.
  unfold finite. rewrite FloatAxioms.eqb_spec, mul_spec.
  change (Prim2SF 0) with (S754_zero false). intros Hc Hz.
  destruct (Prim2SF z) as [sz|sz| |sz mz ez];
    [|destruct sz; by cbv in Hz|by cbv in Hz|destruct sz; by cbv in Hz].
  destruct (Prim2SF c) as [sc|sc| |sc mc ec]; try done; simpl; eauto.
Qed.

Lemma add_zero (x : float) (s : bool) :
  Prim2SF x = S754_zero s → PrimFloat.add 0 x = 0%float.
Proof.
  intros Hx. apply Prim2SF_inj. rewrite add_spec, Hx.
  change (Prim2SF 0) with (S754_zero false). by destruct s.
Qed.

Lemma sub_zero (x : float) (s : bool) :
  Prim2SF x = S754_zero s → PrimFloat.sub 0 x = 0%float.
Proof.
  intros Hx. apply Prim2SF_inj. rewrite sub_spec, Hx.
  change (Prim2SF 0) with (S754_zero false). by destruct s.
Qed.

Lemma alter_replicate_zero (op : float → float → float) (n : nat) (i : nat)
    (x : float) :
  op 0%float x = 0%float →
  alter (λ e, op e x) i (replicate n 0%float) = replicate n 0%float.
Proof.
  intros Hop. apply list_eq. intros j.
  destruct (decide (i = j)) as [->|Hne].
  - rewrite list_lookup_alter, decide_True by done.
    destruct (replicate n 0%float !! j) as [e|] eqn:Hj; simpl; [|done].
    apply lookup_replicate in Hj as [-> _]. by rewrite Hop.
  - by rewrite list_lookup_alter, decide_False.
Qed.

Lemma count_electrons_neutral (op : float → float → float) (kin : Kinetics)
    (ch : PhaseCharges) (comp : gmap string float) :
  (∀ x s, Prim2SF x = S754_zero s → op 0%float x = 0%float) →
  neutral_side kin ch comp →
  count_electrons op kin ch comp (replicate (Z.to_nat (nPhases ch)) 0%float)
  = Ok (replicate (Z.to_nat (nPhases ch)) 0%float).
Proof.
  intros Hop Hneutral. unfold count_electrons.
  assert (∀ sp, sp ∈ Composition.items comp → comp !! sp.1 = Some sp.2) as Hin.
  { intros sp. apply elem_of_items'. }
  induction (Composition.items comp) as [|sp l IH]; [done|]. simpl.
  destruct (Hneutral sp.1 sp.2) as (Hfin & Hrange & Hcharge);
    [apply Hin; by left|]. cbv zeta in Hrange, Hcharge.
  unfold update_counter. rewrite length_replicate.
  replace (_ <? _) with true by (symmetry; apply Z.ltb_lt; lia). simpl.
  destruct (mul_zero _ _ Hfin Hcharge) as [s Hs].
  rewrite alter_replicate_zero by by eapply Hop.
  apply IH. intros sp' Hsp'. apply Hin. by right.
Qed.

(** X14: a reaction whose species all have a finite coefficient, a phase
    among the phases of the mechanism and charge zero is never reported as
    electrochemical: every counter stays at zero, so no rounding can lift
    one above the threshold. *)
Theorem usesElectrochemistry_neutral (R : Reaction) (kin : Kinetics)
    (ch : PhaseCharges) :
  neutral_side kin ch (reactants R) → neutral_side kin ch (products R) →
  usesElectrochemistry R kin ch = Ok false.
Proof.
  intros Hr Hp. unfold usesElectrochemistry.
  rewrite (count_electrons_neutral _ _ _ _ add_zero Hp). simpl.
  rewrite (count_electrons_neutral _ _ _ _ sub_zero Hr). simpl.
  f_equal. induction (Z.to_nat (nPhases ch)) as [|n IH]; [done|].
  simpl. by rewrite IH.
Qed.

End ElectrochemistryProperties.

(** ** Three-body equations among species without numerals *)

Section ThreeBodyPlain.
Context `{!CanteraBase}.

Lemma lookup_delete_units (names : list string) (sp k : string) :
  NoDup names →
  delete sp (add_all ((λ name, (name, 1%float)) <$> names) ∅) !! k
  = units_without names sp k.
Proof.
  intros Hnd. unfold units_without.
  destruct (decide (sp = k)) as [->|Hne].
  - rewrite lookup_delete_eq. by rewrite decide_False by tauto.
  - rewrite lookup_delete_ne, lookup_unit_entries by done.
    destruct (decide (k ∈ names)) as [Hk|Hk].
    + by rewrite decide_True.
    + by rewrite decide_False by tauto.
Qed.

Lemma elem_of_shared_names (l r : Side) (k : string) :
  k ∈ shared_names l r ↔ k ∈ side_names l ∧ k ∈ side_names r.
Proof.
  unfold shared_names. rewrite list_elem_of_In, filter_In, <-list_elem_of_In.
  by rewrite bool_decide_eq_true.
Qed.

(** The reaction after the generic parsing of a plain equation. *)
Lemma parse_plain (R1 : Reaction) (l r : Side) (sep : string)
    (kin : option Kinetics) :
  R1 = add_entries kin false (side_entries r)
         (set_reversible (negb (String.eqb sep "=>"))
            (add_entries kin true (side_entries l) ThreeBodyReaction_new)) →
  plain l = true → plain r = true →
  NoDup (side_names l) → NoDup (side_names r) →
  reactants R1 = add_all ((λ name, (name, 1%float)) <$> side_names l) ∅
  ∧ products R1 = add_all ((λ name, (name, 1%float)) <$> side_names r) ∅
  ∧ m_third_body R1 = Some (ThirdBody_new 1)
  ∧ (∀ k, on_both_sides R1 k ↔ k ∈ shared_names l r).
Proof.
  intros -> Hpl Hpr Hndl Hndr.
  assert (reactants (add_entries kin false (side_entries r)
            (set_reversible (negb (String.eqb sep "=>"))
               (add_entries kin true (side_entries l) ThreeBodyReaction_new)))
          = add_all ((λ name, (name, 1%float)) <$> side_names l) ∅) as Hr.
  { rewrite reactants_add_entries. simpl. rewrite reactants_add_entries.
    by rewrite plain_entries. }
  assert (products (add_entries kin false (side_entries r)
            (set_reversible (negb (String.eqb sep "=>"))
               (add_entries kin true (side_entries l) ThreeBodyReaction_new)))
          = add_all ((λ name, (name, 1%float)) <$> side_names r) ∅) as Hp.
  { rewrite products_add_entries. simpl. rewrite products_add_entries.
    by rewrite plain_entries. }
  split; [done|]. split; [done|]. split.
  - rewrite third_body_add_entries. simpl. by rewrite third_body_add_entries.
  - intros k. unfold on_both_sides. rewrite Hr, Hp, elem_of_shared_names.
    rewrite !lookup_unit_entries by done.
    assert (∀ names : list string,
              is_Some (if decide (k ∈ names) then Some 1%float else None)
              ↔ k ∈ names) as Hs.
    { intros names. destruct (decide (k ∈ names)); split; try done; eauto. }
    by rewrite !Hs.
Qed.

(** X15: for a three-body equation of fewer than 2^64 tokens whose sides
    are distinct species without numerals, [ThreeBodyReaction::setEquation]
    on a new reaction has one of four outcomes.  With "M" on both sides it
    returns, "M" leaves both compositions, every other species has
    coefficient 1, and the third body is the default one.  Without "M" on
    both sides: if no species is on both sides, it raises the error of the
    missing third body; if exactly one species is, that species leaves both
    compositions and becomes the specified collision partner, with
    efficiency 1 and default efficiency 0; if two or more are, it raises
    the error of several collision partners. *)
Theorem ThreeBodyReaction_setEquation_plain (equation : string)
    (kin : option Kinetics) (l : Side) (sep : string) (r : Side) :
  tokenizeString equation = equation_tokens l sep r →
  side_ok l = true → side_ok r = true → is_separator sep = true →
  Z.of_nat (length (tokenizeString equation)) < Double.size_t_modulus →
  plain l = true → plain r = true →
  NoDup (side_names l) → NoDup (side_names r) →
  ("M" ∈ side_names l → "M" ∈ side_names r →
     ∃ R', ThreeBodyReaction_setEquation ThreeBodyReaction_new equation kin = Ok R'
       ∧ (∀ k, reactants R' !! k = units_without (side_names l) "M" k)
       ∧ (∀ k, products R' !! k = units_without (side_names r) "M" k)
       ∧ m_third_body R' = Some (ThirdBody_new 1))
  ∧ ("M" ∉ shared_names l r →
       (shared_names l r = [] →
          ThreeBodyReaction_setEquation ThreeBodyReaction_new equation kin
          = Throw MissingThirdBodyM)
       ∧ (∀ sp, shared_names l r = [sp] →
            ∃ R', ThreeBodyReaction_setEquation ThreeBodyReaction_new equation kin
                  = Ok R'
              ∧ (∀ k, reactants R' !! k = units_without (side_names l) sp k)
              ∧ (∀ k, products R' !! k = units_without (side_names r) sp k)
              ∧ m_third_body R'
                = Some (mkThirdBody 0 {[sp := 1%float]} true true))
       ∧ (∀ sp1 sp2 sps, shared_names l r = sp1 :: sp2 :: sps →
            ThreeBodyReaction_setEquation ThreeBodyReaction_new equation kin
            = Throw MultipleCollisionPartners)).
Proof.
  intros Htok Hl Hr Hsep Hlen Hpl Hpr Hndl Hndr.
  unfold ThreeBodyReaction_setEquation, Reaction_setEquation, parseReactionEquation.
  rewrite Htok in *. rewrite parse_tokens_well_formed by done.
  cbn [mbind result_bind].
  destruct (parse_plain _ l r sep kin eq_refl Hpl Hpr Hndl Hndr)
    as (Hreac & Hprod & Htb & Hboth).
  set (R1 := add_entries kin false (side_entries r)
               (set_reversible (negb (String.eqb sep "=>"))
                  (add_entries kin true (side_entries l) ThreeBodyReaction_new)))
    in *.
  clearbody R1. rewrite !count_is_one. split.
  - intros Hml Hmr.
    rewrite bool_decide_eq_false_2
      by (rewrite Hreac, lookup_unit_entries, decide_True by done; done).
    rewrite bool_decide_eq_false_2
      by (rewrite Hprod, lookup_unit_entries, decide_True by done; done).
    simpl. eexists. split; [done|]. simpl. rewrite Hreac, Hprod.
    split; [|split; [|done]]; intros k; by apply lookup_delete_units.
  - intros HM.
    assert (bool_decide (reactants R1 !! "M" = None)
            || bool_decide (products R1 !! "M" = None) = true) as ->.
    { rewrite Hreac, Hprod, !lookup_unit_entries by done.
      destruct (decide ("M" ∈ side_names l)) as [Hml|Hml]; [|done].
      destruct (decide ("M" ∈ side_names r)) as [Hmr|Hmr]; [|done].
      destruct HM. by apply elem_of_shared_names. }
    split; [|split].
    + intros Hnil. rewrite (detectEfficiencies_none R1 (ThirdBody_new 1)); try done.
      intros k Hk%Hboth. rewrite Hnil in Hk. by apply elem_of_nil in Hk.
    + intros sp Hsp.
      assert (only_shared_species R1 sp) as Hone.
      { intros k. rewrite Hboth, Hsp. apply list_elem_of_singleton. }
      destruct (detectEfficiencies_one R1 (ThirdBody_new 1) sp Htb eq_refl Hone)
        as (rc & pc & Hrc & Hpc & ->).
      rewrite Hreac, lookup_unit_entries in Hrc by done.
      rewrite Hprod, lookup_unit_entries in Hpc by done.
      destruct (decide (sp ∈ side_names l)); [|done].
      destruct (decide (sp ∈ side_names r)); [|done].
      injection Hrc as <-. injection Hpc as <-.
      change (Double.neqb (Double.trunc 1) 1) with false. cbv iota.
      simpl. eexists. split; [done|]. simpl. rewrite Hreac, Hprod.
      split; [|split; [|done]]; intros k; by apply lookup_delete_units.
    + intros sp1 sp2 sps Hsps.
      rewrite (detectEfficiencies_two R1 (ThirdBody_new 1)); try done.
      exists sp1, sp2. split; [|split].
      * assert (NoDup (shared_names l r)) as Hnd
          by (unfold shared_names; by apply NoDup_list_filter).
        rewrite Hsps in Hnd. apply NoDup_cons in Hnd as [Hnd _].
        intros ->. apply Hnd. by left.
      * apply Hboth. rewrite Hsps. by left.
      * apply Hboth. rewrite Hsps. right. by left.
Qed.

End ThreeBodyPlain.

(** ** Writing an equation and reading it back *)

Lemma string_app_assoc (s1 s2 s3 : string) :
  String.append (String.append s1 s2) s3 = String.append s1 (String.append s2 s3).
Proof.
  induction s1 as [|a s1 IH]; [done|].
  change (String a (String.append (String.append s1 s2) s3)
          = String a (String.append s1 (String.append s2 s3))).
  by rewrite IH.
Qed.

Lemma concat_cons (w : string) (ws : list string) :
  ws ≠ [] →
  String.concat " " (w :: ws) = String.append w (String.append " " (String.concat " " ws)).
Proof. by destruct ws. Qed.

Lemma concat_app (ws1 ws2 : list string) :
  ws1 ≠ [] → ws2 ≠ [] →
  String.concat " " (ws1 ++ ws2)
  = String.append (String.concat " " ws1)
      (String.append " " (String.concat " " ws2)).
Proof.
  intros H1 H2. induction ws1 as [|w ws1 IH]; [done|].
  destruct ws1 as [|w' ws1].
  - simpl app. by rewrite concat_cons.
  - rewrite <-app_comm_cons, concat_cons by done.
    rewrite IH by done. rewrite (concat_cons w) by done.
    by rewrite !string_app_assoc.
Qed.

Section EquationRoundTrip.
Context `{!CanteraBase}.
Variable show_double : float → string.

Lemma term_tokens_not_nil (t : Term) : term_tokens t ≠ [].
Proof. by destruct t. Qed.

Lemma entries_words_not_nil (es : list (string * float)) :
  es ≠ [] → entries_words show_double es ≠ [].
Proof.
  destruct es as [|e [|e' es]]; [done| |]; intros _; simpl.
  - apply term_tokens_not_nil.
  - destruct (term_tokens (entry_term show_double e)); done.
Qed.

(** The text of one term. *)
Lemma write_term_words (result : string) (iter : string * float) :
  write_term show_double result true iter
  = String.append result (String.concat " " (term_tokens (entry_term show_double iter)))
  ∧ write_term show_double result false iter
    = String.append result
        (String.append " + "
           (String.concat " " (term_tokens (entry_term show_double iter)))).
Proof.
  unfold write_term, entry_term. destruct (Double.neqb iter.2 1); simpl.
  - by rewrite !string_app_assoc.
  - by rewrite !string_app_assoc.
Qed.

Lemma write_rest_words (rest : list (string * float)) :
  ∀ (result : string) (e : string * float),
  fold_left (λ result iter, write_term show_double result false iter) rest
    (String.append result
       (String.concat " " (term_tokens (entry_term show_double e))))
  = String.append result (String.concat " " (entries_words show_double (e :: rest))).
Proof.
  induction rest as [|e' rest IH]; intros result e; [done|].
  cbn [fold_left]. rewrite (proj2 (write_term_words _ e')).
  change (entries_words show_double (e :: e' :: rest))
    with (term_tokens (entry_term show_double e)
          ++ "+" :: entries_words show_double (e' :: rest)).
  rewrite concat_app by (apply term_tokens_not_nil || done).
  rewrite concat_cons by (by apply entries_words_not_nil).
  set (Ce := String.concat " " (term_tokens (entry_term show_double e))).
  set (Ce' := String.concat " " (term_tokens (entry_term show_double e'))).
  replace (String.append (String.append result Ce) (String.append " + " Ce'))
    with (String.append (String.append result (String.append Ce " + ")) Ce')
    by (by rewrite !string_app_assoc).
  subst Ce'. rewrite IH. by rewrite !string_app_assoc.
Qed.

Lemma write_composition_words (comp : gmap string float) :
  write_composition show_double comp
  = String.concat " " (entries_words show_double (Composition.items comp)).
Proof.
  unfold write_composition.
  destruct (Composition.items comp) as [|e rest]; [done|].
  rewrite (proj1 (write_term_words _ e)).
  rewrite write_rest_words. done.
Qed.


Lemma split_last_terms (e : string * float) (rest : list (string * float)) :
  let '(ts, t) := split_last show_double e rest in
  ts ++ [t] = entry_term show_double <$> (e :: rest)
  ∧ leading_tokens ts ++ term_tokens t = entries_words show_double (e :: rest).
Proof.
  revert e. induction rest as [|e' rest IH]; intros e; [done|].
  specialize (IH e'). cbn [split_last].
  destruct (split_last show_double e' rest) as [ts t]. destruct IH as [IH1 IH2].
  split.
  - rewrite fmap_cons, <-IH1. done.
  - change (entries_words show_double (e :: e' :: rest))
      with (term_tokens (entry_term show_double e)
            ++ "+" :: entries_words show_double (e' :: rest)).
    rewrite <-IH2.
    change (leading_tokens (entry_term show_double e :: ts))
      with ((term_tokens (entry_term show_double e) ++ ["+"]) ++ leading_tokens ts).
    by rewrite <-!app_assoc.
Qed.

Lemma eqb_one (c : float) : PrimFloat.eqb c 1 = true → c = 1%float.
Proof.
  rewrite FloatAxioms.eqb_spec. intros Hc. apply Prim2SF_inj.
  change (Prim2SF 1) with (S754_finite false 4503599627370496 (-52)) in *.
  unfold SFeqb, SFcompare in Hc.
  destruct (Prim2SF c) as [s|s| |s m e].
  - by destruct s.
  - by destruct s.
  - done.
  - destruct s; [done|].
    destruct (IntDef.Z.compare e (-52)) eqn:He; try done.
    destruct (PosDef.Pos.compare_cont Eq m 4503599627370496) eqn:Hm; try done.
    apply (Z.compare_eq e (-52)) in He. apply (Pos.compare_eq m) in Hm.
    by rewrite He, Hm.
Qed.

Lemma add_zero_l (c : float) : not_negative_zero c → PrimFloat.add 0 c = c.
Proof.
  unfold not_negative_zero. intros Hc. apply Prim2SF_inj. rewrite add_spec.
  change (Prim2SF 0) with (S754_zero false).
  destruct (Prim2SF c) as [[]|s| |s m e]; done.
Qed.

Lemma entry_term_entry (e : string * float) :
  (Double.neqb e.2 1 = true → fpValueCheck (show_double e.2) = Some e.2) →
  term_entry (entry_term show_double e) = e.
Proof.
  unfold entry_term, term_entry. destruct e as [k c]. simpl.
  destruct (Double.neqb c 1) eqn:Hc; simpl.
  - intros Hv. by rewrite Hv.
  - intros _. unfold Double.neqb in Hc. apply negb_false_iff, eqb_one in Hc.
    by rewrite Hc.
Qed.

Lemma entry_term_ok (e : string * float) :
  completes_term e.1 = false →
  (Double.neqb e.2 1 = true →
     completes_term (show_double e.2) = false
     ∧ fpValueCheck (show_double e.2) = Some e.2) →
  term_ok (entry_term show_double e) = true.
Proof.
  unfold entry_term. intros Hk Hc. destruct (Double.neqb e.2 1); simpl.
  - destruct Hc as [Hb Hv]; [done|]. by rewrite Hk, Hb, Hv.
  - by rewrite Hk.
Qed.

(** A composition rebuilt from its entries. *)
Lemma add_all_items (comp : gmap string float) :
  (∀ k c, comp !! k = Some c → not_negative_zero c) →
  add_all (Composition.items comp) ∅ = comp.
Proof.
  intros Hnz. rewrite add_all_distinct; [|apply NoDup_fst_items|done].
  rewrite (right_id ∅ (∪)).
  rewrite (list_to_map_proper _ (map_to_list comp));
    [|apply NoDup_fst_items|apply items_Permutation].
  rewrite list_to_map_to_list. apply map_eq. intros k.
  rewrite lookup_fmap. destruct (comp !! k) as [c|] eqn:Hk; [|done].
  simpl. f_equal. apply add_zero_l. by eapply Hnz.
Qed.

(** The terms rendered by a composition that reads back. *)
Lemma entries_terms (comp : gmap string float) :
  comp ≠ ∅ → reads_back show_double comp →
  ∃ ts t,
    leading_tokens ts ++ term_tokens t
    = entries_words show_double (Composition.items comp)
    ∧ forallb term_ok (ts ++ [t]) = true
    ∧ List.map term_entry (ts ++ [t]) = Composition.items comp.
Proof.
  intros Hne Hrb.
  destruct (Composition.items comp) as [|e rest] eqn:Hitems.
  { by apply items_nil_inv in Hitems. }
  assert (∀ e', e' ∈ e :: rest →
            completes_term e'.1 = false
            ∧ (Double.neqb e'.2 1 = true →
                 completes_term (show_double e'.2) = false
                 ∧ fpValueCheck (show_double e'.2) = Some e'.2)) as Hall.
  { intros e' He'. rewrite <-Hitems in He'. apply elem_of_items' in He'.
    destruct (Hrb _ _ He') as (? & _ & ?). done. }
  clear Hitems.
  pose proof (split_last_terms e rest) as Hsplit.
  destruct (split_last show_double e rest) as [ts t].
  destruct Hsplit as [Hterms Hwords].
  exists ts, t. split; [done|]. rewrite Hterms. split.
  - apply forallb_forall. intros t' Ht'.
    apply list_elem_of_In, list_elem_of_fmap in Ht' as (e' & -> & He').
    destruct (Hall e' He'). by apply entry_term_ok.
  - change (List.map term_entry (entry_term show_double <$> e :: rest))
      with (term_entry <$> (entry_term show_double <$> e :: rest)).
    rewrite <-list_fmap_compose.
    rewrite <-(list_fmap_id (e :: rest)) at 2.
    apply list_fmap_ext. intros i e' Hi. simpl.
    apply entry_term_entry. intros Hc.
    by destruct (Hall e' (list_elem_of_lookup_2 _ _ _ Hi)) as [_ [_ ?]].
Qed.

(** The side rendered by a composition that reads back. *)
Lemma entries_side_reads_back (comp : gmap string float) :
  comp ≠ ∅ → reads_back show_double comp →
  ∃ s, side_tokens s = entries_words show_double (Composition.items comp)
    ∧ side_ok s = true
    ∧ side_entries s = Composition.items comp.
Proof.
  intros Hne Hrb. destruct (entries_terms comp Hne Hrb) as (ts & t & Hw & Hok & He).
  exists (mkSide ts t None). split; [|split].
  - unfold side_tokens. simpl. by rewrite app_nil_r.
  - unfold side_ok. simpl. rewrite andb_true_r.
    rewrite forallb_app in Hok. simpl in Hok. by rewrite andb_true_r in Hok.
  - unfold side_entries, term_entries, side_terms. simpl. by rewrite app_nil_r.
Qed.

Lemma leading_tokens_app (ts1 ts2 : list Term) :
  leading_tokens (ts1 ++ ts2) = leading_tokens ts1 ++ leading_tokens ts2.
Proof. unfold leading_tokens. by rewrite flat_map_app. Qed.

(** The side of a three-body reaction: the partner is one more species. *)
Lemma entries_side_three_body (comp : gmap string float) (name : string) :
  comp ≠ ∅ → reads_back show_double comp → completes_term name = false →
  ∃ s, side_tokens s
       = entries_words show_double (Composition.items comp) ++ ["+"; name]
    ∧ side_ok s = true
    ∧ side_entries s = Composition.items comp ++ [(name, 1%float)].
Proof.
  intros Hne Hrb Hname.
  destruct (entries_terms comp Hne Hrb) as (ts & t & Hw & Hok & He).
  exists (mkSide (ts ++ [t]) (Species name) None). split; [|split].
  - unfold side_tokens. simpl. rewrite leading_tokens_app, <-Hw.
    unfold leading_tokens at 2. simpl. by rewrite !app_nil_r, <-!app_assoc.
  - unfold side_ok. simpl. by rewrite Hok, Hname.
  - unfold side_entries, term_entries, side_terms. simpl.
    by rewrite app_nil_r, map_app, He.
Qed.

Lemma ends_with_append (s : string) :
  ends_with (String.append s ")") ")" = true.
Proof.
  unfold ends_with. rewrite length_append. simpl String.length.
  replace (String.length s + 1 - 1)%nat with (String.length s) by lia.
  apply andb_true_iff. split; [apply Nat.leb_le; lia|].
  apply String.eqb_eq. induction s as [|a s IH]; [done|].
  change (String.substring (String.length s) 1 (String.append s ")") = ")").
  exact IH.
Qed.

(** The side of a falloff reaction: the partner is the bracket. *)
Lemma entries_side_falloff (comp : gmap string float) (name : string) :
  comp ≠ ∅ → reads_back show_double comp →
  ∃ s, side_tokens s
       = entries_words show_double (Composition.items comp)
         ++ [String.append "(+" (String.append name ")")]
    ∧ side_ok s = true
    ∧ side_entries s
      = Composition.items comp
        ++ [(String.append "(+" (String.append name ")"), (-1)%float)].
Proof.
  intros Hne Hrb.
  destruct (entries_terms comp Hne Hrb) as (ts & t & Hw & Hok & He).
  exists (mkSide ts t (Some (Joined (String.append "(+" (String.append name ")"))))).
  split; [|split].
  - unfold side_tokens. simpl. by rewrite <-Hw, <-app_assoc.
  - unfold side_ok. cbn [leading final bracket from_option bracket_ok].
    rewrite forallb_app in Hok. simpl in Hok. rewrite andb_true_r in Hok.
    rewrite Hok, starts_with_append. cbn [andb].
    rewrite <-string_app_assoc. apply ends_with_append.
  - unfold side_entries, term_entries, side_terms. simpl. by rewrite He.
Qed.

(** A composition rebuilt from its entries and one more entry. *)
Lemma add_all_items_snoc (comp : gmap string float) (k : string) (v : float) :
  (∀ k c, comp !! k = Some c → not_negative_zero c) → comp !! k = None →
  add_all (Composition.items comp ++ [(k, v)]) ∅
  = <[k := PrimFloat.add 0 v]> comp.
Proof.
  intros Hnz Hk. rewrite add_all_app, add_all_items by done.
  unfold add_all. simpl. by apply add_fresh.
Qed.

Lemma equation_text (r p : list string) (R : Reaction) :
  r ≠ [] → p ≠ [] →
  (if reversible R
   then Ok (String.append (String.append (String.concat " " r) " <=> ")
              (String.concat " " p))
   else Ok (String.append (String.append (String.concat " " r) " => ")
              (String.concat " " p)))
  = (Ok (String.concat " " (r ++ arrow R :: p)) : result string).
Proof.
  intros Hr Hp. rewrite concat_app, concat_cons by done.
  unfold arrow. destruct (reversible R); by rewrite !string_app_assoc.
Qed.

(** X16: a reaction without third body, with reactants and products whose
    names and coefficients read back, is written by [Reaction::equation] as
    its terms in key order, a coefficient before every species whose
    coefficient is not 1, "+" between the terms and "<=>" or "=>" between
    the sides, all separated by single spaces; and if the tokenizer splits
    that text into these words, fewer than 2^64, [setEquation] with that
    text on a reaction of the same class without reactants and products
    returns a reaction with the same reactants, the same products and the
    same reversibility flag. *)
Theorem equation_round_trip (R R0 : Reaction) (kin : option Kinetics) :
  class R ≠ ThreeBodyClass → class R ≠ FalloffClass → class R0 = class R →
  reactants R ≠ ∅ → products R ≠ ∅ →
  reads_back show_double (reactants R) → reads_back show_double (products R) →
  reactants R0 = ∅ → products R0 = ∅ →
  Reaction_equation show_double R = Ok (String.concat " " (equation_words show_double R))
  ∧ (tokenizeString (String.concat " " (equation_words show_double R)) = equation_words show_double R →
     Z.of_nat (length (equation_words show_double R)) < Double.size_t_modulus →
     ∃ R', setEquation R0 (String.concat " " (equation_words show_double R)) kin = Ok R'
       ∧ reactants R' = reactants R ∧ products R' = products R
       ∧ reversible R' = reversible R).
Proof.
  intros Hc1 Hc2 Hc0 Hrne Hpne Hrrb Hprb Hr0 Hp0.
  destruct (entries_side_reads_back (reactants R) Hrne Hrrb)
    as (l & Hlw & Hlok & Hle).
  destruct (entries_side_reads_back (products R) Hpne Hprb)
    as (r & Hrw & Hrok & Hre).
  assert (Composition.items (reactants R) ≠ []) as Hri
    by (intros Hi; by apply items_nil_inv in Hi).
  assert (Composition.items (products R) ≠ []) as Hpi
    by (intros Hi; by apply items_nil_inv in Hi).
  split.
  - unfold Reaction_equation, reactantString, productString, sideString.
    destruct (class R); try done; simpl;
      unfold Reaction_reactantString, Reaction_productString;
      rewrite !write_composition_words;
      by apply equation_text; apply entries_words_not_nil.
  - intros Htok Hlen.
    assert (equation_words show_double R = equation_tokens l (arrow R) r) as Hw.
    { unfold equation_words, equation_tokens. by rewrite Hlw, Hrw. }
    assert (setEquation R0 (String.concat " " (equation_words show_double R)) kin
            = parseReactionEquation R0 (String.concat " " (equation_words show_double R)) kin)
      as ->.
    { unfold setEquation. rewrite Hc0. by destruct (class R). }
    unfold parseReactionEquation. rewrite Htok, Hw.
    rewrite parse_tokens_well_formed; [|done|done| |by rewrite <-Hw].
    2: { unfold arrow. by destruct (reversible R). }
    eexists. split; [done|].
    rewrite reactants_add_entries, products_add_entries, reversible_add_entries.
    simpl. rewrite reactants_add_entries, products_add_entries.
    rewrite Hle, Hre, Hr0, Hp0. split; [|split].
    + apply add_all_items. intros k c Hk. by destruct (Hrrb k c Hk) as (_ & ? & _).
    + apply add_all_items. intros k c Hk. by destruct (Hprb k c Hk) as (_ & ? & _).
    + unfold arrow. by destruct (reversible R).
Qed.

Lemma ThreeBodyReaction_sideString_words (R : Reaction) (tb : ThirdBody)
    (name : string) (ws : list string) :
  m_third_body R = Some tb → names_partner tb name → ws ≠ [] →
  ThreeBodyReaction_sideString R (String.concat " " ws)
  = Ok (String.concat " " (ws ++ ["+"; name])).
Proof.
  intros Htb Hname Hws. unfold ThreeBodyReaction_sideString, names_partner in *.
  rewrite Htb, concat_app by done.
  destruct (specified_collision_partner tb).
  - destruct Hname as (c & rest & Hitems). unfold first_efficiency.
    rewrite Hitems. simpl. by rewrite ?string_app_assoc.
  - subst name. by rewrite ?string_app_assoc.
Qed.

Lemma FalloffReaction_sideString_words (R : Reaction) (tb : ThirdBody)
    (name : string) (ws : list string) :
  m_third_body R = Some tb → names_partner tb name → ws ≠ [] →
  FalloffReaction_sideString R (String.concat " " ws)
  = Ok (String.concat " "
          (ws ++ [String.append "(+" (String.append name ")")])).
Proof.
  intros Htb Hname Hws. unfold FalloffReaction_sideString, names_partner in *.
  rewrite Htb, concat_app by done.
  destruct (specified_collision_partner tb).
  - destruct Hname as (c & rest & Hitems). unfold first_efficiency.
    rewrite Hitems. simpl. by rewrite ?string_app_assoc.
  - subst name. by rewrite ?string_app_assoc.
Qed.

Lemma partner_equation_text (R : Reaction) (tb : ThirdBody) (name : string) :
  class R = ThreeBodyClass ∨ class R = FalloffClass →
  m_third_body R = Some tb → names_partner tb name →
  reactants R ≠ ∅ → products R ≠ ∅ →
  Reaction_equation show_double R
  = Ok (String.concat " " (partner_equation_words show_double R name)).
Proof.
  intros Hclass Htb Hname Hrne Hpne.
  assert (entries_words show_double (Composition.items (reactants R)) ≠ []) as Hri.
  { apply entries_words_not_nil. intros Hi. by apply items_nil_inv in Hi. }
  assert (entries_words show_double (Composition.items (products R)) ≠ []) as Hpi.
  { apply entries_words_not_nil. intros Hi. by apply items_nil_inv in Hi. }
  unfold Reaction_equation, reactantString, productString, sideString,
    partner_equation_words, Reaction_reactantString, Reaction_productString.
  rewrite !write_composition_words.
  destruct Hclass as [-> | ->]; cbn [partner_words].
  - rewrite !(ThreeBodyReaction_sideString_words R tb name) by done.
    cbn [mbind result_bind]. apply equation_text; intros Hnil; by apply app_eq_nil in Hnil as [_ ?].
  - rewrite !(FalloffReaction_sideString_words R tb name) by done.
    cbn [mbind result_bind]. apply equation_text; intros Hnil; by apply app_eq_nil in Hnil as [_ ?].
Qed.

Lemma reads_back_not_bracket (comp : gmap string float) (rest : string) :
  reads_back show_double comp → comp !! String.append "(+" rest = None.
Proof.
  intros Hrb. destruct (comp !! String.append "(+" rest) as [c|] eqn:Hc; [|done].
  destruct (Hrb _ _ Hc) as (Hb & _). apply bare_not_bracket in Hb.
  by rewrite starts_with_append in Hb.
Qed.

(** X17: the same for a three-body or a falloff reaction.  The equation
    has the partner after the terms of each side, as "+ name" for a
    three-body reaction and as "(+name)" for a falloff reaction, where the
    name is "M" or the first species of the efficiencies of a specified
    partner.  Read by [setEquation] on a reaction of the same class without
    reactants, products and efficiencies, it gives back the reactants, the
    products and the reversibility flag, and a third body that is the one
    of the new reaction for "M" and the specified partner with efficiency
    1 and default efficiency 0 otherwise.  For a three-body reaction the
    partner must be absent from both sides and, when it is not "M", no
    species may be on both sides. *)
Theorem third_body_equation_round_trip (R R0 : Reaction) (tb tb0 : ThirdBody)
    (name : string) (kin : option Kinetics) :
  class R = ThreeBodyClass ∨ class R = FalloffClass → class R0 = class R →
  m_third_body R = Some tb → names_partner tb name →
  m_third_body R0 = Some tb0 → efficiencies tb0 = ∅ →
  specified_collision_partner tb0 = false →
  reactants R0 = ∅ → products R0 = ∅ →
  reactants R ≠ ∅ → products R ≠ ∅ →
  reads_back show_double (reactants R) → reads_back show_double (products R) →
  (class R = ThreeBodyClass →
     completes_term name = false
     ∧ reactants R !! name = None ∧ products R !! name = None
     ∧ (name ≠ "M" → no_shared_species R)) →
  (class R = FalloffClass →
     Z.of_nat (String.length name) + 3 < Double.size_t_modulus) →
  Reaction_equation show_double R
  = Ok (String.concat " " (partner_equation_words show_double R name))
  ∧ (tokenizeString (String.concat " " (partner_equation_words show_double R name))
     = partner_equation_words show_double R name →
     Z.of_nat (length (partner_equation_words show_double R name)) < Double.size_t_modulus →
     ∃ R', setEquation R0 (String.concat " " (partner_equation_words show_double R name)) kin
           = Ok R'
       ∧ reactants R' = reactants R ∧ products R' = products R
       ∧ reversible R' = reversible R
       ∧ m_third_body R'
         = Some (if String.eqb name "M" then tb0
                 else mkThirdBody 0 {[name := 1%float]} true (mass_action tb0))).
Proof.
  intros Hclass Hc0 Htb Hname Htb0 Heff0 Hspec0 Hr0 Hp0 Hrne Hpne Hrrb Hprb
    H3 Hf.
  split; [by eapply partner_equation_text|].
  intros Htok Hlen.
  assert (∀ k c, reactants R !! k = Some c → not_negative_zero c) as Hrnz.
  { intros k c Hk. by destruct (Hrrb k c Hk) as (_ & ? & _). }
  assert (∀ k c, products R !! k = Some c → not_negative_zero c) as Hpnz.
  { intros k c Hk. by destruct (Hprb k c Hk) as (_ & ? & _). }
  assert (is_separator (arrow R) = true) as Hsep.
  { unfold arrow. by destruct (reversible R). }
  assert (negb (String.eqb (arrow R) "=>") = reversible R) as Harrow.
  { unfold arrow. by destruct (reversible R). }
  unfold setEquation. rewrite Hc0.
  destruct Hclass as [Hclass|Hclass]; rewrite Hclass in *.
  - (* three-body *)
    destruct (H3 eq_refl) as (Hbare & Hrn & Hpn & Hshared). clear H3 Hf.
    destruct (entries_side_three_body (reactants R) name Hrne Hrrb Hbare)
      as (l & Hlw & Hlok & Hle).
    destruct (entries_side_three_body (products R) name Hpne Hprb Hbare)
      as (r & Hrw & Hrok & Hre).
    assert (partner_equation_words show_double R name = equation_tokens l (arrow R) r) as Hw.
    { unfold partner_equation_words, equation_tokens.
      rewrite Hclass. cbn [partner_words]. by rewrite Hlw, Hrw. }
    unfold ThreeBodyReaction_setEquation, Reaction_setEquation,
      parseReactionEquation.
    rewrite Htok, Hw. rewrite parse_tokens_well_formed; [|done|done|done|by rewrite <-Hw].
    cbn [mbind result_bind].
    set (R1 := add_entries kin false (side_entries r)
                 (set_reversible (negb (String.eqb (arrow R) "=>"))
                    (add_entries kin true (side_entries l) R0))).
    assert (reactants R1 = <[name := 1%float]> (reactants R)) as Hreac.
    { subst R1. rewrite reactants_add_entries. simpl.
      rewrite reactants_add_entries, Hle, Hr0. by rewrite add_all_items_snoc. }
    assert (products R1 = <[name := 1%float]> (products R)) as Hprod.
    { subst R1. rewrite products_add_entries. simpl.
      rewrite products_add_entries, Hre, Hp0. by rewrite add_all_items_snoc. }
    assert (reversible R1 = reversible R) as Hrev.
    { subst R1. by rewrite reversible_add_entries. }
    assert (m_third_body R1 = Some tb0) as Htb1.
    { subst R1. rewrite third_body_add_entries. simpl.
      by rewrite third_body_add_entries. }
    clearbody R1. rewrite !count_is_one.
    destruct (String.eqb_spec name "M") as [->|HneM].
    + rewrite Hreac, Hprod, !lookup_insert_eq.
      rewrite !bool_decide_eq_false_2 by done. simpl.
      eexists. split; [done|]. simpl.
      by rewrite ?Hreac, ?Hprod, !delete_insert_id.
    + assert (bool_decide (reactants R1 !! "M" = None)
              || bool_decide (products R1 !! "M" = None) = true) as ->.
      { rewrite Hreac, Hprod, !lookup_insert_ne by done.
        destruct (reactants R !! "M") as [rc|] eqn:HrM; [|done].
        destruct (products R !! "M") as [pc|] eqn:HpM; [|done].
        destruct (Hshared HneM "M"). split; by eauto. }
      assert (only_shared_species R1 name) as Hone.
      { intros k. unfold on_both_sides. rewrite Hreac, Hprod. split.
        - intros [Hkr Hkp]. destruct (decide (name = k)) as [Heq|Hne]; [done|].
          rewrite lookup_insert_ne in Hkr, Hkp by done.
          by destruct (Hshared HneM k).
        - intros ->. by rewrite !lookup_insert_eq. }
      destruct (detectEfficiencies_one R1 tb0 name Htb1 Heff0 Hone)
        as (rc & pc & Hrc & Hpc & ->).
      rewrite Hreac, lookup_insert_eq in Hrc. rewrite Hprod, lookup_insert_eq in Hpc.
      injection Hrc as <-. injection Hpc as <-.
      change (Double.neqb (Double.trunc 1) 1) with false. cbv iota.
      simpl. eexists. split; [done|]. simpl.
      by rewrite ?Hreac, ?Hprod, !delete_insert_id.
  - (* falloff *)
    specialize (Hf eq_refl). clear H3.
    destruct (entries_side_falloff (reactants R) name Hrne Hrrb)
      as (l & Hlw & Hlok & Hle).
    destruct (entries_side_falloff (products R) name Hpne Hprb)
      as (r & Hrw & Hrok & Hre).
    assert (partner_equation_words show_double R name = equation_tokens l (arrow R) r) as Hw.
    { unfold partner_equation_words, equation_tokens.
      rewrite Hclass. cbn [partner_words]. by rewrite Hlw, Hrw. }
    set (b := String.append "(+" (String.append name ")")) in *.
    assert (starts_with b "(+" = true) as Hsb by apply starts_with_append.
    pose proof (reads_back_not_bracket _ (String.append name ")") Hrrb) as Hrn.
    pose proof (reads_back_not_bracket _ (String.append name ")") Hprb) as Hpn.
    fold b in Hrn, Hpn.
    unfold FalloffReaction_setEquation, Reaction_setEquation,
      parseReactionEquation.
    rewrite Htok, Hw. rewrite parse_tokens_well_formed; [|done|done|done|by rewrite <-Hw].
    cbn [mbind result_bind].
    set (R1 := add_entries kin false (side_entries r)
                 (set_reversible (negb (String.eqb (arrow R) "=>"))
                    (add_entries kin true (side_entries l) R0))).
    assert (reactants R1 = <[b := (-1)%float]> (reactants R)) as Hreac.
    { subst R1. rewrite reactants_add_entries. simpl.
      rewrite reactants_add_entries, Hle, Hr0. by rewrite add_all_items_snoc. }
    assert (products R1 = <[b := (-1)%float]> (products R)) as Hprod.
    { subst R1. rewrite products_add_entries. simpl.
      rewrite products_add_entries, Hre, Hp0. by rewrite add_all_items_snoc. }
    assert (reversible R1 = reversible R) as Hrev.
    { subst R1. by rewrite reversible_add_entries. }
    assert (m_third_body R1 = Some tb0) as Htb1.
    { subst R1. rewrite third_body_add_entries. simpl.
      by rewrite third_body_add_entries. }
    clearbody R1.
    assert (find_falloff_term R1 = Some (b, (-1)%float)) as Hfind.
    { destruct (find_falloff_term R1) as [[name' c]|] eqn:Hfind.
      - apply find_falloff_term_Some in Hfind as (Hname' & Hc & Hs).
        rewrite Hreac in Hname'.
        apply lookup_insert_Some in Hname' as [[<- <-]|[Hne Hname']]; [done|].
        destruct (Hrrb _ _ Hname') as (Hb' & _).
        apply bare_not_bracket in Hb'. congruence.
      - apply find_falloff_term_None in Hfind. destruct Hfind.
        exists b, (-1)%float. rewrite Hreac, lookup_insert_eq. done. }
    rewrite Hfind. cbn [fst snd].
    rewrite (starts_with_nonempty _ Hsb).
    unfold Composition.count. rewrite Hprod, lookup_insert_eq. simpl.
    rewrite Htb1. unfold b in *. rewrite (interior_name_bracket name Hf).
    destruct tb0 as [d0 e0 s0 m0]. simpl in Heff0, Hspec0. subst e0 s0.
    destruct (String.eqb name "M"); eexists; (split; [done|]); simpl;
      rewrite Hreac, Hprod, !delete_insert_id by done;
      rewrite ?emplace_empty; done.
Qed.

End EquationRoundTrip.

(** * Concrete runs

    The statements above applied to concrete reactions over the instance
    [Model.base] and the mechanism [Model.gas_kinetics]. *)

Module Runs.
Import Model Examples.
#[local] Existing Instance base.

(** An order for a reactant of an irreversible reaction passes; the same
    order on a reversible reaction, or a negative order, is refused. *)
Lemma check_orders_examples :
  check (with_order false 2) = Ok ()
  ∧ orders_invalid (with_order true 2)
  ∧ orders_invalid (with_order false (-1)).
Proof.
  split; [|split].
  - destruct (check_orders_throws_exactly_when_invalid (with_order false 2))
      as (_ & _ & _ & Hok).
    rewrite Hok; vm_compute; reflexivity.
  - apply (proj1 (check_orders_throws_exactly_when_invalid (with_order true 2))).
    exists OrdersOnReversible. vm_compute. reflexivity.
  - apply (proj1 (check_orders_throws_exactly_when_invalid (with_order false (-1)))).
    exists (NegativeOrder "A"). vm_compute. reflexivity.
Defined.



(** [checkSpecies] accepts "2 H2 + O2 => 2 H2O", whose balance check passes. *)
Lemma checkSpecies_example :
  checkSpecies (water 2 2) (gas_kinetics false false) = Ok true
  ∧ checkBalance (water 2 2) (gas_kinetics false false) = Ok ().
Proof.
  split; [vm_compute; reflexivity|].
  apply (checkSpecies_true_guarantees (water 2 2) (gas_kinetics false false)).
  vm_compute. reflexivity.
Defined.

(** C1, as stated, fails: in a mechanism that skips undeclared third bodies,
    [checkSpecies] returns true for a reaction whose third-body efficiencies
    name the undeclared species N2. *)
Lemma checkSpecies_true_with_undeclared_third_body :
  ∃ R tb,
    setParameters ThreeBodyReaction_new node_with_N2 (gas_kinetics false true) = Ok R
    ∧ checkSpecies R (gas_kinetics false true) = Ok true
    ∧ m_third_body R = Some tb
    ∧ efficiencies tb !! "N2" = Some 2%float
    ∧ kineticsSpeciesIndex (gas_kinetics false true) "N2" = npos.
Proof.
  eexists _, _. split; [vm_compute; reflexivity|].
  split; [vm_compute; reflexivity|].
  split; [reflexivity|]. split; vm_compute; reflexivity.
Qed.

(** The units of the rate coefficient of "2 H2 + O2 => 2 H2O". *)
Lemma calculateRateCoeffUnits_example :
  calculateRateCoeffUnits (water 2 2) (gas_kinetics false false)
  = [("kmol/m^3", (-2)%float); ("1/s", 1%float)].
Proof.
  rewrite (proj1 (calculateRateCoeffUnits_spec (water 2 2) (gas_kinetics false false))).
  vm_compute. reflexivity.
Defined.


(** Parsing "H + O2 <=> HO2" without a mechanism gives an invalid reaction. *)
Lemma parse_without_kinetics_example :
  ∃ R, parseReactionEquation Reaction_new "H + O2 <=> HO2" None = Ok R
       ∧ valid R = false.
Proof.
  eexists. split; [vm_compute; reflexivity|].
  eapply (proj2 (proj2 parse_without_kinetics_is_invalid)
            Reaction_new "H + O2 <=> HO2");
    [vm_compute; discriminate | vm_compute; reflexivity].
Defined.

Lemma three_body_AR_both_sides (c : float) (k : string) :
  on_both_sides (three_body_AR c) k ↔ k = "AR".
Proof.
  unfold on_both_sides, three_body_AR. simpl. split.
  - intros [[x Hx] [y Hy]].
    apply lookup_insert_Some in Hy as [[<- _]|[_ Hy]]; [done|].
    apply lookup_singleton_Some in Hy as [<- _].
    apply lookup_insert_Some in Hx as [[[=] _]|[_ Hx]].
    apply lookup_insert_Some in Hx as [[[=] _]|[_ Hx]].
    by apply lookup_singleton_Some in Hx as [[=] _].
  - intros ->. by rewrite !lookup_insert_eq.
Defined.

(** With coefficient 2 the partner AR is decremented on both sides. *)
Lemma detectEfficiencies_example :
  ∃ R', detectEfficiencies (three_body_AR 2) = Ok (true, R')
    ∧ m_third_body R' = Some (mkThirdBody 0 {["AR" := 1%float]} true true)
    ∧ reactants R' !! "AR" = Some 1%float
    ∧ products R' !! "AR" = Some 1%float.
Proof.
  destruct (detectEfficiencies_single_partner (three_body_AR 2)
              (ThirdBody_new 1) "AR" 2 2) as (R' & Hdet & Htb & Hr & Hp & _).
  - reflexivity.
  - intros k [x Hx]. simpl in Hx. by rewrite lookup_empty in Hx.
  - apply three_body_AR_both_sides.
  - reflexivity.
  - reflexivity.
  - exists R'. split; [done|]. split; [done|].
    rewrite Hr, Hp. split; vm_compute; reflexivity.
Defined.

(** C2, as stated, fails.  With coefficient 1.5, which is not exactly 1, AR
    is removed from both sides instead of being left with 0.5; and when the
    efficiency map already holds an entry, the one species on both sides
    makes [detectEfficiencies] throw. *)
Lemma detectEfficiencies_erases_fractional_coefficient :
  (∃ R', Reaction_setEquation ThreeBodyReaction_new
           "H + O2 + 1.5 AR <=> HO2 + 1.5 AR" (Some (gas_kinetics false false))
         = Ok (three_body_AR 1.5)
      ∧ detectEfficiencies (three_body_AR 1.5) = Ok (true, R')
      ∧ reactants (three_body_AR 1.5) !! "AR" = Some 1.5%float
      ∧ products (three_body_AR 1.5) !! "AR" = Some 1.5%float
      ∧ PrimFloat.eqb 1.5 1 = false
      ∧ reactants R' !! "AR" = None
      ∧ products R' !! "AR" = None)
  ∧ detectEfficiencies
      (set_third_body (Some (mkThirdBody 1 {["H2O" := 6%float]} false true))
         (three_body_AR 1))
    = Throw MultipleCollisionPartners.
Proof.
  split; [|vm_compute; reflexivity].
  eexists. split; [vm_compute; reflexivity|].
  split; [vm_compute; reflexivity|].
  repeat split; vm_compute; reflexivity.
Qed.

Lemma three_body_AR_representable : counts_representable (three_body_AR 1).
Proof.
  intros k c [Hk|Hk] _; apply elem_of_items in Hk; vm_compute in Hk;
    repeat (apply elem_of_cons in Hk as [[= _ ->]|Hk];
            [vm_compute; eauto|]);
    by apply elem_of_nil in Hk.
Defined.

(** "H + O2 + AR <=> HO2 + AR" is classified as three-body: AR is the one
    candidate and all coefficients are integers. *)
Lemma isThreeBody_example :
  isThreeBody (three_body_AR 1) = Ok true
  ∧ exactly_one (candidate (three_body_AR 1))
  ∧ all_integral (reactants (three_body_AR 1))
  ∧ all_integral (products (three_body_AR 1)).
Proof.
  split; [vm_compute; reflexivity|].
  destruct (isThreeBody_iff (three_body_AR 1) three_body_AR_representable)
    as (b & Hb & Hiff).
  assert (b = true) as Hbt
    by (assert (isThreeBody (three_body_AR 1) = Ok true) as Ht
          by (vm_compute; reflexivity); congruence).
  apply Hiff in Hbt as (H1 & H2 & H3 & _). auto.
Defined.

(** C3, as stated, fails in both directions.  [isThreeBody] accepts
    "2 A + B <=> A + C", in which no species has the same coefficient on
    both sides; and it rejects "A + B + C <=> A + 2 B", in which A is the
    only species with the same coefficient on both sides, all coefficients
    are integers and the reactant side counts three.  The count is kept in
    a [size_t]: a reactant side that counts 2^64 + 3 is accepted; and for
    the coefficient -1 of a falloff bracket the conversion to [size_t] is
    not defined by the language. *)
Lemma isThreeBody_ignores_equal_coefficients :
  (parseReactionEquation Reaction_new "2 A + B <=> A + C" None
     = Ok (setValid false two_A)
   ∧ isThreeBody (setValid false two_A) = Ok true
   ∧ ∀ k r p, reactants two_A !! k = Some r → products two_A !! k = Some p →
              PrimFloat.eqb r p = false)
  ∧ (parseReactionEquation Reaction_new "A + B + C <=> A + 2 B" None
       = Ok (setValid false two_shared)
     ∧ isThreeBody (setValid false two_shared) = Ok false
     ∧ reactants two_shared !! "A" = Some 1%float
     ∧ products two_shared !! "A" = Some 1%float
     ∧ reactants two_shared !! "B" = Some 1%float
     ∧ products two_shared !! "B" = Some 2%float
     ∧ products two_shared !! "C" = None
     ∧ stoich_count (reactants two_shared) = 3)
  ∧ (isThreeBody wrapping = Ok true
     ∧ stoich_count (reactants wrapping) = 2 ^ 64 + 3
     ∧ stoich_count (products wrapping) = 2)
  ∧ (∃ R, parseReactionEquation Reaction_new "A (+M) <=> B (+M)" None = Ok R
          ∧ reactants R !! "(+M)" = Some (-1)%float
          ∧ isThreeBody R = Throw UndefinedBehaviour).
Proof.
  split.
  - split; [vm_compute; reflexivity|]. split; [vm_compute; reflexivity|].
    intros k r p Hr Hp. unfold two_A in *. simpl in *.
    apply lookup_insert_Some in Hr as [[<- <-]|[Hne Hr]].
    + rewrite lookup_insert_eq in Hp. by injection Hp as <-.
    + rewrite lookup_insert_ne in Hp by done.
      apply lookup_singleton_Some in Hr as [<- _].
      by apply lookup_singleton_Some in Hp as [[=] _].
  - split; [repeat split; vm_compute; reflexivity|].
    split; [repeat split; vm_compute; reflexivity|].
    eexists. split; [vm_compute; reflexivity|].
    split; vm_compute; reflexivity.
Qed.

(** On a new [FalloffReaction], "H + O2 (+AR) <=> HO2 (+AR)" makes AR the
    sole partner, and the brackets are removed. *)
Lemma FalloffReaction_setEquation_example :
  ∃ R2 tb2,
    FalloffReaction_setEquation FalloffReaction_new
      "H + O2 (+AR) <=> HO2 (+AR)" (Some (gas_kinetics false false)) = Ok R2
    ∧ m_third_body R2 = Some tb2
    ∧ specified_collision_partner tb2 = true
    ∧ default_efficiency tb2 = 0%float
    ∧ efficiencies tb2 = {["AR" := 1%float]}
    ∧ reactants R2 !! "(+AR)" = None ∧ products R2 !! "(+AR)" = None.
Proof.
  assert (Reaction_setEquation FalloffReaction_new "H + O2 (+AR) <=> HO2 (+AR)"
            (Some (gas_kinetics false false)) = Ok falloff_AR_parsed) as Hparse
    by (vm_compute; reflexivity).
  destruct (FalloffReaction_setEquation_outcomes FalloffReaction_new
              falloff_AR_parsed (mkThirdBody 1 ∅ false false) _ _ Hparse eq_refl)
    as (_ & _ & Hfound).
  assert (find_falloff_term falloff_AR_parsed = Some ("(+AR)", (-1)%float))
    as Hfind by (vm_compute; reflexivity).
  destruct (Hfound _ _ Hfind) as (_ & _ & _ & _ & _ & Hok).
  destruct Hok as (R2 & tb2 & Hres & Hr & Hp & Htb & _ & _ & Hpartner).
  { exists (-1)%float. reflexivity. }
  destruct Hpartner as (Hs & Hd & _ & _ & Heff).
  { vm_compute. discriminate. }
  exists R2, tb2. split; [exact Hres|]. split; [exact Htb|].
  split; [exact Hs|]. split; [exact Hd|].
  split; [exact (Heff eq_refl)|].
  rewrite Hr, Hp. split; apply lookup_delete_eq.
Defined.

(** C4, as stated, fails: entries already in the efficiency map are kept.
    With {H2O: 6} beforehand AR is not the sole partner, and with
    {AR: 0.5} beforehand its efficiency stays 0.5. *)
Lemma FalloffReaction_setEquation_keeps_entries :
  (∃ R2 tb2,
     FalloffReaction_setEquation (falloff_with {["H2O" := 6%float]})
       "H + O2 (+AR) <=> HO2 (+AR)" (Some (gas_kinetics false false)) = Ok R2
     ∧ m_third_body R2 = Some tb2
     ∧ specified_collision_partner tb2 = true
     ∧ efficiencies tb2 = {["AR" := 1%float; "H2O" := 6%float]})
  ∧ (∃ R2 tb2,
       FalloffReaction_setEquation (falloff_with {["AR" := 0.5%float]})
         "H + O2 (+AR) <=> HO2 (+AR)" (Some (gas_kinetics false false)) = Ok R2
       ∧ m_third_body R2 = Some tb2
       ∧ specified_collision_partner tb2 = true
       ∧ efficiencies tb2 = {["AR" := 0.5%float]}).
Proof.
  split; eexists _, _; (split; [vm_compute; reflexivity|]);
    (split; [reflexivity|]); split; vm_compute; reflexivity.
Qed.

(** On a new [FalloffReaction], [setEquation] establishes the invariant,
    and so does [setParameters] with a node that gives the equation. *)
Lemma third_body_invariant_example :
  (∃ R', setEquation FalloffReaction_new "H + O2 (+AR) <=> HO2 (+AR)"
           (Some (gas_kinetics false false)) = Ok R'
         ∧ third_body_invariant R')
  ∧ (∃ R', setParameters FalloffReaction_new
             (untyped "H + O2 (+AR) <=> HO2 (+AR)") (gas_kinetics false false)
           = Ok R'
         ∧ third_body_invariant R').
Proof.
  destruct third_body_invariant_preserved
    as (_ & _ & _ & Hfalloff & Hparams & _ & _ & _ & Hnew).
  split.
  - destruct (setEquation FalloffReaction_new "H + O2 (+AR) <=> HO2 (+AR)"
                (Some (gas_kinetics false false))) as [R'|] eqn:Hset;
      [|vm_compute in Hset; discriminate].
    exists R'. split; [done|].
    by apply (Hfalloff FalloffReaction_new R' _ _ eq_refl Hset).
  - destruct (setParameters FalloffReaction_new
                (untyped "H + O2 (+AR) <=> HO2 (+AR)") (gas_kinetics false false))
      as [R'|] eqn:Hset; [|vm_compute in Hset; discriminate].
    exists R'. split; [done|].
    by apply (Hparams FalloffReaction_new R'
                (untyped "H + O2 (+AR) <=> HO2 (+AR)") (gas_kinetics false false)
                eq_refl eq_refl Hset).
Defined.

(** C5, as stated, fails: a second [setEquation] on the same
    [FalloffReaction] adds its partner to the one entered by the first, so
    that a specified collision partner comes with two efficiencies. *)
Lemma falloff_invariant_broken_by_second_setEquation :
  ∃ R1 R2 tb2,
    setEquation FalloffReaction_new "H + O2 (+AR) <=> HO2 (+AR)"
      (Some (gas_kinetics false false)) = Ok R1
    ∧ third_body_invariant R1
    ∧ setEquation R1 "H + O2 (+N2) <=> HO2 (+N2)"
        (Some (gas_kinetics false false)) = Ok R2
    ∧ m_third_body R2 = Some tb2
    ∧ specified_collision_partner tb2 = true
    ∧ efficiencies tb2 = {["AR" := 1%float; "N2" := 1%float]}
    ∧ (third_body_invariant R2 → False).
Proof.
  eexists _, _, _. split; [vm_compute; reflexivity|].
  split.
  { intros tb [= <-] _. split; [|reflexivity]. exists "AR".
    vm_compute. reflexivity. }
  split; [vm_compute; reflexivity|]. split; [reflexivity|].
  split; [reflexivity|]. split; [vm_compute; reflexivity|].
  intros Hinv. destruct (Hinv _ eq_refl eq_refl) as [[k Hk] _].
  simpl in Hk.
  assert (({["AR" := 1%float; "N2" := 1%float]} : gmap string float) !! "AR"
          = Some 1%float) as HAR by reflexivity.
  assert (({["AR" := 1%float; "N2" := 1%float]} : gmap string float) !! "N2"
          = Some 1%float) as HN2 by reflexivity.
  assert (∀ k', is_Some (({[k := 1%float]} : gmap string float) !! k') → k' = k)
    as Hsingle.
  { intros k' [x Hx]. by apply lookup_singleton_Some in Hx as [-> _]. }
  assert ("AR" = k) as HkAR.
  { apply Hsingle. rewrite <-Hk. vm_compute. eauto. }
  assert ("N2" = k) as HkN2.
  { apply Hsingle. rewrite <-Hk. vm_compute. eauto. }
  congruence.
Qed.

(** The remaining examples of the specification: the generic "M" of a
    three-body equation and the bracket "(+M)" of a falloff equation are
    stripped and leave the collision partner unspecified; an explicit AR is
    detected as the partner. *)
Example three_body_generic_M :
  ∃ R, setEquation ThreeBodyReaction_new "H + O2 + M <=> HO2 + M"
         (Some (gas_kinetics false false)) = Ok R
       ∧ reactants R = {["H" := 1%float; "O2" := 1%float]}
       ∧ products R = {["HO2" := 1%float]}
       ∧ m_third_body R = Some (ThirdBody_new 1).
Proof.
  eexists. split; [vm_compute; reflexivity|].
  repeat split; vm_compute; reflexivity.
Qed.

Example three_body_explicit_AR :
  ∃ R, setEquation ThreeBodyReaction_new "H + O2 + AR <=> HO2 + AR"
         (Some (gas_kinetics false false)) = Ok R
       ∧ reactants R = {["H" := 1%float; "O2" := 1%float]}
       ∧ products R = {["HO2" := 1%float]}
       ∧ m_third_body R = Some (mkThirdBody 0 {["AR" := 1%float]} true true).
Proof.
  eexists. split; [vm_compute; reflexivity|].
  repeat split; vm_compute; reflexivity.
Qed.

Example falloff_generic_M :
  ∃ R, setEquation FalloffReaction_new "H + O2 (+M) <=> HO2 (+M)"
         (Some (gas_kinetics false false)) = Ok R
       ∧ reactants R = {["H" := 1%float; "O2" := 1%float]}
       ∧ products R = {["HO2" := 1%float]}
       ∧ m_third_body R = Some (mkThirdBody 1 ∅ false false).
Proof.
  eexists. split; [vm_compute; reflexivity|].
  repeat split; vm_compute; reflexivity.
Qed.

Example falloff_spaced_bracket :
  parseReactionEquation Reaction_new "H + O2 (+ M) <=> HO2 (+ M)" None
  = parseReactionEquation Reaction_new "H + O2 (+M) <=> HO2 (+M)" None.
Proof. vm_compute. reflexivity. Qed.

Example bimolecular_is_not_three_body :
  isThreeBody (water 1 1) = Ok false.
Proof. vm_compute. reflexivity. Qed.

(** The orders and the rate of "A + B => C" survive the parsing of another
    equation, which marks the reaction invalid for its undeclared
    species. *)
Lemma parseReactionEquation_keeps_members_example :
  ∃ R', parseReactionEquation (with_order false 2) "A + B => C"
          (Some (gas_kinetics false false)) = Ok R'
    ∧ keeps_members (with_order false 2) R'
    ∧ valid R' = false.
Proof.
  eexists. split; [vm_compute; reflexivity|].
  split.
  - apply (parseReactionEquation_keeps_members _ _ "A + B => C"
             (Some (gas_kinetics false false))).
    vm_compute. reflexivity.
  - vm_compute. reflexivity.
Defined.

(** "H2 + O2" has no arrow: the products of the reaction stay. *)
Lemma parse_equation_without_arrow_example :
  ∃ R', parseReactionEquation (water 2 2) "H2 + O2" None = Ok R'
    ∧ products R' = {["H2O" := 2%float]} ∧ reversible R' = false.
Proof.
  eexists. split; [vm_compute; reflexivity|].
  apply (proj2 (proj2 parse_equation_without_arrow) (water 2 2) _ "H2 + O2" None).
  - intros tok Htok. vm_compute in Htok.
    apply elem_of_cons in Htok as [->|Htok]; [reflexivity|].
    apply elem_of_cons in Htok as [->|Htok]; [reflexivity|].
    apply elem_of_cons in Htok as [->|Htok]; [reflexivity|].
    by apply elem_of_nil in Htok.
  - vm_compute. reflexivity.
Defined.

(** "2 H => H2" names declared species only. *)
Lemma parse_keeps_valid_when_declared_example :
  parseReactionEquation Reaction_new "2 H => H2" (Some (gas_kinetics false false))
    = Ok hydrogen_recombination
  ∧ valid hydrogen_recombination = true.
Proof.
  assert (parseReactionEquation Reaction_new "2 H => H2"
            (Some (gas_kinetics false false)) = Ok hydrogen_recombination)
    as Hparse by (vm_compute; reflexivity).
  split; [exact Hparse|].
  apply (parse_keeps_valid_when_declared _ _ _ _ Hparse); [reflexivity|].
  intros k [[v Hk]|[v Hk]]; simpl in Hk;
    apply lookup_singleton_Some in Hk as [<- _]; right; by vm_compute.
Defined.

(** An equation with numerals and with both forms of the falloff bracket. *)
Lemma parse_well_formed_equation_example :
  ∃ R', parseReactionEquation Reaction_new "2 H2 + O2 (+M) => 2 H2O (+ M)"
          (Some (gas_kinetics false false)) = Ok R'
    ∧ reactants R' = {["(+M)" := (-1)%float; "H2" := 2%float; "O2" := 1%float]}
    ∧ products R' = {["(+M)" := (-1)%float; "H2O" := 2%float]}
    ∧ reversible R' = false
    ∧ valid R' = true.
Proof.
  destruct (parse_well_formed_equation Reaction_new "2 H2 + O2 (+M) => 2 H2O (+ M)"
              (Some (gas_kinetics false false))
              (mkSide [Scaled "2" "H2"] (Species "O2") (Some (Joined "(+M)")))
              "=>"
              (mkSide [] (Scaled "2" "H2O") (Some (Spaced "M)"))))
    as (R' & Hparse & Hr & Hp & Hrev & Hv);
    try (vm_compute; reflexivity).
  exists R'. split; [exact Hparse|].
  split; [rewrite Hr; vm_compute; reflexivity|].
  split; [rewrite Hp; vm_compute; reflexivity|].
  split; [exact Hrev|]. rewrite Hv. vm_compute. reflexivity.
Defined.

(** A doubled "+", a coefficient that is no number, and a term of three
    tokens. *)
Lemma parse_rejects_malformed_term_examples :
  parseReactionEquation Reaction_new "H2 + + O2 => H2O" None
    = Throw (ParseError "+" "+")
  ∧ parseReactionEquation Reaction_new "H2 + O2 => x H2O" None
    = Throw (NotANumber "x")
  ∧ parseReactionEquation Reaction_new "H2 and O2 => H2O" None
    = Throw (ParseError "=>" "n/a").
Proof.
  split; [|split].
  - apply (parse_rejects_malformed_term _ _ _ None [Species "H2"] [] "+"
             ["O2"; "=>"; "H2O"; "+"]); vm_compute; (reflexivity || discriminate).
  - apply (parse_rejects_malformed_term _ _ _
             (Some (mkSide [Species "H2"] (Species "O2") None, "=>")) []
             ["x"; "H2O"] "+" []); vm_compute; (reflexivity || discriminate).
  - apply (parse_rejects_malformed_term _ _ _ None [] ["H2"; "and"; "O2"] "=>"
             ["H2O"; "+"]); vm_compute; (reflexivity || discriminate).
Defined.

(** No species on both sides, and two of them. *)
Lemma detectEfficiencies_outcomes_examples :
  detectEfficiencies no_partner = Ok (false, no_partner)
  ∧ detectEfficiencies two_partners = Throw MultipleCollisionPartners.
Proof.
  split.
  - apply (proj1 (detectEfficiencies_outcomes no_partner (ThirdBody_new 1)
                    eq_refl eq_refl)).
    intros k [[r Hr] [p Hp]]. simpl in Hr, Hp.
    apply lookup_singleton_Some in Hp as [<- _].
    apply lookup_insert_Some in Hr as [[[=] _]|[_ Hr]].
    by apply lookup_singleton_Some in Hr as [[=] _].
  - apply (proj1 (proj2 (detectEfficiencies_outcomes two_partners (ThirdBody_new 1)
                           eq_refl eq_refl))).
    exists "H", "AR". split; [done|].
    split; apply (bool_decide_unpack _); vm_compute; exact I.
Defined.

(** "H + O2 + M <=> HO2 + M": the generic "M" is erased from both sides. *)
Lemma ThreeBodyReaction_setEquation_outcomes_example :
  ThreeBodyReaction_setEquation ThreeBodyReaction_new "H + O2 + M <=> HO2 + M"
    (Some (gas_kinetics false false))
  = Ok (set_products (delete "M" (products three_body_M_parsed))
          (set_reactants (delete "M" (reactants three_body_M_parsed))
             three_body_M_parsed))
  ∧ m_third_body three_body_M_parsed = Some (ThirdBody_new 1).
Proof.
  apply (proj1 (ThreeBodyReaction_setEquation_outcomes ThreeBodyReaction_new
                  three_body_M_parsed (ThirdBody_new 1) "H + O2 + M <=> HO2 + M"
                  (Some (gas_kinetics false false))
                  ltac:(vm_compute; reflexivity) eq_refl eq_refl));
    apply (bool_decide_unpack _); vm_compute; exact I.
Defined.

(** A falloff equation with the partner AR, written in both forms. *)
Lemma FalloffReaction_setEquation_well_formed_example :
  ∃ R', FalloffReaction_setEquation FalloffReaction_new
          "H + O2 (+ AR) <=> HO2 (+AR)" (Some (gas_kinetics false false)) = Ok R'
    ∧ reactants R' = {["H" := 1%float; "O2" := 1%float]}
    ∧ products R' = {["HO2" := 1%float]}
    ∧ reversible R' = true
    ∧ m_third_body R' = Some (mkThirdBody 0 {["AR" := 1%float]} true false).
Proof.
  destruct (FalloffReaction_setEquation_well_formed
              "H + O2 (+ AR) <=> HO2 (+AR)" (Some (gas_kinetics false false))
              (mkSide [Species "H"] (Species "O2") (Some (Spaced "AR)")))
              "<=>"
              (mkSide [] (Species "HO2") (Some (Joined "(+AR)")))
              (Spaced "AR)") (Joined "(+AR)") "AR")
    as (R' & Hset & Hr & Hp & Hrev & Htb);
    try (vm_compute; reflexivity).
  exists R'. split; [exact Hset|].
  split; [rewrite Hr; vm_compute; reflexivity|].
  split; [rewrite Hp; vm_compute; reflexivity|].
  split; [exact Hrev|exact Htb].
Defined.

(** The order of "A" is kept and the order of "H2" comes from the node; a
    node that holds only the parameters of a rate is not empty, and is
    refused for its missing equation. *)
Lemma setParameters_members_example :
  setParameters (with_order false 2) node_with_orders (gas_kinetics false false)
    = Ok after_node_with_orders
  ∧ orders after_node_with_orders !! "A" = Some 2%float
  ∧ orders after_node_with_orders !! "H2" = Some 1.5%float
  ∧ setParameters (with_order false 2) rate_only (gas_kinetics false false)
    = Throw (MissingKey "equation").
Proof.
  assert (setParameters (with_order false 2) node_with_orders
            (gas_kinetics false false) = Ok after_node_with_orders) as Hset
    by (vm_compute; reflexivity).
  split; [exact Hset|].
  destruct (proj2 (proj2 (proj2 (setParameters_members (with_order false 2)
                                   node_with_orders (gas_kinetics false false))))
              after_node_with_orders eq_refl Hset)
    as (_ & _ & _ & _ & _ & _ & _ & Ho & _).
  split; [rewrite Ho; vm_compute; reflexivity|].
  split; [rewrite Ho; vm_compute; reflexivity|].
  apply (proj1 (proj2 (proj2 (setParameters_members (with_order false 2)
                                rate_only (gas_kinetics false false)))));
    reflexivity.
Defined.

(** With the generic "M", AR has the efficiency of the node and H2 the
    default efficiency of the node.  With AR on both sides of a three-body
    equation, or in the brackets of a falloff equation, AR has efficiency 1
    and N2 efficiency 0, although the node lists 2 for N2. *)
Lemma efficiency_after_setParameters_example :
  (∃ R' tb', setParameters ThreeBodyReaction_new node_with_efficiencies
               (gas_kinetics false false) = Ok R'
     ∧ m_third_body R' = Some tb'
     ∧ efficiency tb' "AR" = 0.7%float
     ∧ efficiency tb' "H2" = 0.5%float)
  ∧ (∃ R' tb', setParameters ThreeBodyReaction_new
                 (node_with_partner "H + O2 + AR <=> HO2 + AR")
                 (gas_kinetics false false) = Ok R'
       ∧ m_third_body R' = Some tb'
       ∧ efficiency tb' "AR" = 1%float
       ∧ efficiency tb' "N2" = 0%float)
  ∧ (∃ R' tb', setParameters FalloffReaction_new
                 (node_with_partner "H + O2 (+AR) <=> HO2 (+AR)")
                 (gas_kinetics false false) = Ok R'
       ∧ m_third_body R' = Some tb'
       ∧ efficiency tb' "AR" = 1%float
       ∧ efficiency tb' "N2" = 0%float).
Proof.
  split; [|split].
  - destruct (efficiency_after_setParameters node_with_efficiencies
                (gas_kinetics false false) "H + O2 + M <=> HO2 + M"
                (mkSide [Species "H"; Species "O2"] (Species "M") None) "<=>"
                (mkSide [Species "HO2"] (Species "M") None)
                eq_refl ltac:(vm_compute; reflexivity) eq_refl eq_refl eq_refl
                ltac:(vm_compute; reflexivity)) as [Hthree _].
    destruct (Hthree eq_refl eq_refl) as [Hgeneric _].
    destruct Hgeneric as (R' & tb' & HR' & Htb' & _ & Heff);
      [apply (bool_decide_unpack _); vm_compute; exact I..|].
    exists R', tb'. split; [exact HR'|]. split; [exact Htb'|].
    rewrite !Heff. split; vm_compute; reflexivity.
  - destruct (efficiency_after_setParameters
                (node_with_partner "H + O2 + AR <=> HO2 + AR")
                (gas_kinetics false false) "H + O2 + AR <=> HO2 + AR"
                (mkSide [Species "H"; Species "O2"] (Species "AR") None) "<=>"
                (mkSide [Species "HO2"] (Species "AR") None)
                eq_refl ltac:(vm_compute; reflexivity) eq_refl eq_refl eq_refl
                ltac:(vm_compute; reflexivity)) as [Hthree _].
    destruct (Hthree eq_refl eq_refl) as [_ Hpartner].
    destruct (Hpartner "AR") as (R' & tb' & HR' & Htb' & _ & Heff);
      [discriminate| |].
    { intros k. change (k ∈ ["H"; "O2"; "AR"] ∧ k ∈ ["HO2"; "AR"] ↔ k = "AR").
      rewrite !elem_of_cons, !elem_of_nil. naive_solver. }
    exists R', tb'. split; [exact HR'|]. split; [exact Htb'|].
    rewrite !Heff. split; vm_compute; reflexivity.
  - destruct (efficiency_after_setParameters
                (node_with_partner "H + O2 (+AR) <=> HO2 (+AR)")
                (gas_kinetics false false) "H + O2 (+AR) <=> HO2 (+AR)"
                (mkSide [Species "H"] (Species "O2") (Some (Joined "(+AR)"))) "<=>"
                (mkSide [] (Species "HO2") (Some (Joined "(+AR)")))
                eq_refl ltac:(vm_compute; reflexivity) eq_refl eq_refl eq_refl
                ltac:(vm_compute; reflexivity)) as [_ Hfalloff].
    destruct (Hfalloff (Joined "(+AR)") (Joined "(+AR)") "AR"
                eq_refl eq_refl eq_refl eq_refl ltac:(vm_compute; reflexivity))
      as (R' & tb' & HR' & Htb' & _ & Heff).
    exists R', tb'. split; [exact HR'|]. split; [exact Htb'|].
    rewrite !Heff. split; vm_compute; reflexivity.
Defined.

(** The units of "H + O2 + M <=> HO2 + M" before and after "M" is erased. *)
Lemma calculateRateCoeffUnits_true_reactants_example :
  calculateRateCoeffUnits three_body_M_parsed (gas_kinetics false false)
  = calculateRateCoeffUnits
      (set_products (delete "M" (products three_body_M_parsed))
         (set_reactants (delete "M" (reactants three_body_M_parsed))
            three_body_M_parsed)) (gas_kinetics false false).
Proof.
  symmetry.
  apply (proj2 (calculateRateCoeffUnits_true_reactants (gas_kinetics false false))
           three_body_M_parsed "M").
  reflexivity.
Defined.

(** Declared species, and the undeclared species of "A + B => C" with and
    without the policy of skipping. *)
Lemma checkSpecies_outcomes_examples :
  checkSpecies (water 2 2) (gas_kinetics false false)
    = (_ ← checkBalance (water 2 2) (gas_kinetics false false); Ok true)
  ∧ checkSpecies (with_order false 2) (gas_kinetics true false) = Ok false
  ∧ ∃ names, checkSpecies (with_order false 2) (gas_kinetics false false)
             = Throw (UndeclaredSpecies names)
      ∧ "A" ∈ names ∧ "C" ∈ names.
Proof.
  split; [|split].
  - apply (proj1 (checkSpecies_outcomes (water 2 2) (gas_kinetics false false))).
    + intros k [v Hk]. simpl in Hk.
      apply lookup_insert_Some in Hk as [[<- _]|[_ Hk]]; [by vm_compute|].
      apply lookup_singleton_Some in Hk as [<- _]. by vm_compute.
    + intros k [v Hk]. simpl in Hk.
      apply lookup_singleton_Some in Hk as [<- _]. by vm_compute.
    + intros k [v Hk]. simpl in Hk. by rewrite lookup_empty in Hk.
    + intros tb [=].
  - apply (proj1 (proj2 (proj2 (checkSpecies_outcomes (with_order false 2)
                                  (gas_kinetics true false)))) "A").
    + left. apply (bool_decide_unpack _). vm_compute. exact I.
    + vm_compute. reflexivity.
  - destruct (proj1 (proj2 (proj2 (checkSpecies_outcomes (with_order false 2)
                                     (gas_kinetics false false)))) "A")
      as (names & Hthrow & Hnames).
    + left. apply (bool_decide_unpack _). vm_compute. exact I.
    + vm_compute. reflexivity.
    + exists names. split; [exact Hthrow|].
      split; apply Hnames; (split; [|vm_compute; reflexivity]).
      * left. apply (bool_decide_unpack _). vm_compute. exact I.
      * right. apply (bool_decide_unpack _). vm_compute. exact I.
Defined.

(** An equation with the partner AR, one without partner, and a node that
    gives its type. *)
Lemma newReaction_type_inference_examples :
  newReaction_type (untyped "H + O2 + AR <=> HO2 + AR") (gas_kinetics false false)
    = Ok "three-body"
  ∧ newReaction_type (untyped "H + O2 <=> HO2") (gas_kinetics false false)
    = Ok "elementary"
  ∧ newReaction_type node_with_efficiencies (gas_kinetics false false)
    = Ok "three-body".
Proof.
  split; [|split].
  - apply (proj2 (proj2 (proj2 (newReaction_type_inference
             (untyped "H + O2 + AR <=> HO2 + AR") (gas_kinetics false false))))
             "H + O2 + AR <=> HO2 + AR"
             (mkSide [Species "H"; Species "O2"] (Species "AR") None) "<=>"
             (mkSide [Species "HO2"] (Species "AR") None));
      try (vm_compute; reflexivity);
      apply (bool_decide_unpack _); vm_compute; exact I.
  - apply (proj2 (proj2 (proj2 (newReaction_type_inference
             (untyped "H + O2 <=> HO2") (gas_kinetics false false))))
             "H + O2 <=> HO2"
             (mkSide [Species "H"] (Species "O2") None) "<=>"
             (mkSide [] (Species "HO2") None));
      try (vm_compute; reflexivity);
      apply (bool_decide_unpack _); vm_compute; exact I.
  - apply (proj1 (newReaction_type_inference node_with_efficiencies
                    (gas_kinetics false false))).
    reflexivity.
Defined.

(** "2 H2 + O2 => 2 H2O" among neutral species. *)
Lemma usesElectrochemistry_neutral_example :
  usesElectrochemistry (water 2 2) (gas_kinetics false false) gas_charges
  = Ok false.
Proof.
  apply usesElectrochemistry_neutral.
  - intros k c Hk. simpl in Hk.
    apply lookup_insert_Some in Hk as [[<- <-]|[_ Hk]];
      [vm_compute; repeat split; (reflexivity || discriminate)|].
    apply lookup_singleton_Some in Hk as [<- <-].
    vm_compute; repeat split; (reflexivity || discriminate).
  - intros k c Hk. simpl in Hk.
    apply lookup_singleton_Some in Hk as [<- <-].
    vm_compute; repeat split; (reflexivity || discriminate).
Defined.

(** "H + O2 + AR <=> HO2 + AR": AR, the one species on both sides, becomes
    the collision partner and leaves the compositions. *)
Lemma ThreeBodyReaction_setEquation_plain_example :
  ∃ R', ThreeBodyReaction_setEquation ThreeBodyReaction_new
          "H + O2 + AR <=> HO2 + AR" (Some (gas_kinetics false false)) = Ok R'
    ∧ reactants R' !! "AR" = None ∧ reactants R' !! "O2" = Some 1%float
    ∧ products R' !! "AR" = None ∧ products R' !! "HO2" = Some 1%float
    ∧ m_third_body R' = Some (mkThirdBody 0 {["AR" := 1%float]} true true).
Proof.
  destruct (proj2 (ThreeBodyReaction_setEquation_plain
              "H + O2 + AR <=> HO2 + AR" (Some (gas_kinetics false false))
              (mkSide [Species "H"; Species "O2"] (Species "AR") None) "<=>"
              (mkSide [Species "HO2"] (Species "AR") None)
              ltac:(vm_compute; reflexivity) eq_refl eq_refl eq_refl
              ltac:(vm_compute; reflexivity) eq_refl eq_refl
              ltac:(apply (bool_decide_unpack _); vm_compute; exact I)
              ltac:(apply (bool_decide_unpack _); vm_compute; exact I))
            ltac:(apply (bool_decide_unpack _); vm_compute; exact I))
    as (_ & Hone & _).
  destruct (Hone "AR" eq_refl) as (R' & HR' & Hr & Hp & Htb).
  exists R'. split; [exact HR'|]. rewrite !Hr, !Hp.
  repeat split; try reflexivity. exact Htb.
Defined.

(** The entries of a small composition read back. *)
Ltac reads_back_entries :=
  intros k c Hk; simpl in Hk;
  repeat (apply lookup_insert_Some in Hk as [[<- <-]|[_ Hk]];
          [vm_compute; repeat split; (reflexivity || discriminate)|]);
  apply lookup_singleton_Some in Hk as [<- <-];
  vm_compute; repeat split; (reflexivity || discriminate).

(** "2 H2 + O2 => 2 H2O" is written and read back. *)
Lemma equation_round_trip_example :
  Reaction_equation show_double (water 2 2) = Ok "2 H2 + O2 => 2 H2O"
  ∧ ∃ R', setEquation Reaction_new "2 H2 + O2 => 2 H2O" None = Ok R'
      ∧ reactants R' = {["H2" := 2%float; "O2" := 1%float]}
      ∧ products R' = {["H2O" := 2%float]}
      ∧ reversible R' = false.
Proof.
  assert (String.concat " " (equation_words show_double (water 2 2))
          = "2 H2 + O2 => 2 H2O") as Htext by (vm_compute; reflexivity).
  assert (equation_words show_double (water 2 2)
          = ["2"; "H2"; "+"; "O2"; "=>"; "2"; "H2O"]) as Hwords
    by (vm_compute; reflexivity).
  destruct (equation_round_trip show_double (water 2 2) Reaction_new None)
    as [Heq Hread].
  - discriminate.
  - discriminate.
  - reflexivity.
  - apply (bool_decide_unpack _). vm_compute. exact I.
  - apply (bool_decide_unpack _). vm_compute. exact I.
  - reads_back_entries.
  - reads_back_entries.
  - reflexivity.
  - reflexivity.
  - rewrite Htext, Hwords in *. split; [exact Heq|].
    apply Hread; vm_compute; reflexivity.
Defined.

(** "H + O2 + M <=> HO2 + M" is written for a three-body reaction with the
    generic third body, and "H + O2 (+AR) <=> HO2 (+AR)" for a falloff
    reaction with the partner AR; both are read back. *)
Lemma third_body_equation_round_trip_examples :
  (Reaction_equation show_double no_partner = Ok "H + O2 + M <=> HO2 + M"
   ∧ ∃ R', setEquation ThreeBodyReaction_new "H + O2 + M <=> HO2 + M" None = Ok R'
       ∧ reactants R' = {["H" := 1%float; "O2" := 1%float]}
       ∧ products R' = {["HO2" := 1%float]}
       ∧ reversible R' = true
       ∧ m_third_body R' = Some (ThirdBody_new 1))
  ∧ (Reaction_equation show_double falloff_AR = Ok "H + O2 (+AR) <=> HO2 (+AR)"
     ∧ ∃ R', setEquation FalloffReaction_new "H + O2 (+AR) <=> HO2 (+AR)" None
             = Ok R'
         ∧ reactants R' = {["H" := 1%float; "O2" := 1%float]}
         ∧ products R' = {["HO2" := 1%float]}
         ∧ reversible R' = true
         ∧ m_third_body R' = Some (mkThirdBody 0 {["AR" := 1%float]} true false)).
Proof.
  split.
  - assert (String.concat " " (partner_equation_words show_double no_partner "M")
            = "H + O2 + M <=> HO2 + M") as Htext by (vm_compute; reflexivity).
    assert (partner_equation_words show_double no_partner "M"
            = ["H"; "+"; "O2"; "+"; "M"; "<=>"; "HO2"; "+"; "M"]) as Hwords
      by (vm_compute; reflexivity).
    destruct (third_body_equation_round_trip show_double no_partner
                ThreeBodyReaction_new (ThirdBody_new 1) (ThirdBody_new 1) "M" None)
      as [Heq Hread].
    + by left.
    + reflexivity.
    + reflexivity.
    + reflexivity.
    + reflexivity.
    + reflexivity.
    + reflexivity.
    + reflexivity.
    + reflexivity.
    + apply (bool_decide_unpack _). vm_compute. exact I.
    + apply (bool_decide_unpack _). vm_compute. exact I.
    + reads_back_entries.
    + reads_back_entries.
    + intros _. repeat split; try reflexivity. intros HM. by destruct HM.
    + discriminate.
    + rewrite Htext, Hwords in *. split; [exact Heq|].
      apply Hread; vm_compute; reflexivity.
  - assert (String.concat " " (partner_equation_words show_double falloff_AR "AR")
            = "H + O2 (+AR) <=> HO2 (+AR)") as Htext by (vm_compute; reflexivity).
    assert (partner_equation_words show_double falloff_AR "AR"
            = ["H"; "+"; "O2"; "(+AR)"; "<=>"; "HO2"; "(+AR)"]) as Hwords
      by (vm_compute; reflexivity).
    destruct (third_body_equation_round_trip show_double falloff_AR
                FalloffReaction_new (mkThirdBody 0 {["AR" := 1%float]} true false)
                (mkThirdBody 1 ∅ false false) "AR" None)
      as [Heq Hread].
    + by right.
    + reflexivity.
    + reflexivity.
    + exists 1%float, []. vm_compute. reflexivity.
    + reflexivity.
    + reflexivity.
    + reflexivity.
    + reflexivity.
    + reflexivity.
    + apply (bool_decide_unpack _). vm_compute. exact I.
    + apply (bool_decide_unpack _). vm_compute. exact I.
    + reads_back_entries.
    + reads_back_entries.
    + discriminate.
    + intros _. vm_compute. reflexivity.
    + rewrite Htext, Hwords in *. split; [exact Heq|].
      apply Hread; vm_compute; reflexivity.
Defined.

End Runs.
